(** * TechSync traffic-control layer

    A shallow embedding of the adaptive traffic-control code of the
    TechSync backend:

    - [backend/middleware/rateLimitAnalytics.js]: the in-memory analytics
      store [RateLimitAnalytics] and the logging limiter factory
      [createAnalyticsLimiter];
    - [backend/middleware/stabilityMiddleware.js]: the pressure-aware
      limiter factory [createStabilityRateLimit] and the admission queue
      [RequestQueue];
    - [backend/middleware/smartRateLimit.js]: the role-exempting limiter
      factory [createSmartLimiter].

    JavaScript numbers that hold counts or millisecond clocks are integers
    in the code paths modelled here and are embedded as [nat] and [Z];
    JavaScript [Map]s are insertion-ordered association lists; mutable
    singletons ([analytics], [memoryMonitor], [requestQueue]) are threaded
    explicitly. *)

From Stdlib Require Import ZArith QArith List String Ascii Bool Lia.
From Stdlib Require Import DecimalString Sorted.
From stdpp Require Import base list strings gmap.
Import ListNotations.

Local Open Scope string_scope.
Local Open Scope list_scope.
Local Open Scope Z_scope.

(** ** JavaScript primitives used by the middleware *)

Module Js.

(** [s.startsWith(p)] *)
Definition startsWith (s p : string) : bool := String.prefix p s.

(** [s.includes(sub)] *)
Fixpoint includes (s sub : string) : bool :=
  String.prefix sub s ||
  match s with
  | EmptyString => false
  | String _ s' => includes s' sub
  end.

(** [s.substring(n)] *)
Fixpoint substring (n : nat) (s : string) : string :=
  match n, s with
  | O, _ => s
  | S n', String _ s' => substring n' s'
  | S _, EmptyString => EmptyString
  end.

(** [`${n}`] for an integer [n]. *)
Definition toString (n : Z) : string := NilZero.string_of_int (Z.to_int n).

(** [Math.floor(n * 0.5)] on an integer [n]. *)
Definition floor_half (n : Z) : Z := n / 2.

(** [Math.round(n / 1000)] on an integer [n]: halves round up. *)
Definition round_div_1000 (n : Z) : Z := (n + 500) / 1000.

(** [Math.ceil(n / 1000)] on an integer [n]. *)
Definition ceil_div_1000 (n : Z) : Z := (n + 999) / 1000.

(** [x || d] for a number that may be absent: [undefined] and [0] are
    both falsy. *)
Definition or_default (x : option Z) (d : Z) : Z :=
  match x with
  | Some v => if v =? 0 then d else v
  | None => d
  end.

(** [x || d] for a string that may be absent: [undefined] and [''] are
    both falsy. *)
Definition or_default_str (x : option string) (d : string) : string :=
  match x with
  | Some EmptyString => d
  | Some v => v
  | None => d
  end.

(** A stable sort, as [Array.prototype.sort] with a comparator [cmp]
    ([cmp a b <= 0] keeps [a] in front of [b]). *)
Section Sort.
Context {A : Type} (cmp : A -> A -> Z).

Fixpoint insert_sorted (x : A) (l : list A) : list A :=
  match l with
  | [] => [x]
  | y :: l' => if cmp x y <=? 0 then x :: l else y :: insert_sorted x l'
  end.

Definition sort (l : list A) : list A := foldr insert_sorted [] l.
End Sort.

(** [arr.slice(0, n)] *)
Definition slice0 {A : Type} (n : nat) (l : list A) : list A := firstn n l.

(** [[...new Set(l)]]: first occurrences, in order. *)
Fixpoint uniq_from (seen l : list string) : list string :=
  match l with
  | [] => []
  | x :: l' =>
      if existsb (String.eqb x) seen then uniq_from seen l'
      else x :: uniq_from (x :: seen) l'
  end.

Definition uniq (l : list string) : list string := uniq_from [] l.

(** [Map]: string keys, insertion order kept, [set] on a present key
    replaces the value in place. *)
Section Map.
Context {V : Type}.

Definition map := list (string * V).

Fixpoint get (k : string) (m : map) : option V :=
  match m with
  | [] => None
  | (k', v) :: m' => if String.eqb k k' then Some v else get k m'
  end.

Definition has (k : string) (m : map) : bool :=
  match get k m with Some _ => true | None => false end.

Fixpoint set (k : string) (v : V) (m : map) : map :=
  match m with
  | [] => [(k, v)]
  | (k', v') :: m' =>
      if String.eqb k k' then (k, v) :: m' else (k', v') :: set k v m'
  end.

Fixpoint delete (k : string) (m : map) : map :=
  match m with
  | [] => []
  | (k', v') :: m' =>
      if String.eqb k k' then m' else (k', v') :: delete k m'
  end.

Definition values (m : map) : list V := List.map snd m.
Definition entries (m : map) : list (string * V) := m.
Definition size (m : map) : nat := length m.
End Map.
Arguments map V : clear implicits.

End Js.

(** ** Requests and responses *)

Record Request := {
  req_ip : string;                  (* req.ip *)
  req_path : string;                (* req.path *)
  req_originalUrl : string;         (* req.originalUrl *)
  req_method : string;              (* req.method *)
  req_userAgent : option string;    (* req.get('User-Agent') *)
  req_authorization : option string (* req.headers.authorization *)
}.

Inductive JValue :=
| JBool (b : bool)
| JNum (n : Z)
| JStr (s : string).

(** A JSON object body, field by field. *)
Definition Body := list (string * JValue).

Fixpoint field (k : string) (b : Body) : option JValue :=
  match b with
  | [] => None
  | (k', v) :: b' => if String.eqb k k' then Some v else field k b'
  end.

(** What a middleware does with a request: call [next()] or answer. *)
Inductive Outcome :=
| Next
| Respond (status : Z) (body : Body).

(** ** The analytics store ([class RateLimitAnalytics]) *)

Module Analytics.

Record RequestRecord := {
  ip : string;
  endpoint : string;
  blocked : bool;
  userAgent : string;
  method : string;
  timestamp : Z                  (* new Date(), in milliseconds *)
}.

Record EndpointStats := {
  total : nat;
  ep_blocked : nat;              (* stats.blocked *)
  lastAccess : Z
}.

Record HourlyBucket := {
  hb_timestamp : Z;
  hb_requests : nat;
  hb_blocked : nat;
  hb_activeIPs : nat
}.

Record RealTimeStats := {
  currentRequests : nat;
  rt_blockedRequests : nat;      (* realTimeStats.blockedRequests *)
  topIPs : Js.map nat;
  topEndpoints : Js.map nat
}.

Record Store := {
  requests : Js.map RequestRecord;   (* `${ip}-${Date.now()}` -> record *)
  violations : Js.map nat;           (* IP -> violation count *)
  endpoints : Js.map EndpointStats;  (* endpoint -> stats *)
  hourlyStats : list HourlyBucket;
  realTimeStats : RealTimeStats
}.

(** [constructor()] *)
Definition empty : Store := {|
  requests := [];
  violations := [];
  endpoints := [];
  hourlyStats := [];
  realTimeStats := {|
    currentRequests := 0;
    rt_blockedRequests := 0;
    topIPs := [];
    topEndpoints := []
  |}
|}.

Definition hour_ms : Z := 60 * 60 * 1000.
Definition day_ms : Z := 24 * 60 * 60 * 1000.

(** [m.get(k) || 0] *)
Definition count_of (k : string) (m : Js.map nat) : nat :=
  match Js.get k m with Some n => n | None => O end.

(** The key of a raw record: [`${ip}-${Date.now()}`]. *)
Definition record_key (ip0 : string) (ms : Z) : string :=
  ip0 +:+ "-" +:+ Js.toString ms.

(** [logRequest(ip, endpoint, blocked, userAgent, method)].  The method
    reads the clock twice: [date] is [new Date()] and [ms] is
    [Date.now()]. *)
Definition logRequest (date ms : Z)
    (ip0 endpoint0 : string) (blocked0 : bool) (userAgent0 method0 : string)
    (st : Store) : Store :=
  let key := record_key ip0 ms in
  (* Log individual request *)
  let requests1 :=
    Js.set key {| ip := ip0; endpoint := endpoint0; blocked := blocked0;
                  userAgent := userAgent0; method := method0;
                  timestamp := date |} (requests st) in
  (* Update real-time stats *)
  let rt := realTimeStats st in
  let current1 := S (currentRequests rt) in
  let rtBlocked1 :=
    if blocked0 then S (rt_blockedRequests rt) else rt_blockedRequests rt in
  (* Track violations per IP *)
  let violations1 :=
    if blocked0
    then Js.set ip0 (count_of ip0 (violations st) + 1)%nat (violations st)
    else violations st in
  (* Update top IPs *)
  let topIPs1 := Js.set ip0 (count_of ip0 (topIPs rt) + 1)%nat (topIPs rt) in
  (* Update top endpoints *)
  let topEndpoints1 :=
    Js.set endpoint0 (count_of endpoint0 (topEndpoints rt) + 1)%nat
           (topEndpoints rt) in
  (* Update endpoint stats *)
  let endpoints1 :=
    if negb (Js.has endpoint0 (endpoints st))
    then Js.set endpoint0
                {| total := 0; ep_blocked := 0; lastAccess := date |}
                (endpoints st)
    else endpoints st in
  let endpoints2 :=
    match Js.get endpoint0 endpoints1 with
    | Some stats =>
        Js.set endpoint0
               {| total := S (total stats);
                  ep_blocked :=
                    if blocked0 then S (ep_blocked stats)
                    else ep_blocked stats;
                  lastAccess := date |}
               endpoints1
    | None => endpoints1
    end in
  {| requests := requests1;
     violations := violations1;
     endpoints := endpoints2;
     hourlyStats := hourlyStats st;
     realTimeStats := {|
       currentRequests := current1;
       rt_blockedRequests := rtBlocked1;
       topIPs := topIPs1;
       topEndpoints := topEndpoints1
     |} |}.

(** The records of the trailing hour, in map order:
    [Array.from(this.requests.values()).filter(r => r.timestamp >= hourAgo)]. *)
Definition since (hourAgo : Z) (st : Store) : list RequestRecord :=
  List.filter (fun r => hourAgo <=? timestamp r) (Js.values (requests st)).

(** [updateHourlyStats()] at clock reading [now]. *)
Definition updateHourlyStats (now : Z) (st : Store) : Store :=
  let hourAgo := now - hour_ms in
  let hourlyRequests := length (since hourAgo st) in
  let hourlyBlocked := length (List.filter blocked (since hourAgo st)) in
  let bucket := {|
    hb_timestamp := now;
    hb_requests := hourlyRequests;
    hb_blocked := hourlyBlocked;
    hb_activeIPs := length (Js.uniq (List.map ip (since hourAgo st)))
  |} in
  (* Keep only last 24 hours *)
  let dayAgo := now - day_ms in
  {| requests := requests st;
     violations := violations st;
     endpoints := endpoints st;
     hourlyStats :=
       List.filter (fun stat => dayAgo <=? hb_timestamp stat)
                   (hourlyStats st ++ [bucket]);
     realTimeStats := realTimeStats st |}.

(** [cleanupOldData()] at clock reading [now]. *)
Definition cleanupOldData (now : Z) (st : Store) : Store :=
  let hourAgo := now - hour_ms in
  {| requests :=
       List.filter (fun kv => negb (timestamp (snd kv) <? hourAgo))
                   (requests st);
     violations := violations st;
     endpoints := endpoints st;
     hourlyStats := hourlyStats st;
     realTimeStats := {|
       currentRequests := 0;
       rt_blockedRequests := 0;
       topIPs := [];
       topEndpoints := []
     |} |}.

Record Summary := {
  totalRequests : nat;
  blockedRequests : nat;
  blockRate : Z;                (* in hundredths of a percent *)
  activeIPs : nat;
  totalViolations : nat
}.

Record EndpointRow := {
  row_endpoint : string;
  row_total : nat;
  row_blocked : nat;
  row_lastAccess : Z;
  row_blockRate : Z             (* in hundredths of a percent *)
}.

Record RealTimeView := {
  view_currentRequests : nat;
  view_blockedRequests : nat;
  view_topIPs : list (string * nat);
  view_topEndpoints : list (string * nat)
}.

Record AnalyticsView := {
  summary : Summary;
  recentRequests : list RequestRecord;
  topViolators : list (string * nat);
  endpointStats : list EndpointRow;
  view_hourlyStats : list HourlyBucket;
  view_realTimeStats : RealTimeView
}.

(** [total > 0 ? (blocked / total * 100).toFixed(2) : 0], kept as the
    integer number of hundredths; the quotient is taken exactly, where
    the code goes through a double.  The two can differ in the last
    digit: for 23 of 160 the double is just below 14.375 and the code
    prints 14.37, where the exact quotient rounds to 14.38.  The
    properties below use the value only through bounds that hold of
    both. *)
Definition percent2 (blocked0 total0 : nat) : Z :=
  if (0 <? Z.of_nat total0)
  then (2 * Z.of_nat blocked0 * 10000 + Z.of_nat total0) / (2 * Z.of_nat total0)
  else 0.

(** [(a, b) => b[1] - a[1]] *)
Definition by_count_desc (a b : string * nat) : Z :=
  Z.of_nat (snd b) - Z.of_nat (snd a).

(** [getAnalytics()] at clock reading [now]. *)
Definition getAnalytics (now : Z) (st : Store) : AnalyticsView :=
  let hourAgo := now - hour_ms in
  (* Get recent requests *)
  let recent :=
    Js.slice0 100
      (Js.sort (fun a b => timestamp b - timestamp a) (since hourAgo st)) in
  (* Calculate metrics *)
  let totalRequests0 := length recent in
  let blockedRequests0 := length (List.filter blocked recent) in
  let blockRate0 := percent2 blockedRequests0 totalRequests0 in
  (* Top violating IPs *)
  let topViolators0 :=
    Js.slice0 10 (Js.sort by_count_desc (Js.entries (violations st))) in
  (* Top endpoints by traffic *)
  let endpointStats0 :=
    Js.slice0 10
      (Js.sort (fun a b => Z.of_nat (row_total b) - Z.of_nat (row_total a))
         (List.map (fun kv =>
            {| row_endpoint := fst kv;
               row_total := total (snd kv);
               row_blocked := ep_blocked (snd kv);
               row_lastAccess := lastAccess (snd kv);
               row_blockRate :=
                 percent2 (ep_blocked (snd kv)) (total (snd kv)) |})
            (Js.entries (endpoints st)))) in
  (* Active IPs in last hour *)
  let activeIPs0 := length (Js.uniq (List.map ip recent)) in
  {| summary := {|
       totalRequests := totalRequests0;
       blockedRequests := blockedRequests0;
       blockRate := blockRate0;
       activeIPs := activeIPs0;
       totalViolations :=
         fold_left (fun sum count => (sum + count)%nat)
                   (Js.values (violations st)) O
     |};
     recentRequests := Js.slice0 20 recent;
     topViolators := topViolators0;
     endpointStats := endpointStats0;
     view_hourlyStats := hourlyStats st;
     view_realTimeStats := {|
       view_currentRequests := currentRequests (realTimeStats st);
       view_blockedRequests := rt_blockedRequests (realTimeStats st);
       view_topIPs :=
         Js.slice0 5
           (Js.sort by_count_desc (Js.entries (topIPs (realTimeStats st))));
       view_topEndpoints :=
         Js.slice0 5
           (Js.sort by_count_desc
              (Js.entries (topEndpoints (realTimeStats st))))
     |} |}.

Record IPAnalytics := {
  ipa_ip : string;
  ipa_totalRequests : nat;
  ipa_blockedRequests : nat;
  ipa_violations : nat;
  ipa_endpoints : list string;
  ipa_recentActivity : list RequestRecord
}.

(** [getIPAnalytics(ip)] *)
Definition getIPAnalytics (ip0 : string) (st : Store) : IPAnalytics :=
  let reqs :=
    Js.sort (fun a b => timestamp b - timestamp a)
      (List.filter (fun r => String.eqb (ip r) ip0)
                   (Js.values (requests st))) in
  {| ipa_ip := ip0;
     ipa_totalRequests := length reqs;
     ipa_blockedRequests := length (List.filter blocked reqs);
     ipa_violations := count_of ip0 (violations st);
     ipa_endpoints := Js.uniq (List.map endpoint reqs);
     ipa_recentActivity := Js.slice0 50 reqs |}.

(** The operations that change the store, each with the clock readings
    it takes. *)
Inductive Op :=
| LogRequest (date ms : Z) (ip0 endpoint0 : string) (blocked0 : bool)
             (userAgent0 method0 : string)
| UpdateHourlyStats (now : Z)
| CleanupOldData (now : Z).

Definition apply (op : Op) (st : Store) : Store :=
  match op with
  | LogRequest date ms ip0 endpoint0 blocked0 userAgent0 method0 =>
      logRequest date ms ip0 endpoint0 blocked0 userAgent0 method0 st
  | UpdateHourlyStats now => updateHourlyStats now st
  | CleanupOldData now => cleanupOldData now st
  end.

(** The store after a history of operations, oldest first. *)
Definition run (ops : list Op) (st : Store) : Store :=
  fold_left (fun s op => apply op s) ops st.

End Analytics.

(** ** The rate limiters *)

Module Limiter.

(** The per-key state of a fixed window. *)
Record Window := {
  windowStart : Z;
  hits : Z
}.

Section RateLimit.
(** [W] is the module-level state the callbacks of a limiter read and
    write: the [analytics] singleton, the [memoryMonitor] flag. *)
Context {W : Type}.

(** The options of [rateLimit] the factories set.  Callbacks receive
    the clock reading of the request they serve. *)
Record Options := {
  windowMs : Z;
  max : Request -> W -> Z;
  skip : Z -> Request -> W -> bool * W;
  handler : Z -> Request -> W -> Outcome * W
}.

(** Modelled from the spec: the counter of the [express-rate-limit]
    package, which is a dependency and not part of the sources.  The
    spec's fixed window counter: the window of a key restarts when
    [now - windowStart >= windowMs], the request that restarts it
    being its first hit; otherwise the hit count goes up by one. *)
Definition increment (wms now : Z) (key : string)
    (store : gmap string Window) : Z * gmap string Window :=
  match store !! key with
  | Some w =>
      if wms <=? now - windowStart w
      then (1, <[key := {| windowStart := now; hits := 1 |}]> store)
      else (hits w + 1,
            <[key := {| windowStart := windowStart w;
                        hits := hits w + 1 |}]> store)
  | None => (1, <[key := {| windowStart := now; hits := 1 |}]> store)
  end.

(** Modelled from the spec: the middleware [rateLimit(options)] of the
    [express-rate-limit] package.  A skipped request proceeds
    uncounted; otherwise the counter of the client IP is incremented
    and compared against the maximum computed for this request: over
    it the handler answers, else the request proceeds. *)
Definition rateLimit (o : Options) (now : Z) (req : Request)
    (st : gmap string Window * W) : Outcome * (gmap string Window * W) :=
  let '(store, w) := st in
  let '(skipped, w1) := skip o now req w in
  if skipped then (Next, (store, w1))
  else
    let '(totalHits, store1) := increment (windowMs o) now (req_ip req) store in
    if max o req w1 <? totalHits
    then let '(out, w2) := handler o now req w1 in (out, (store1, w2))
    else (Next, (store1, w1)).

(** Modelled from the spec: the handler [express-rate-limit] installs
    when the options give none: status 429 with the configured
    message as the body. *)
Definition defaultHandler (message : Request -> W -> Body)
    (_ : Z) (req : Request) (w : W) : Outcome * W :=
  (Respond 429 (message req w), w).

(** Requests served one after the other, each at its clock reading. *)
Fixpoint serve (o : Options) (reqs : list (Z * Request))
    (st : gmap string Window * W)
    : list Outcome * (gmap string Window * W) :=
  match reqs with
  | [] => ([], st)
  | (now, req) :: rest =>
      let '(out, st1) := rateLimit o now req st in
      let '(outs, st2) := serve o rest st1 in
      (out :: outs, st2)
  end.
End RateLimit.
Arguments Options W : clear implicits.

(** *** [createAnalyticsLimiter] (rateLimitAnalytics.js) *)

Record AnalyticsOptions := {
  a_windowMs : Z;
  a_max : Z;
  a_message : option string
}.

Definition analyticsBody (options : AnalyticsOptions) : Body :=
  [ ("success", JBool false);
    ("message", JStr (Js.or_default_str (a_message options)
                        "Too many requests, please try again later."));
    ("retryAfter", JNum (Js.round_div_1000 (a_windowMs options)));
    ("type", JStr "rate_limit_exceeded");
    ("limit", JNum (a_max options));
    ("windowMs", JNum (a_windowMs options)) ].

(** [req.get('User-Agent') || ''] *)
Definition userAgentOf (req : Request) : string :=
  Js.or_default_str (req_userAgent req) "".

Definition createAnalyticsLimiter (options : AnalyticsOptions)
    : Options Analytics.Store := {|
  windowMs := a_windowMs options;
  max := fun _ _ => a_max options;
  handler := fun now req analytics =>
    (* Log the blocked request *)
    let analytics1 :=
      Analytics.logRequest now now (req_ip req) (req_originalUrl req) true
                           (userAgentOf req) (req_method req) analytics in
    (Respond 429 (analyticsBody options), analytics1);
  skip := fun now req analytics =>
    (* Log all requests (not blocked) *)
    let analytics1 :=
      Analytics.logRequest now now (req_ip req) (req_originalUrl req) false
                           (userAgentOf req) (req_method req) analytics in
    (false, analytics1)  (* Don't skip any requests *)
|}.

Definition minutes15 : Z := 15 * 60 * 1000.

(** The [limiters] table of rateLimitAnalytics.js. *)
Definition limiters_auth : AnalyticsOptions := {|
  a_windowMs := minutes15; a_max := 5;
  a_message := Some "Too many authentication attempts. Please try again later." |}.
Definition limiters_register : AnalyticsOptions := {|
  a_windowMs := 60 * 60 * 1000; a_max := 3;
  a_message := Some "Too many registration attempts. Please try again later." |}.
Definition limiters_api : AnalyticsOptions := {|
  a_windowMs := minutes15; a_max := 100;
  a_message := Some "Too many API requests. Please try again later." |}.
Definition limiters_public : AnalyticsOptions := {|
  a_windowMs := minutes15; a_max := 200;
  a_message := Some "Too many requests. Please try again later." |}.
Definition limiters_admin : AnalyticsOptions := {|
  a_windowMs := minutes15; a_max := 50;
  a_message := Some "Too many admin requests. Please try again later." |}.

(** *** [createStabilityRateLimit] (stabilityMiddleware.js) *)

(** [memoryMonitor]: the flag the limiter and the queue read. *)
Record MemoryMonitor := {
  isUnderPressure : bool
}.

(** Every call site passes [windowMs]; [max] and [message.message] may
    be absent. *)
Record StabilityOptions := {
  s_max : option Z;
  s_windowMs : Z;
  s_message : option string        (* options.message?.message *)
}.

(** [req.path.includes('/admin') || req.path.includes('/analytics')] *)
Definition isAdminPath (path : string) : bool :=
  Js.includes path "/admin" || Js.includes path "/analytics".

(** The [max] callback. *)
Definition stabilityMax (options : StabilityOptions)
    (req : Request) (memoryMonitor : MemoryMonitor) : Z :=
  let maxRequests := Js.or_default (s_max options) 100 in
  (* Reduce limits during memory pressure *)
  let maxRequests :=
    if isUnderPressure memoryMonitor
    then Js.floor_half maxRequests
    else maxRequests in
  (* Higher limits for admin routes *)
  let maxRequests :=
    if isAdminPath (req_path req)
    then Z.max (maxRequests * 4) 200
    else maxRequests in
  maxRequests.

(** The [message] callback. *)
Definition stabilityMessage (options : StabilityOptions)
    (req : Request) (memoryMonitor : MemoryMonitor) : Body :=
  [ ("success", JBool false);
    ("message", JStr (Js.or_default_str (s_message options)
                        "Too many requests, please try again later."));
    ("retryAfter", JNum (Js.ceil_div_1000 (s_windowMs options)));
    ("systemStatus",
      JStr (if isUnderPressure memoryMonitor
            then "under_pressure" else "healthy")) ].

(** The [skip] callback. *)
Definition stabilitySkip (req : Request) : bool :=
  String.eqb (req_path req) "/health" || String.eqb (req_path req) "/api/health".

Definition createStabilityRateLimit (options : StabilityOptions)
    : Options MemoryMonitor := {|
  windowMs := s_windowMs options;
  max := stabilityMax options;
  handler := defaultHandler (stabilityMessage options);
  skip := fun _ req memoryMonitor => (stabilitySkip req, memoryMonitor)
|}.

(** The [rateLimiters] table of stabilityMiddleware.js. *)
Definition rateLimiters_auth : StabilityOptions := {|
  s_max := Some 15; s_windowMs := minutes15;
  s_message := Some "Too many authentication attempts. Please try again later." |}.
Definition rateLimiters_admin : StabilityOptions := {|
  s_max := Some 200; s_windowMs := minutes15;
  s_message := Some "Admin rate limit exceeded. Please wait a moment." |}.
Definition rateLimiters_api : StabilityOptions := {|
  s_max := Some 150; s_windowMs := minutes15;
  s_message := Some "Too many requests. Please try again later." |}.
Definition rateLimiters_public : StabilityOptions := {|
  s_max := Some 250; s_windowMs := minutes15;
  s_message := Some "Rate limit exceeded. Please try again shortly." |}.

(** *** [createSmartLimiter] (smartRateLimit.js) *)

(** What [jwt.verify] hands back: the payload, of which only [role] is
    read. *)
Record Decoded := {
  role : option string
}.

(** A computation that may throw. *)
Inductive Throws (A : Type) :=
| Return (a : A)
| Throw.
Arguments Return {A} a.
Arguments Throw {A}.

Definition bind {A B : Type} (m : Throws A) (k : A -> Throws B) : Throws B :=
  match m with
  | Return a => k a
  | Throw => Throw
  end.

(** [try { m } catch (error) { return d }] *)
Definition try_catch {A : Type} (m : Throws A) (d : A) : A :=
  match m with
  | Return a => a
  | Throw => d
  end.

Record SmartOptions := {
  m_windowMs : Z;
  m_max : Z
}.

Section Smart.
(** [token => jwt.verify(token, process.env.JWT_SECRET)] of the
    [jsonwebtoken] package: the decoded payload, or an exception. *)
Variable jwt_verify : string -> Throws Decoded.

(** The body of the [try] block of the [skip] callback. *)
Definition smartSkipBody (req : Request) : Throws bool :=
  (* Extract token from request *)
  match req_authorization req with
  | None => Return false
  | Some authHeader =>
      if String.eqb authHeader "" || negb (Js.startsWith authHeader "Bearer ")
      then Return false (* Apply rate limit to non-authenticated requests *)
      else
        let token := Js.substring 7 authHeader in
        if String.eqb token "" then Return false
        else
          (* Verify and decode token *)
          bind (jwt_verify token) (fun decoded =>
          (* SKIP rate limiting for admins and moderators *)
          match role decoded with
          | Some r =>
              if String.eqb r "admin" || String.eqb r "moderator"
              then Return true
              else Return false
          | None => Return false
          end)
  end.

(** The [skip] callback. *)
Definition smartSkip (req : Request) : bool :=
  (* If token verification fails, apply rate limiting *)
  try_catch (smartSkipBody req) false.

Definition smartMessage (options : SmartOptions) : Body :=
  [ ("success", JBool false);
    ("message", JStr "Too many requests. Please wait before trying again.");
    ("retryAfter", JNum (Js.ceil_div_1000 (m_windowMs options))) ].

Definition createSmartLimiter (options : SmartOptions) : Options unit := {|
  windowMs := m_windowMs options;
  max := fun _ _ => m_max options;
  handler := defaultHandler (fun _ _ => smartMessage options);
  skip := fun _ req w => (smartSkip req, w)
|}.
End Smart.

End Limiter.

(** ** The admission queue ([class RequestQueue]) *)

Module Queue.

(** The two [cleanup] closures a response can carry: the one installed
    by the middleware on immediate admission, and the one installed by
    [processQueue]. *)
Inductive Cleanup :=
| CleanupDirect
| CleanupDrained.

(** The response events the closures listen to. *)
Inductive ResEvent :=
| Finish
| Close
| Error.

(** What the client of request [id] observes. *)
Inductive Effect :=
| Entered (id : nat)                           (* next() *)
| Answered (id : nat) (status : Z) (body : Body). (* res.status(..).json(..) *)

(** [requestItem]; [item_id] stands for the identity of the object,
    which [indexOf] compares, and numbers requests in order of arrival. *)
Record RequestItem := {
  item_id : nat;
  item_req : Request;
  isAdmin : bool
}.

(** The queue object together with what the runtime holds for it: the
    memory monitor's flag, the clock, the armed timeouts, the listeners
    on responses and the callbacks scheduled with [setImmediate]. *)
Record State := {
  maxConcurrent : Z;
  activeRequests : Z;
  queue : list RequestItem;
  isProcessing : bool;
  underPressure : bool;                 (* memoryMonitor.isUnderPressure *)
  clock : Z;
  timers : list (nat * Z);              (* item, deadline *)
  listeners : list (nat * Cleanup);
  immediates : nat;
  nextId : nat;
  effects : list Effect                 (* newest first *)
}.

(** [new RequestQueue(maxConcurrent)] *)
Definition new (maxConcurrent0 : Z) : State := {|
  maxConcurrent := maxConcurrent0;
  activeRequests := 0;
  queue := [];
  isProcessing := false;
  underPressure := false;
  clock := 0;
  timers := [];
  listeners := [];
  immediates := 0;
  nextId := 0;
  effects := []
|}.

(** [constructor(maxConcurrent = 40)]: the limit of a queue built without
    an argument. *)
Definition default_maxConcurrent : Z := 40.

(** [const requestQueue = new RequestQueue(30)] *)
Definition requestQueue : State := new 30.

(** The delay of the timeout set for a queued request. *)
Definition queue_timeout_ms : Z := 10000.

Definition busyBody : Body :=
  [ ("success", JBool false);
    ("message", JStr "Server is busy. Please try again later.");
    ("code", JStr "SERVER_BUSY") ].

Definition ids (q : list RequestItem) : list nat := List.map item_id q.

(** [processQueue()] *)
Definition processQueue (s : State) : State :=
  if isProcessing s || (length (queue s) =? 0)%nat then s
  else if (maxConcurrent s <=? activeRequests s) || underPressure s then s
  else
    match queue s with
    | [] => s
    | requestItem :: rest =>
        {| maxConcurrent := maxConcurrent s;
           activeRequests := activeRequests s + 1;
           queue := rest;
           isProcessing := true;
           underPressure := underPressure s;
           clock := clock s;
           (* Clear timeout *)
           timers :=
             List.filter (fun t => negb (fst t =? item_id requestItem)%nat)
                         (timers s);
           listeners := (item_id requestItem, CleanupDrained) :: listeners s;
           immediates := immediates s;
           nextId := nextId s;
           effects := Entered (item_id requestItem) :: effects s |}
    end.

(** Skip queueing for health checks and critical endpoints. *)
Definition bypasses (path : string) : bool :=
  String.eqb path "/health" || String.eqb path "/api/health"
  || Js.includes path "/auth/logout".

(** [req.path.includes('/admin') || req.path.includes('/analytics')] *)
Definition isAdminRequest (path : string) : bool :=
  Js.includes path "/admin" || Js.includes path "/analytics".

(** The middleware, serving the request that arrives as number
    [nextId s]. *)
Definition middleware (req : Request) (s : State) : State :=
  let id := nextId s in
  if bypasses (req_path req) then
    {| maxConcurrent := maxConcurrent s;
       activeRequests := activeRequests s;
       queue := queue s;
       isProcessing := isProcessing s;
       underPressure := underPressure s;
       clock := clock s;
       timers := timers s;
       listeners := listeners s;
       immediates := immediates s;
       nextId := S id;
       effects := Entered id :: effects s |}
  else if (activeRequests s <? maxConcurrent s) && negb (underPressure s) then
    (* If system is healthy and not overloaded, process immediately *)
    {| maxConcurrent := maxConcurrent s;
       activeRequests := activeRequests s + 1;
       queue := queue s;
       isProcessing := isProcessing s;
       underPressure := underPressure s;
       clock := clock s;
       timers := timers s;
       listeners := (id, CleanupDirect) :: listeners s;
       immediates := immediates s;
       nextId := S id;
       effects := Entered id :: effects s |}
  else
    (* Queue the request *)
    let requestItem :=
      {| item_id := id; item_req := req;
         isAdmin := isAdminRequest (req_path req) |} in
    processQueue
      {| maxConcurrent := maxConcurrent s;
         activeRequests := activeRequests s;
         queue :=
           if isAdmin requestItem
           then requestItem :: queue s       (* Priority for admin *)
           else queue s ++ [requestItem];
         isProcessing := isProcessing s;
         underPressure := underPressure s;
         clock := clock s;
         (* Set timeout for queued requests *)
         timers := timers s ++ [(id, clock s + queue_timeout_ms)];
         listeners := listeners s;
         immediates := immediates s;
         nextId := S id;
         effects := effects s |}.

(** [queue.splice(queue.indexOf(requestItem), 1)] for the item [id]. *)
Fixpoint splice_item (id : nat) (q : list RequestItem) : list RequestItem :=
  match q with
  | [] => []
  | it :: q' =>
      if (item_id it =? id)%nat then q' else it :: splice_item id q'
  end.

(** The callback of the timeout of item [id]. *)
Definition onTimeout (id : nat) (s : State) : State :=
  if existsb (Nat.eqb id) (ids (queue s)) then   (* index > -1 *)
    {| maxConcurrent := maxConcurrent s;
       activeRequests := activeRequests s;
       queue := splice_item id (queue s);
       isProcessing := isProcessing s;
       underPressure := underPressure s;
       clock := clock s;
       timers := timers s;
       listeners := listeners s;
       immediates := immediates s;
       nextId := nextId s;
       effects := Answered id 503 busyBody :: effects s |}
  else s.

(** The [cleanup] closures. *)
Definition cleanup (c : Cleanup) (s : State) : State :=
  match c with
  | CleanupDirect =>
      processQueue
        {| maxConcurrent := maxConcurrent s;
           activeRequests := activeRequests s - 1;
           queue := queue s;
           isProcessing := isProcessing s;
           underPressure := underPressure s;
           clock := clock s;
           timers := timers s;
           listeners := listeners s;
           immediates := immediates s;
           nextId := nextId s;
           effects := effects s |}
  | CleanupDrained =>
      {| maxConcurrent := maxConcurrent s;
         activeRequests := activeRequests s - 1;
         queue := queue s;
         isProcessing := false;
         underPressure := underPressure s;
         clock := clock s;
         timers := timers s;
         listeners := listeners s;
         (* setImmediate(() => this.processQueue()) *)
         immediates := S (immediates s);
         nextId := nextId s;
         effects := effects s |}
  end.

Fixpoint listener_of (id : nat) (ls : list (nat * Cleanup)) : option Cleanup :=
  match ls with
  | [] => None
  | (id', c) :: ls' => if (id =? id')%nat then Some c else listener_of id ls'
  end.

Fixpoint deadline_of (id : nat) (ts : list (nat * Z)) : option Z :=
  match ts with
  | [] => None
  | (id', d) :: ts' => if (id =? id')%nat then Some d else deadline_of id ts'
  end.

(** What can happen to the queue. *)
Inductive Event :=
| Arrive (req : Request)           (* a request reaches the middleware *)
| Fire (id : nat)                  (* the timeout of an item expires *)
| Emit (id : nat) (ev : ResEvent)  (* a response emits finish/close/error *)
| RunImmediate                     (* a scheduled processQueue() runs *)
| Tick (dt : Z)                    (* time passes *)
| Sample (pressure : bool).        (* the memory monitor samples the heap *)

(** One event; [None] when the event cannot happen in [s]. *)
Definition step (e : Event) (s : State) : option State :=
  match e with
  | Arrive req => Some (middleware req s)
  | Fire id =>
      match deadline_of id (timers s) with
      | Some d =>
          if d <=? clock s then
            Some (onTimeout id
              {| maxConcurrent := maxConcurrent s;
                 activeRequests := activeRequests s;
                 queue := queue s;
                 isProcessing := isProcessing s;
                 underPressure := underPressure s;
                 clock := clock s;
                 timers :=
                   List.filter (fun t => negb (fst t =? id)%nat) (timers s);
                 listeners := listeners s;
                 immediates := immediates s;
                 nextId := nextId s;
                 effects := effects s |})
          else None
      | None => None
      end
  | Emit id _ =>
      match listener_of id (listeners s) with
      | Some c => Some (cleanup c s)
      | None => Some s                 (* nobody listens *)
      end
  | RunImmediate =>
      match immediates s with
      | O => None
      | S n =>
          Some (processQueue
            {| maxConcurrent := maxConcurrent s;
               activeRequests := activeRequests s;
               queue := queue s;
               isProcessing := isProcessing s;
               underPressure := underPressure s;
               clock := clock s;
               timers := timers s;
               listeners := listeners s;
               immediates := n;
               nextId := nextId s;
               effects := effects s |})
      end
  | Tick dt =>
      if 0 <=? dt then
        Some {| maxConcurrent := maxConcurrent s;
                activeRequests := activeRequests s;
                queue := queue s;
                isProcessing := isProcessing s;
                underPressure := underPressure s;
                clock := clock s + dt;
                timers := timers s;
                listeners := listeners s;
                immediates := immediates s;
                nextId := nextId s;
                effects := effects s |}
      else None
  | Sample pressure =>
      Some {| maxConcurrent := maxConcurrent s;
              activeRequests := activeRequests s;
              queue := queue s;
              isProcessing := isProcessing s;
              underPressure := pressure;
              clock := clock s;
              timers := timers s;
              listeners := listeners s;
              immediates := immediates s;
              nextId := nextId s;
              effects := effects s |}
  end.

(** A history of events, oldest first. *)
Fixpoint run (es : list Event) (s : State) : option State :=
  match es with
  | [] => Some s
  | e :: es' =>
      match step e s with
      | Some s' => run es' s'
      | None => None
      end
  end.

(** The order in which the queue holds two items: an admin item ahead of
    a normal one; two normal items by arrival; two admin items by
    reverse arrival ([unshift]). *)
Definition ahead (a b : RequestItem) : Prop :=
  match isAdmin a, isAdmin b with
  | true, false => True
  | false, true => False
  | false, false => (item_id a < item_id b)%nat
  | true, true => (item_id b < item_id a)%nat
  end.

End Queue.

(** ** The specification's wording of the properties that are compared
    with the code *)

Module Spec.

(** [effectiveMax = baseMax × (underPressure ? 0.5 : 1.0)
                    × (isAdminPath ? max(4×, floor at 200) : 1.0)],
    over the rationals. *)
Definition effectiveMax (baseMax : Z) (underPressure isAdminPath : bool) : Q :=
  let m := (inject_Z baseMax * (if underPressure then 1 # 2 else 1))%Q in
  if isAdminPath
  then (if Qle_bool (4 * m) 200 then 200 else 4 * m)%Q
  else m.

(** The seconds remaining until the window that began at [windowStart]
    resets, seen at [now]. *)
Definition secondsUntilReset (windowMs windowStart now : Z) : Z :=
  Js.ceil_div_1000 (windowStart + windowMs - now).

(** The rejection the specification describes for a request answered at
    [now] in the window that began at [windowStart]. *)
Definition rejection (message : string) (limit windowMs windowStart now : Z)
    (out : Outcome) : Prop :=
  exists body,
    out = Respond 429 body
    /\ field "retryAfter" body
       = Some (JNum (secondsUntilReset windowMs windowStart now))
    /\ field "message" body = Some (JStr message)
    /\ field "limit" body = Some (JNum limit)
    /\ field "windowMs" body = Some (JNum windowMs).

(** The health-check and logout paths. *)
Definition exemptPath (path : string) : bool :=
  String.eqb path "/health" || String.eqb path "/api/health"
  || Js.includes path "/auth/logout".

(** First come, first served among two queued items of equal
    priority; an admin item before a normal one. *)
Definition servedFirst (a b : Queue.RequestItem) : Prop :=
  match Queue.isAdmin a, Queue.isAdmin b with
  | true, false => True
  | false, true => False
  | _, _ => (Queue.item_id a < Queue.item_id b)%nat
  end.

End Spec.

(** ** Sample requests and histories *)

Module Sample.

Definition request (ip path : string) (auth : option string) : Request := {|
  req_ip := ip;
  req_path := path;
  req_originalUrl := path;
  req_method := "GET";
  req_userAgent := Some "curl/8.0";
  req_authorization := auth
|}.

Definition anonymous (path : string) : Request := request "1.2.3.4" path None.

Definition pressure : Limiter.MemoryMonitor := {| Limiter.isUnderPressure := true |}.
Definition healthy : Limiter.MemoryMonitor := {| Limiter.isUnderPressure := false |}.

(** Six login attempts of one client, a minute apart. *)
Definition six_logins : list (Z * Request) :=
  List.map (fun i => (Z.of_nat i * 60000, anonymous "/api/auth/login"))
           (seq 0 6).

(** Eight login attempts of one client, a minute apart. *)
Definition eight_logins : list (Z * Request) :=
  List.map (fun i => (Z.of_nat i * 60000, anonymous "/api/auth/login"))
           (seq 0 8).

(** 76 logout requests of one client, as the [/api/] mount sees them. *)
Definition logouts : list (Z * Request) :=
  repeat (0, anonymous "/auth/logout") 76.

(** Four health checks of one client. *)
Definition health_checks : list (Z * Request) :=
  repeat (0, anonymous "/health") 4.

(** A limiter configuration with base limit [n]. *)
Definition stability (n : Z) : Limiter.StabilityOptions := {|
  Limiter.s_max := Some n;
  Limiter.s_windowMs := Limiter.minutes15;
  Limiter.s_message := None
|}.

(** A token check that accepts two tokens. *)
Definition verify (token : string) : Limiter.Throws Limiter.Decoded :=
  if String.eqb token "admin-token"
  then Limiter.Return {| Limiter.role := Some "admin" |}
  else if String.eqb token "user-token"
  then Limiter.Return {| Limiter.role := Some "user" |}
  else Limiter.Throw.

(** [n] requests logged for one client, one per millisecond from 1 on. *)
Definition burst (n : nat) : list Analytics.Op :=
  List.map (fun i => Analytics.LogRequest (Z.of_nat i) (Z.of_nat i)
                       "1.2.3.4" "/api/projects" false "curl/8.0" "GET")
           (seq 1 n).

(** Two requests logged for one client within one millisecond. *)
Definition same_millisecond : list Analytics.Op :=
  [ Analytics.LogRequest 5 5 "1.2.3.4" "/api/projects" false "curl/8.0" "GET";
    Analytics.LogRequest 5 5 "1.2.3.4" "/api/projects" false "curl/8.0" "GET" ].

(** One request in flight, then two admin requests queued under memory
    pressure, and the pressure gone. *)
Definition two_admins_queued : list Queue.Event :=
  [ Queue.Arrive (anonymous "/api/projects");
    Queue.Sample true;
    Queue.Arrive (anonymous "/api/admin/users");
    Queue.Arrive (anonymous "/api/admin/stats");
    Queue.Sample false ].

(** The same, and then the request in flight finishes. *)
Definition two_admins_drained : list Queue.Event :=
  two_admins_queued ++ [Queue.Emit 0 Queue.Finish].

Definition first_admin : Queue.RequestItem := {|
  Queue.item_id := 1;
  Queue.item_req := anonymous "/api/admin/users";
  Queue.isAdmin := true
|}.

Definition second_admin : Queue.RequestItem := {|
  Queue.item_id := 2;
  Queue.item_req := anonymous "/api/admin/stats";
  Queue.isAdmin := true
|}.

(** One ordinary request that is served: it arrives, and its response
    emits [finish] and then [close], as a response that was sent in full
    does. *)
Definition one_completed : list Queue.Event :=
  [ Queue.Arrive (anonymous "/api/projects");
    Queue.Emit 0 Queue.Finish;
    Queue.Emit 0 Queue.Close ].

(** The same, and then 31 requests arrive before any of them is
    answered. *)
Definition over_cap : list Queue.Event :=
  one_completed ++ repeat (Queue.Arrive (anonymous "/api/projects")) 31.

(** A request queued under memory pressure and left waiting for ten
    seconds. *)
Definition left_waiting : list Queue.Event :=
  [ Queue.Sample true;
    Queue.Arrive (anonymous "/api/projects");
    Queue.Tick 10000 ].

(** The state a history leads to from the deployed queue. *)
Definition after (es : list Queue.Event) : Queue.State :=
  match Queue.run es Queue.requestQueue with
  | Some s => s
  | None => Queue.requestQueue
  end.

Definition waiting : Queue.State := Eval vm_compute in after left_waiting.

Definition timed_out : Queue.State :=
  Eval vm_compute in after (left_waiting ++ [Queue.Fire 0]).

End Sample.

(** ** Auxiliary notions of the statements *)

Module Aux.

(** The analytics store after a limiter callback has logged [req]. *)
Definition logged (now : Z) (req : Request) (isBlocked : bool)
    (analytics : Analytics.Store) : Analytics.Store :=
  Analytics.logRequest now now (req_ip req) (req_originalUrl req) isBlocked
    (Limiter.userAgentOf req) (req_method req) analytics.

(** The outcomes of [n] further hits on a window that holds [h] hits,
    under the limit [limit]. *)
Fixpoint outcomes_from (limit : Z) (rejected : Outcome) (h : Z) (n : nat)
    : list Outcome :=
  match n with
  | O => []
  | S n' =>
      (if limit <? h + 1 then rejected else Next)
        :: outcomes_from limit rejected (h + 1) n'
  end.

(** The first request of a client opens a window: the client has none,
    or its last one is over. *)
Definition opens_window (windowMs now : Z) (key : string)
    (store : gmap string Limiter.Window) : Prop :=
  match store !! key with
  | None => True
  | Some w => windowMs <= now - Limiter.windowStart w
  end.

(** The counted treatment of a request by a limiter with the fixed
    limit [limit]: the counter of the client goes up, and the request is
    rejected with [rejected] when the count passes the limit. *)
Definition counted (windowMs limit : Z) (rejected : Outcome)
    (now : Z) (req : Request) (store : gmap string Limiter.Window)
    : Outcome * gmap string Limiter.Window :=
  let hs := Limiter.increment windowMs now (req_ip req) store in
  (if limit <? fst hs then rejected else Next, snd hs).

Section Privileged.
Variable jwt_verify : string -> Limiter.Throws Limiter.Decoded.

(** The request carries [Authorization: Bearer <token>] with a token
    that verifies and asserts the role admin or moderator. *)
Definition privileged (req : Request) : Prop :=
  exists token decoded,
    req_authorization req = Some ("Bearer " +:+ token)
    /\ token <> ""
    /\ jwt_verify token = Limiter.Return decoded
    /\ (Limiter.role decoded = Some "admin"
        \/ Limiter.role decoded = Some "moderator").

(** The credential is absent, malformed, or fails verification. *)
Definition unverified (req : Request) : Prop :=
  match req_authorization req with
  | None => True
  | Some authHeader =>
      Js.startsWith authHeader "Bearer " = false
      \/ Js.substring 7 authHeader = ""
      \/ jwt_verify (Js.substring 7 authHeader) = Limiter.Throw
  end.
End Privileged.

(** Blocked counts stay within total counts in every aggregate the
    store holds. *)
Definition consistent (st : Analytics.Store) : Prop :=
  (Analytics.rt_blockedRequests (Analytics.realTimeStats st)
   <= Analytics.currentRequests (Analytics.realTimeStats st))%nat
  /\ Forall (fun kv => (Analytics.ep_blocked (snd kv)
                        <= Analytics.total (snd kv))%nat)
            (Analytics.endpoints st)
  /\ Forall (fun b => (Analytics.hb_blocked b <= Analytics.hb_requests b)%nat)
            (Analytics.hourlyStats st).

(** The same of the snapshot [getAnalytics()] hands out. *)
Definition view_consistent (v : Analytics.AnalyticsView) : Prop :=
  (Analytics.blockedRequests (Analytics.summary v)
   <= Analytics.totalRequests (Analytics.summary v))%nat
  /\ Forall (fun row => (Analytics.row_blocked row
                         <= Analytics.row_total row)%nat)
            (Analytics.endpointStats v)
  /\ Forall (fun b => (Analytics.hb_blocked b <= Analytics.hb_requests b)%nat)
            (Analytics.view_hourlyStats v)
  /\ (Analytics.view_blockedRequests (Analytics.view_realTimeStats v)
      <= Analytics.view_currentRequests (Analytics.view_realTimeStats v))%nat.

(** [endpoints.get(endpoint).total], zero for an unseen endpoint. *)
Definition endpoint_total (endpoint0 : string) (st : Analytics.Store) : nat :=
  match Js.get endpoint0 (Analytics.endpoints st) with
  | Some stats => Analytics.total stats
  | None => O
  end.

(** The queue state with one request fewer in flight:
    [this.activeRequests--]. *)
Definition released (s : Queue.State) : Queue.State := {|
  Queue.maxConcurrent := Queue.maxConcurrent s;
  Queue.activeRequests := Queue.activeRequests s - 1;
  Queue.queue := Queue.queue s;
  Queue.isProcessing := Queue.isProcessing s;
  Queue.underPressure := Queue.underPressure s;
  Queue.clock := Queue.clock s;
  Queue.timers := Queue.timers s;
  Queue.listeners := Queue.listeners s;
  Queue.immediates := Queue.immediates s;
  Queue.nextId := Queue.nextId s;
  Queue.effects := Queue.effects s
|}.

(** [clearTimeout] of the timeout of item [id]. *)
Definition disarm (id : nat) (ts : list (nat * Z)) : list (nat * Z) :=
  List.filter (fun t => negb (fst t =? id)%nat) ts.

(** What one event does to the queue, the timeouts, the numbering of
    requests and the effects. *)
Inductive change (s s' : Queue.State) : Prop :=
| Unchanged :
    Queue.queue s' = Queue.queue s ->
    Queue.timers s' = Queue.timers s ->
    Queue.nextId s' = Queue.nextId s ->
    Queue.effects s' = Queue.effects s ->
    change s s'
| Passed :
    Queue.queue s' = Queue.queue s ->
    Queue.timers s' = Queue.timers s ->
    Queue.nextId s' = S (Queue.nextId s) ->
    Queue.effects s' = Queue.Entered (Queue.nextId s) :: Queue.effects s ->
    change s s'
| Enqueued (it : Queue.RequestItem) :
    Queue.item_id it = Queue.nextId s ->
    Queue.queue s'
    = (if Queue.isAdmin it then it :: Queue.queue s else Queue.queue s ++ [it]) ->
    Queue.timers s'
    = Queue.timers s ++ [(Queue.nextId s, Queue.clock s + Queue.queue_timeout_ms)] ->
    Queue.nextId s' = S (Queue.nextId s) ->
    Queue.effects s' = Queue.effects s ->
    change s s'
| Drained (it : Queue.RequestItem) :
    Queue.queue s = it :: Queue.queue s' ->
    Queue.timers s' = disarm (Queue.item_id it) (Queue.timers s) ->
    Queue.nextId s' = Queue.nextId s ->
    Queue.effects s' = Queue.Entered (Queue.item_id it) :: Queue.effects s ->
    change s s'
| TimedOut (id : nat) :
    In id (Queue.ids (Queue.queue s)) ->
    Queue.queue s' = Queue.splice_item id (Queue.queue s) ->
    Queue.timers s' = disarm id (Queue.timers s) ->
    Queue.nextId s' = Queue.nextId s ->
    Queue.effects s' = Queue.Answered id 503 Queue.busyBody :: Queue.effects s ->
    change s s'
| Lapsed (id : nat) :
    ~ In id (Queue.ids (Queue.queue s)) ->
    Queue.queue s' = Queue.queue s ->
    Queue.timers s' = disarm id (Queue.timers s) ->
    Queue.nextId s' = Queue.nextId s ->
    Queue.effects s' = Queue.effects s ->
    change s s'.

(** What holds of the queue in every state it reaches. *)
Record inv (s : Queue.State) : Prop := {
  inv_sorted : StronglySorted Queue.ahead (Queue.queue s);
  inv_nodup : List.NoDup (Queue.ids (Queue.queue s));
  inv_fresh :
    forall id, In id (Queue.ids (Queue.queue s)) -> (id < Queue.nextId s)%nat;
  inv_waiting :
    forall id, In id (Queue.ids (Queue.queue s)) ->
               ~ In (Queue.Entered id) (Queue.effects s);
  inv_entered :
    forall id, In (Queue.Entered id) (Queue.effects s) ->
               (id < Queue.nextId s)%nat;
  inv_armed :
    forall id d, Queue.deadline_of id (Queue.timers s) = Some d ->
                 In id (Queue.ids (Queue.queue s))
}.

(** The requests whose response has emitted an event in a history. *)
Definition completed (es : list Queue.Event) : list nat :=
  flat_map (fun e => match e with
                     | Queue.Emit id _ => [id]
                     | _ => []
                     end) es.

(** The requests in flight after the history [es] has led to [s]: passed
    on with [next()], and their response has emitted nothing yet. *)
Definition in_flight (es : list Queue.Event) (s : Queue.State) : list nat :=
  flat_map (fun e => match e with
                     | Queue.Entered id =>
                         if existsb (Nat.eqb id) (completed es) then [] else [id]
                     | Queue.Answered _ _ _ => []
                     end) (Queue.effects s).

(** Item [id] has arrived, is not queued and has not been admitted. *)
Definition out (id : nat) (s : Queue.State) : Prop :=
  (id < Queue.nextId s)%nat
  /\ ~ In id (Queue.ids (Queue.queue s))
  /\ ~ In (Queue.Entered id) (Queue.effects s).

(** Item [id] has arrived and is not queued. *)
Definition gone (id : nat) (s : Queue.State) : Prop :=
  (id < Queue.nextId s)%nat /\ ~ In id (Queue.ids (Queue.queue s)).

End Aux.


(** ** Array and number primitives of the controllers *)

Module JsArray.

(** The index [arr.slice] works with for the argument [i] on an array of
    length [len]: a negative argument counts from the end, and the result
    stays within the array. *)
Definition relative (len i : Z) : Z :=
  if i <? 0 then Z.max (len + i) 0 else Z.min i len.

(** [arr.slice(start, end)] for integer arguments. *)
Definition slice {A : Type} (start finish : Z) (l : list A) : list A :=
  let len := Z.of_nat (length l) in
  let k := relative len start in
  let final := relative len finish in
  firstn (Z.to_nat (final - k)) (skipn (Z.to_nat k) l).

(** [Math.round(a / b)] for integers [a] and [b > 0], the quotient taken
    exactly. *)
Definition round_div (a b : Z) : Z := (2 * a + b) / (2 * b).

(** [Math.ceil(a / b)] for integers [a] and [b <> 0]. *)
Definition ceil_div (a b : Z) : Z := - ((- a) / b).

(** [arr.reduce((sum, x) => sum + f(x), 0)] *)
Definition sum_by {A : Type} (f : A -> nat) (l : list A) : nat :=
  fold_left (fun sum x => (sum + f x)%nat) l O.

End JsArray.

(** ** The analytics controller (analyticsController.js) *)

Module Controller.

(** The window a timeframe stands for, as the [switch] computes its
    start. *)
Definition startTime (timeframe : string) (now : Z) : Z :=
  if String.eqb timeframe "1h" then now - 60 * 60 * 1000
  else if String.eqb timeframe "6h" then now - 6 * 60 * 60 * 1000
  else if String.eqb timeframe "24h" then now - 24 * 60 * 60 * 1000
  else if String.eqb timeframe "7d" then now - 7 * 24 * 60 * 60 * 1000
  else now - 24 * 60 * 60 * 1000.

Record Peak := {
  peak_requests : nat;
  peak_timestamp : Z
}.

Record TrafficTotals := {
  t_totalRequests : nat;
  t_totalBlocked : nat;
  t_blockRate : Z;                   (* in hundredths of a percent *)
  averageRequestsPerHour : Z;
  peakTraffic : Peak
}.

Record TrafficData := {
  t_timeframe : string;
  t_summary : TrafficTotals;
  t_hourlyStats : list Analytics.HourlyBucket;
  currentStats : Analytics.Summary
}.

(** The [data] of the answer of [getTrafficSummary]: [query] is
    [req.query.timeframe], [now] the handler's clock reading and [nowA]
    the one [getAnalytics()] takes. *)
Definition getTrafficSummary (query : option string) (now nowA : Z)
    (analytics : Analytics.Store) : TrafficData :=
  let timeframe := match query with Some t => t | None => "24h" end in
  let start := startTime timeframe now in
  let analyticsData := Analytics.getAnalytics nowA analytics in
  (* Filter data by timeframe *)
  let filteredHourlyStats :=
    List.filter (fun stat => start <=? Analytics.hb_timestamp stat)
                (Analytics.view_hourlyStats analyticsData) in
  (* Calculate totals *)
  let totalRequests := JsArray.sum_by Analytics.hb_requests filteredHourlyStats in
  let totalBlocked := JsArray.sum_by Analytics.hb_blocked filteredHourlyStats in
  let blockRate := Analytics.percent2 totalBlocked totalRequests in
  (* Get peak traffic *)
  let peak :=
    fold_left
      (fun max stat =>
         if (peak_requests max <? Analytics.hb_requests stat)%nat
         then {| peak_requests := Analytics.hb_requests stat;
                 peak_timestamp := Analytics.hb_timestamp stat |}
         else max)
      filteredHourlyStats
      {| peak_requests := 0; peak_timestamp := now |} in
  {| t_timeframe := timeframe;
     t_summary := {|
       t_totalRequests := totalRequests;
       t_totalBlocked := totalBlocked;
       t_blockRate := blockRate;
       averageRequestsPerHour :=
         if (0 <? length filteredHourlyStats)%nat
         then JsArray.round_div (Z.of_nat totalRequests)
                (Z.of_nat (length filteredHourlyStats))
         else 0;
       peakTraffic := peak
     |};
     t_hourlyStats := filteredHourlyStats;
     currentStats := Analytics.summary analyticsData |}.

(** One row of the blocked-IP list:
    [{...violator, ...ipData, blockRate, lastActivity}]. *)
Record BlockedIP := {
  b_ip : string;
  b_violations : nat;
  b_totalRequests : nat;
  b_blockedRequests : nat;
  b_endpoints : list string;
  b_recentActivity : list Analytics.RequestRecord;
  b_blockRate : Z;                   (* in hundredths of a percent *)
  b_lastActivity : option Z
}.

Record BlockedIPsData := {
  blockedIPs : list BlockedIP;
  pg_current : Z;
  pg_limit : Z;
  pg_total : nat;
  pg_pages : option Z;               (* [None]: not a finite number *)
  totalBlockedIPs : nat;
  b_totalViolations : nat
}.

(** The rows before pagination. *)
Definition blockedRows (nowA : Z) (analytics : Analytics.Store)
    : list BlockedIP :=
  List.map
    (fun violator =>
       let ipData := Analytics.getIPAnalytics (fst violator) analytics in
       {| b_ip := Analytics.ipa_ip ipData;
          b_violations := Analytics.ipa_violations ipData;
          b_totalRequests := Analytics.ipa_totalRequests ipData;
          b_blockedRequests := Analytics.ipa_blockedRequests ipData;
          b_endpoints := Analytics.ipa_endpoints ipData;
          b_recentActivity := Analytics.ipa_recentActivity ipData;
          b_blockRate :=
            Analytics.percent2 (Analytics.ipa_blockedRequests ipData)
                               (Analytics.ipa_totalRequests ipData);
          b_lastActivity :=
            match Analytics.ipa_recentActivity ipData with
            | r :: _ => Some (Analytics.timestamp r)
            | [] => None
            end |})
    (Analytics.topViolators (Analytics.getAnalytics nowA analytics)).

(** The [data] of the answer of [getBlockedIPs] for the integers the
    query parameters [page] and [limit] denote (1 and 50 when absent). *)
Definition getBlockedIPs (page limit : Z) (nowA : Z)
    (analytics : Analytics.Store) : BlockedIPsData :=
  let rows := blockedRows nowA analytics in
  (* Pagination *)
  let startIndex := (page - 1) * limit in
  let endIndex := startIndex + limit in
  {| blockedIPs := JsArray.slice startIndex endIndex rows;
     pg_current := page;
     pg_limit := limit;
     pg_total := length rows;
     pg_pages :=
       if limit =? 0 then None
       else Some (JsArray.ceil_div (Z.of_nat (length rows)) limit);
     totalBlockedIPs := length rows;
     b_totalViolations := JsArray.sum_by b_violations rows |}.

End Controller.

(** ** Health and errors (stabilityMiddleware.js) *)

Module Stability.

(** [process.memoryUsage()], in bytes. *)
Record MemoryUsage := {
  heapUsed : Z;
  heapTotal : Z
}.

Definition maxMemoryPercent : Z := 85.

(** The callback of [startMonitoring]: the flag after a sample,
    [(heapUsed / heapTotal) * 100 > maxMemoryPercent] with the quotient
    taken exactly. *)
Definition sample (memUsage : MemoryUsage) : Limiter.MemoryMonitor :=
  {| Limiter.isUnderPressure :=
       maxMemoryPercent * heapTotal memUsage <? 100 * heapUsed memUsage |}.

Record MemoryStatus := {
  ms_heapUsed : Z;                   (* MB *)
  ms_heapTotal : Z;                  (* MB *)
  percentage : Z;
  ms_underPressure : bool
}.

(** [MemoryMonitor.getStatus()], the quotient of the percentage taken
    exactly, where the code goes through a double.  The two can differ
    by one: for 23 MB of 40 MB the double is just below 57.5 and the code
    reports 57, where the exact quotient rounds to 58.  The properties
    below use the percentage only through its position relative to 85
    and 90, which is the same for both. *)
Definition memoryStatus (memUsage : MemoryUsage)
    (memoryMonitor : Limiter.MemoryMonitor) : MemoryStatus := {|
  ms_heapUsed := JsArray.round_div (heapUsed memUsage) (1024 * 1024);
  ms_heapTotal := JsArray.round_div (heapTotal memUsage) (1024 * 1024);
  percentage := JsArray.round_div (heapUsed memUsage * 100) (heapTotal memUsage);
  ms_underPressure := Limiter.isUnderPressure memoryMonitor
|}.

Record QueueStatus := {
  qs_activeRequests : Z;
  queueLength : nat;
  qs_maxConcurrent : Z
}.

(** [RequestQueue.getStatus()] *)
Definition queueStatus (s : Queue.State) : QueueStatus := {|
  qs_activeRequests := Queue.activeRequests s;
  queueLength := length (Queue.queue s);
  qs_maxConcurrent := Queue.maxConcurrent s
|}.

Inductive HealthStatus :=
| Healthy
| Degraded
| Critical.

Record Health := {
  status : HealthStatus;
  statusCode : Z;
  memory : MemoryStatus;
  requests : QueueStatus
}.

(** [healthCheck]: the status, the HTTP status code and the two reports
    of the answer; the other fields of the body (timestamp, uptime, node
    version, environment) are read off the process and decide nothing. *)
Definition healthCheck (memUsage : MemoryUsage)
    (memoryMonitor : Limiter.MemoryMonitor) (s : Queue.State) : Health :=
  let memoryStatus0 := memoryStatus memUsage memoryMonitor in
  let queueStatus0 := queueStatus s in
  let status0 := Healthy in
  (* Determine overall health *)
  let status1 :=
    if ms_underPressure memoryStatus0 || (10 <? queueLength queueStatus0)%nat
    then Degraded else status0 in
  let status2 :=
    if (20 <? queueLength queueStatus0)%nat || (90 <? percentage memoryStatus0)
    then Critical else status1 in
  {| status := status2;
     statusCode :=
       match status2 with
       | Healthy => 200
       | Degraded => 200
       | Critical => 503
       end;
     memory := memoryStatus0;
     requests := queueStatus0 |}.

(** The error an Express error handler receives: [status] is absent on a
    plain [Error]; [rendering] stands for the error object as
    [res.json] writes it under [details]. *)
Record Err := {
  err_name : string;
  err_status : option Z;
  err_message : option string;
  err_stack : option string;
  rendering : string
}.

(** What the handler does: hand the error on with [next(err)], or
    answer. *)
Inductive Handled :=
| PassOn
| Reply (status : Z) (body : Body).

Definition status_is (err : Err) (n : Z) : bool :=
  match err_status err with
  | Some m => m =? n
  | None => false
  end.

(** [enhancedErrorHandler]: [development] is
    [process.env.NODE_ENV === 'development'], [iso] is
    [new Date().toISOString()]. *)
Definition enhancedErrorHandler (development : bool) (iso : string)
    (err : Err) (headersSent : bool) : Handled :=
  (* Don't send response if headers already sent *)
  if headersSent then PassOn
  else
    (* Handle specific error types *)
    let '(statusCode, message, code) :=
      if String.eqb (err_name err) "ValidationError"
      then (400, "Validation failed", "VALIDATION_ERROR")
      else if String.eqb (err_name err) "UnauthorizedError" || status_is err 401
      then (401, "Unauthorized", "UNAUTHORIZED")
      else if status_is err 403 then (403, "Forbidden", "FORBIDDEN")
      else if status_is err 404 then (404, "Not found", "NOT_FOUND")
      else if status_is err 429 then (429, "Too many requests", "RATE_LIMITED")
      else
        match err_status err with
        | Some n =>
            if n =? 0 then (500, "Internal server error", "SERVER_ERROR")
            else (n,
                  Js.or_default_str (err_message err) "Internal server error",
                  "SERVER_ERROR")
        | None => (500, "Internal server error", "SERVER_ERROR")
        end in
    Reply statusCode
      ([ ("success", JBool false);
         ("message", JStr message);
         ("code", JStr code);
         ("timestamp", JStr iso) ]
       ++ (if development
           then (match err_stack err with
                 | Some stack => [("stack", JStr stack)]
                 | None => []
                 end)
                ++ [("details", JStr (rendering err))]
           else [])).

End Stability.

(** ** Further notions of the statements *)

Module More.

(** The request an effect is about. *)
Definition effect_id (e : Queue.Effect) : nat :=
  match e with
  | Queue.Entered id => id
  | Queue.Answered id _ _ => id
  end.

(** The [logRequest] calls of a history. *)
Definition is_log (op : Analytics.Op) : bool :=
  match op with
  | Analytics.LogRequest _ _ _ _ _ _ _ => true
  | _ => false
  end.

(** The blocked [logRequest] calls of a history. *)
Definition is_blocked_log (op : Analytics.Op) : bool :=
  match op with
  | Analytics.LogRequest _ _ _ _ blocked0 _ _ => blocked0
  | _ => false
  end.

(** The [logRequest] calls of a history for the client [ip0]. *)
Definition logs_ip (ip0 : string) (op : Analytics.Op) : bool :=
  match op with
  | Analytics.LogRequest _ _ ip1 _ _ _ _ => String.eqb ip1 ip0
  | _ => false
  end.

(** The sum of the counts a table holds. *)
Definition sum_counts (m : Js.map nat) : nat :=
  fold_left (fun sum count => (sum + count)%nat) (Js.values m) O.

(** The raw records the store holds for the client [ip0]. *)
Definition records_of (ip0 : string) (st : Analytics.Store)
    : list Analytics.RequestRecord :=
  List.filter (fun r => String.eqb (Analytics.ip r) ip0)
              (Js.values (Analytics.requests st)).

(** The path holds [sub] somewhere. *)
Definition contains (path sub : string) : Prop :=
  exists before after, path = before +:+ sub +:+ after.

(** Three requests on record: two of one client, one of them blocked,
    and between them one of another client. *)
Definition three_logged : list Analytics.Op :=
  [ Analytics.LogRequest 1 1 "1.2.3.4" "/api/projects" false "curl/8.0" "GET";
    Analytics.LogRequest 2 2 "5.6.7.8" "/api/tasks" false "curl/8.0" "GET";
    Analytics.LogRequest 3 3 "1.2.3.4" "/api/auth/login" true "curl/8.0" "POST" ].

(** Traffic of two hours: two requests rolled up at the end of the first
    hour, one more rolled up at the end of the second. *)
Definition two_hours : list Analytics.Op :=
  [ Analytics.LogRequest 1000 1000 "1.2.3.4" "/api/projects" false "curl/8.0" "GET";
    Analytics.LogRequest 2000 2000 "5.6.7.8" "/api/auth/login" true "curl/8.0" "POST";
    Analytics.UpdateHourlyStats 3600000;
    Analytics.LogRequest 7000000 7000000 "1.2.3.4" "/api/tasks" false "curl/8.0" "GET";
    Analytics.UpdateHourlyStats 7200000 ].

(** A history with one blocked login attempt. *)
Definition one_blocked : list Analytics.Op :=
  [ Analytics.LogRequest 1 1 "1.2.3.4" "/api/auth/login" true "curl/8.0" "POST" ].

(** The row [getBlockedIPs] lists for it. *)
Definition blocked_row : Controller.BlockedIP :=
  Eval vm_compute in
    match Controller.blockedRows 2 (Analytics.run one_blocked Analytics.empty) with
    | row :: _ => row
    | [] => {| Controller.b_ip := ""; Controller.b_violations := 0;
               Controller.b_totalRequests := 0;
               Controller.b_blockedRequests := 0;
               Controller.b_endpoints := []; Controller.b_recentActivity := [];
               Controller.b_blockRate := 0; Controller.b_lastActivity := None |}
    end.

End More.
(** * Properties *)

(** ** The effective maximum of [createStabilityRateLimit] *)

Lemma floor_half_bounds (n : Z) :
  2 * Js.floor_half n <= n < 2 * Js.floor_half n + 2.
Proof.
  unfold Js.floor_half.
  pose proof (Z.div_mod n 2 ltac:(lia)) as Hdm.
  pose proof (Z.mod_pos_bound n 2 ltac:(lia)) as Hm.
  lia.
Qed.

(** C1 (as amended).  For every request the effective maximum is the base
    limit ([options.max], or 100 when that is absent or zero), halved and
    rounded down to an integer when the memory monitor reports pressure
    and unchanged otherwise; on an admin or analytics path it is then the
    larger of four times that value and 200.  With pressure active and a
    base limit of 1000 the limit on an admin path is 2000. *)
Theorem C1_effective_max :
  forall (options : Limiter.StabilityOptions) (req : Request)
         (memoryMonitor : Limiter.MemoryMonitor),
    let base := Js.or_default (Limiter.s_max options) 100 in
    (exists m : Z,
        (if Limiter.isUnderPressure memoryMonitor
         then 2 * m <= base < 2 * m + 2
         else m = base)
        /\ Limiter.stabilityMax options req memoryMonitor
           = if Limiter.isAdminPath (req_path req)
             then Z.max (4 * m) 200
             else m)
    /\ Limiter.stabilityMax (Sample.stability 1000)
         (Sample.anonymous "/api/admin/users") Sample.pressure = 2000.
Proof.
  intros options req memoryMonitor base. split; [| reflexivity].
  unfold Limiter.stabilityMax. fold base.
  destruct (Limiter.isUnderPressure memoryMonitor).
  - exists (Js.floor_half base). split; [apply floor_half_bounds |].
    destruct (Limiter.isAdminPath (req_path req)); [f_equal; lia | reflexivity].
  - exists base. split; [reflexivity |].
    destruct (Limiter.isAdminPath (req_path req)); [f_equal; lia | reflexivity].
Qed.

(** C1 (as stated) fails where the base limit is odd: for the deployed
    [auth] limiter (base 15) under pressure the code yields 7, not 7.5;
    on an admin path with base 151 it yields 300, not 302. *)
Lemma C1_halving_rounds_down :
  Limiter.stabilityMax Limiter.rateLimiters_auth
    (Sample.anonymous "/api/auth/login") Sample.pressure = 7
  /\ ~ (inject_Z (Limiter.stabilityMax Limiter.rateLimiters_auth
                    (Sample.anonymous "/api/auth/login") Sample.pressure)
        == Spec.effectiveMax 15 true false)%Q
  /\ Limiter.stabilityMax (Sample.stability 151)
       (Sample.anonymous "/api/admin/users") Sample.pressure = 300
  /\ (Spec.effectiveMax 151 true true == 302)%Q.
Proof.
  repeat split; try reflexivity.
  vm_compute. discriminate.
Qed.

(** ** Fixed windows of [createAnalyticsLimiter] *)

Section AnalyticsWindow.
Variable options : Limiter.AnalyticsOptions.

Local Abbreviation limiter := (Limiter.createAnalyticsLimiter options).
Local Abbreviation rejected := (Respond 429 (Limiter.analyticsBody options)).
Local Abbreviation outcomes_from :=
  (Aux.outcomes_from (Limiter.a_max options) rejected).

Lemma analytics_rateLimit now req store analytics :
  Limiter.rateLimit limiter now req (store, analytics)
  = let hs := Limiter.increment (Limiter.a_windowMs options) now (req_ip req) store in
    if Limiter.a_max options <? fst hs
    then (rejected,
          (snd hs, Aux.logged now req true (Aux.logged now req false analytics)))
    else (Next, (snd hs, Aux.logged now req false analytics)).
Proof.
  unfold Limiter.rateLimit. cbn.
  destruct (Limiter.increment _ _ _ _) as [totalHits store1]. cbn.
  destruct (Limiter.a_max options <? totalHits); reflexivity.
Qed.

Lemma increment_in_window wms now key store w :
  store !! key = Some w ->
  now - Limiter.windowStart w < wms ->
  Limiter.increment wms now key store
  = (Limiter.hits w + 1,
     <[key := {| Limiter.windowStart := Limiter.windowStart w;
                 Limiter.hits := Limiter.hits w + 1 |}]> store).
Proof.
  intros Hw Hlt. unfold Limiter.increment. rewrite Hw.
  destruct (Z.leb_spec wms (now - Limiter.windowStart w)); [lia | reflexivity].
Qed.

Lemma increment_opens wms now key (store : gmap string Limiter.Window) :
  Aux.opens_window wms now key store ->
  Limiter.increment wms now key store
  = (1, <[key := {| Limiter.windowStart := now; Limiter.hits := 1 |}]> store).
Proof.
  unfold Aux.opens_window, Limiter.increment. intros H.
  destruct (store !! key) as [w |]; [| reflexivity].
  destruct (Z.leb_spec wms (now - Limiter.windowStart w)); [reflexivity | lia].
Qed.

Lemma serve_in_window ip ws reqs : forall h store analytics,
  store !! ip = Some {| Limiter.windowStart := ws; Limiter.hits := h |} ->
  Forall (fun tr => req_ip (snd tr) = ip
                    /\ fst tr - ws < Limiter.a_windowMs options) reqs ->
  fst (Limiter.serve limiter reqs (store, analytics))
  = outcomes_from h (length reqs).
Proof.
  induction reqs as [| [now req] reqs IH]; intros h store analytics Hw Hall.
  - reflexivity.
  - inversion Hall as [| ? ? Hhd Hrest]; subst.
    destruct Hhd as [Hip Hlt]. cbn in Hlt, Hip. subst ip.
    cbn [Limiter.serve length Aux.outcomes_from].
    rewrite analytics_rateLimit.
    rewrite (increment_in_window _ _ _ _ _ Hw) by exact Hlt.
    cbn [fst snd Limiter.hits Limiter.windowStart].
    destruct (Limiter.a_max options <? h + 1);
      match goal with
      | |- context [Limiter.serve _ reqs ?st] =>
          destruct (Limiter.serve limiter reqs st) as [outs st2] eqn:E
      end;
      cbn; f_equal;
      change outs with (fst (outs, st2)); rewrite <- E;
      (apply IH; [apply lookup_insert_eq | exact Hrest]).
Qed.

Lemma outcomes_from_over n : forall h,
  Limiter.a_max options <= h ->
  outcomes_from h n = repeat rejected n.
Proof.
  induction n as [| n IH]; intros h Hh; [reflexivity |].
  cbn [Aux.outcomes_from repeat].
  destruct (Z.ltb_spec (Limiter.a_max options) (h + 1)); [| lia].
  f_equal. apply IH. lia.
Qed.

Lemma outcomes_from_split n : forall h,
  0 <= h <= Limiter.a_max options ->
  outcomes_from h n
  = repeat Next (Nat.min n (Z.to_nat (Limiter.a_max options - h)))
    ++ repeat rejected (n - Z.to_nat (Limiter.a_max options - h)).
Proof.
  induction n as [| n IH]; intros h Hh; [reflexivity |].
  cbn [Aux.outcomes_from].
  destruct (Z.ltb_spec (Limiter.a_max options) (h + 1)) as [Hlt | Hge].
  - assert (Limiter.a_max options - h = 0) as -> by lia.
    cbn [Z.to_nat]. rewrite Nat.min_0_r, Nat.sub_0_r. cbn [repeat app].
    f_equal. apply outcomes_from_over. lia.
  - rewrite IH by lia.
    replace (Z.to_nat (Limiter.a_max options - h))
      with (S (Z.to_nat (Limiter.a_max options - (h + 1)))) by lia.
    cbn [Nat.min Nat.sub repeat app]. reflexivity.
Qed.

(** A burst of requests of one client that opens a window at [t0] and
    stays within it. *)
Lemma serve_burst ip t0 r0 rest store analytics :
  Aux.opens_window (Limiter.a_windowMs options) t0 ip store ->
  req_ip r0 = ip ->
  Forall (fun tr => req_ip (snd tr) = ip
                    /\ fst tr - t0 < Limiter.a_windowMs options) rest ->
  0 <= Limiter.a_max options ->
  fst (Limiter.serve limiter ((t0, r0) :: rest) (store, analytics))
  = repeat Next (Nat.min (S (length rest)) (Z.to_nat (Limiter.a_max options)))
    ++ repeat rejected (S (length rest) - Z.to_nat (Limiter.a_max options)).
Proof.
  intros Hopen Hip Hrest Hmax.
  rewrite <- (Z.sub_0_r (Limiter.a_max options)).
  rewrite <- (outcomes_from_split (S (length rest)) 0) by lia.
  cbn [Limiter.serve Aux.outcomes_from].
  rewrite analytics_rateLimit. subst ip.
  rewrite (increment_opens _ _ _ _ Hopen).
  cbn [fst snd]. change (0 + 1) with 1.
  destruct (Limiter.a_max options <? 1);
    match goal with
    | |- context [Limiter.serve _ rest ?st] =>
        destruct (Limiter.serve limiter rest st) as [outs st2] eqn:E
    end;
    cbn; f_equal;
    change outs with (fst (outs, st2)); rewrite <- E;
    (apply (serve_in_window (req_ip r0) t0);
     [apply lookup_insert_eq | exact Hrest]).
Qed.
End AnalyticsWindow.

(** ** The role exemption of [createSmartLimiter] *)

Section SmartLimiter.
Variable jwt_verify : string -> Limiter.Throws Limiter.Decoded.
Variable options : Limiter.SmartOptions.

Local Abbreviation limiter := (Limiter.createSmartLimiter jwt_verify options).

Lemma bearer_prefix token :
  Js.startsWith ("Bearer " +:+ token) "Bearer " = true.
Proof. cbn. destruct token; reflexivity. Qed.

Lemma bearer_token token : Js.substring 7 ("Bearer " +:+ token) = token.
Proof. reflexivity. Qed.

Lemma eqb_empty_false s : s <> "" -> String.eqb s "" = false.
Proof. intros H. apply String.eqb_neq. exact H. Qed.

Lemma privileged_skip req :
  Aux.privileged jwt_verify req -> Limiter.smartSkip jwt_verify req = true.
Proof.
  intros (token & decoded & Hauth & Htok & Hver & Hrole).
  unfold Limiter.smartSkip, Limiter.smartSkipBody. rewrite Hauth.
  rewrite bearer_prefix, bearer_token. cbn [negb orb].
  rewrite (eqb_empty_false token Htok).
  replace (String.eqb ("Bearer " +:+ token) "") with false by reflexivity.
  cbn [orb]. rewrite Hver. cbn [Limiter.bind].
  destruct Hrole as [-> | ->]; reflexivity.
Qed.

Lemma unverified_skip req :
  Aux.unverified jwt_verify req -> Limiter.smartSkip jwt_verify req = false.
Proof.
  unfold Aux.unverified, Limiter.smartSkip, Limiter.smartSkipBody.
  destruct (req_authorization req) as [authHeader |]; [| reflexivity].
  intros [Hpre | [Htok | Hthrow]].
  - rewrite Hpre. cbn [negb]. rewrite orb_true_r. reflexivity.
  - rewrite Htok.
    destruct (String.eqb authHeader "" || negb (Js.startsWith authHeader "Bearer "));
      reflexivity.
  - rewrite Hthrow.
    destruct (String.eqb authHeader "" || negb (Js.startsWith authHeader "Bearer "));
      [reflexivity |].
    destruct (String.eqb (Js.substring 7 authHeader) ""); reflexivity.
Qed.

Lemma smart_rateLimit now req store w :
  Limiter.rateLimit limiter now req (store, w)
  = if Limiter.smartSkip jwt_verify req then (Next, (store, w))
    else
      let r := Aux.counted (Limiter.m_windowMs options) (Limiter.m_max options)
                 (Respond 429 (Limiter.smartMessage options)) now req store in
      (fst r, (snd r, w)).
Proof.
  unfold Limiter.rateLimit, Aux.counted. cbn.
  destruct (Limiter.smartSkip jwt_verify req); [reflexivity |].
  destruct (Limiter.increment _ _ _ _) as [totalHits store1]. cbn.
  destruct (Limiter.m_max options <? totalHits); reflexivity.
Qed.

Lemma serve_privileged reqs : forall st,
  Forall (fun tr => Aux.privileged jwt_verify (snd tr)) reqs ->
  Limiter.serve limiter reqs st = (repeat Next (length reqs), st).
Proof.
  induction reqs as [| [now req] reqs IH]; intros [store w] Hall;
    [reflexivity |].
  inversion Hall as [| ? ? Hhd Hrest]; subst. cbn [snd] in Hhd.
  cbn [Limiter.serve]. rewrite smart_rateLimit, (privileged_skip _ Hhd).
  rewrite (IH _ Hrest). reflexivity.
Qed.
End SmartLimiter.

(** C3.  A request whose bearer token verifies and asserts the role admin
    or moderator is skipped by a limiter of [createSmartLimiter]: it
    proceeds, the counters are left as they were, and so is any number of
    such requests in a row.  A request whose credential is absent,
    malformed or fails verification is counted like any other: the
    counter of its client goes up and the outcome is [next()] or the 429
    of the limiter, never an error of the verification. *)
Theorem C3_privileged_exempt :
  forall (jwt_verify : string -> Limiter.Throws Limiter.Decoded)
         (options : Limiter.SmartOptions),
    (forall now req st,
        Aux.privileged jwt_verify req ->
        Limiter.rateLimit (Limiter.createSmartLimiter jwt_verify options) now req st
        = (Next, st))
    /\ (forall reqs st,
        Forall (fun tr => Aux.privileged jwt_verify (snd tr)) reqs ->
        Limiter.serve (Limiter.createSmartLimiter jwt_verify options) reqs st
        = (repeat Next (length reqs), st))
    /\ (forall now req store,
        Aux.unverified jwt_verify req ->
        Limiter.smartSkip jwt_verify req = false
        /\ Limiter.rateLimit (Limiter.createSmartLimiter jwt_verify options)
             now req (store, tt)
           = (fst (Aux.counted (Limiter.m_windowMs options) (Limiter.m_max options)
                     (Respond 429 (Limiter.smartMessage options)) now req store),
              (snd (Aux.counted (Limiter.m_windowMs options) (Limiter.m_max options)
                      (Respond 429 (Limiter.smartMessage options)) now req store),
               tt))).
Proof.
  intros jwt_verify options. split; [| split].
  - intros now req [store w] Hpriv.
    rewrite smart_rateLimit, (privileged_skip _ _ Hpriv). reflexivity.
  - intros reqs st Hall. apply serve_privileged. exact Hall.
  - intros now req store Hun.
    pose proof (unverified_skip _ _ Hun) as Hskip.
    split; [exact Hskip |].
    rewrite smart_rateLimit, Hskip. reflexivity.
Qed.

(** C3 witness: an admin token, then a token that does not verify. *)
Lemma C3_privileged_exempt_witness :
  Limiter.rateLimit
    (Limiter.createSmartLimiter Sample.verify
       {| Limiter.m_windowMs := Limiter.minutes15; Limiter.m_max := 0 |})
    0 (Sample.request "1.2.3.4" "/api/projects" (Some "Bearer admin-token"))
    (∅, tt)
  = (Next, (∅, tt))
  /\ Limiter.smartSkip Sample.verify
       (Sample.request "1.2.3.4" "/api/projects" (Some "Bearer expired")) = false.
Proof.
  pose proof (C3_privileged_exempt Sample.verify
                {| Limiter.m_windowMs := Limiter.minutes15; Limiter.m_max := 0 |})
    as (Hpriv & _ & Hun).
  split.
  - apply Hpriv. exists "admin-token", {| Limiter.role := Some "admin" |}.
    repeat split; [discriminate | left; reflexivity].
  - apply (Hun 0 _ ∅). cbn. right. right. reflexivity.
Defined.

(** ** The path exemption of the limiters *)

Lemma stabilitySkip_health req :
  Limiter.stabilitySkip req = true
  <-> req_path req = "/health" \/ req_path req = "/api/health".
Proof.
  unfold Limiter.stabilitySkip. rewrite orb_true_iff, !String.eqb_eq.
  reflexivity.
Qed.

Lemma stability_rateLimit options now req store memoryMonitor :
  Limiter.rateLimit (Limiter.createStabilityRateLimit options) now req
    (store, memoryMonitor)
  = if Limiter.stabilitySkip req then (Next, (store, memoryMonitor))
    else
      let r := Aux.counted (Limiter.s_windowMs options)
                 (Limiter.stabilityMax options req memoryMonitor)
                 (Respond 429 (Limiter.stabilityMessage options req memoryMonitor))
                 now req store in
      (fst r, (snd r, memoryMonitor)).
Proof.
  unfold Limiter.rateLimit, Aux.counted. cbn.
  destruct (Limiter.stabilitySkip req); [reflexivity |].
  destruct (Limiter.increment _ _ _ _) as [totalHits store1]. cbn.
  destruct (Limiter.stabilityMax options req memoryMonitor <? totalHits);
    reflexivity.
Qed.

(** The body a limiter of [createStabilityRateLimit] rejects with: the
    window length in whole seconds as retry-after, the message and the
    system status, and neither the limit nor the window length. *)
Lemma stabilityMessage_fields options req memoryMonitor :
  field "retryAfter" (Limiter.stabilityMessage options req memoryMonitor)
  = Some (JNum (Js.ceil_div_1000 (Limiter.s_windowMs options)))
  /\ field "limit" (Limiter.stabilityMessage options req memoryMonitor) = None
  /\ field "windowMs" (Limiter.stabilityMessage options req memoryMonitor) = None.
Proof. repeat split. Qed.

(** C7 (as amended).  A limiter of [createStabilityRateLimit], whatever
    its route class, exempts a request exactly when its path is [/health]
    or [/api/health]: such a request proceeds and no counter changes.
    Every other request is counted against the effective maximum, and
    [createAnalyticsLimiter] exempts no request at all. *)
Theorem C7_health_exempt :
  forall (options : Limiter.StabilityOptions) (now : Z) (req : Request)
         (store : gmap string Limiter.Window)
         (memoryMonitor : Limiter.MemoryMonitor),
    (Limiter.stabilitySkip req = true
     <-> req_path req = "/health" \/ req_path req = "/api/health")
    /\ Limiter.rateLimit (Limiter.createStabilityRateLimit options) now req
         (store, memoryMonitor)
       = (if Limiter.stabilitySkip req then (Next, (store, memoryMonitor))
          else
            (fst (Aux.counted (Limiter.s_windowMs options)
                    (Limiter.stabilityMax options req memoryMonitor)
                    (Respond 429
                       (Limiter.stabilityMessage options req memoryMonitor))
                    now req store),
             (snd (Aux.counted (Limiter.s_windowMs options)
                     (Limiter.stabilityMax options req memoryMonitor)
                     (Respond 429
                        (Limiter.stabilityMessage options req memoryMonitor))
                     now req store),
              memoryMonitor)))
    /\ (forall aoptions analytics,
          fst (Limiter.skip (Limiter.createAnalyticsLimiter aoptions)
                 now req analytics) = false).
Proof.
  intros options now req store memoryMonitor. split; [| split].
  - apply stabilitySkip_health.
  - rewrite stability_rateLimit.
    destruct (Limiter.stabilitySkip req); reflexivity.
  - reflexivity.
Qed.

(** C7 (as stated) fails for the logout path, and for the health path in
    the limiters of [createAnalyticsLimiter]: under memory pressure the
    76th logout request of a client within one window of the [api]
    limiter is rejected, and so is the fourth health check within one
    window of the [register] limiter. *)
Lemma C7_logout_is_counted :
  Spec.exemptPath "/auth/logout" = true
  /\ Limiter.stabilitySkip (Sample.anonymous "/auth/logout") = false
  /\ nth 75 (fst (Limiter.serve
                    (Limiter.createStabilityRateLimit Limiter.rateLimiters_api)
                    Sample.logouts (∅, Sample.pressure))) Next
     = Respond 429
         (Limiter.stabilityMessage Limiter.rateLimiters_api
            (Sample.anonymous "/auth/logout") Sample.pressure)
  /\ Spec.exemptPath "/health" = true
  /\ nth 3 (fst (Limiter.serve
                   (Limiter.createAnalyticsLimiter Limiter.limiters_register)
                   Sample.health_checks (∅, Analytics.empty))) Next
     = Respond 429 (Limiter.analyticsBody Limiter.limiters_register).
Proof.
  repeat split; vm_compute; reflexivity.
Qed.

(** ** Fixed windows of [createStabilityRateLimit] *)

Lemma outcomes_from_rejected limit rejected n : forall h,
  limit <= h ->
  Aux.outcomes_from limit rejected h n = repeat rejected n.
Proof.
  induction n as [| n IH]; intros h Hh; [reflexivity |].
  cbn [Aux.outcomes_from repeat].
  destruct (Z.ltb_spec limit (h + 1)); [| lia].
  f_equal. apply IH. lia.
Qed.

Lemma outcomes_from_counts limit rejected n : forall h,
  0 <= h <= limit ->
  Aux.outcomes_from limit rejected h n
  = repeat Next (Nat.min n (Z.to_nat (limit - h)))
    ++ repeat rejected (n - Z.to_nat (limit - h)).
Proof.
  induction n as [| n IH]; intros h Hh; [reflexivity |].
  cbn [Aux.outcomes_from].
  destruct (Z.ltb_spec limit (h + 1)) as [Hlt | Hge].
  - assert (limit - h = 0) as -> by lia.
    cbn [Z.to_nat]. rewrite Nat.min_0_r, Nat.sub_0_r. cbn [repeat app].
    f_equal. apply outcomes_from_rejected. lia.
  - rewrite IH by lia.
    replace (Z.to_nat (limit - h)) with (S (Z.to_nat (limit - (h + 1)))) by lia.
    cbn [Nat.min Nat.sub repeat app]. reflexivity.
Qed.

Section StabilityWindow.
Variable options : Limiter.StabilityOptions.
Variable memoryMonitor : Limiter.MemoryMonitor.
Variable req0 : Request.

Local Abbreviation limiter := (Limiter.createStabilityRateLimit options).
Local Abbreviation limit := (Limiter.stabilityMax options req0 memoryMonitor).
Local Abbreviation rejected :=
  (Respond 429 (Limiter.stabilityMessage options req0 memoryMonitor)).

(** A request of the burst: of the client [ip], within the window that
    began at [ws], not a health check, and with the effective limit of
    [req0]. *)
Local Abbreviation in_burst ip ws :=
  (fun tr : Z * Request =>
     req_ip (snd tr) = ip
     /\ fst tr - ws < Limiter.s_windowMs options
     /\ Limiter.stabilitySkip (snd tr) = false
     /\ Limiter.stabilityMax options (snd tr) memoryMonitor = limit).

Lemma stability_serve_in_window ip ws reqs : forall h store,
  store !! ip = Some {| Limiter.windowStart := ws; Limiter.hits := h |} ->
  Forall (in_burst ip ws) reqs ->
  fst (Limiter.serve limiter reqs (store, memoryMonitor))
  = Aux.outcomes_from limit rejected h (length reqs).
Proof.
  induction reqs as [| [now req] reqs IH]; intros h store Hw Hall.
  - reflexivity.
  - inversion Hall as [| ? ? Hhd Hrest]; subst.
    destruct Hhd as (Hip & Hlt & Hskip & Hmax). cbn in Hip, Hlt, Hskip, Hmax.
    subst ip.
    cbn [Limiter.serve length Aux.outcomes_from].
    rewrite stability_rateLimit, Hskip. unfold Aux.counted.
    rewrite (increment_in_window _ _ _ _ _ Hw) by exact Hlt.
    rewrite Hmax.
    cbn [fst snd Limiter.hits Limiter.windowStart].
    match goal with
    | |- context [Limiter.serve _ reqs ?st] =>
        destruct (Limiter.serve limiter reqs st) as [outs st2] eqn:E
    end.
    cbn [fst]. f_equal.
    change outs with (fst (outs, st2)). rewrite <- E.
    apply IH; [apply lookup_insert_eq | exact Hrest].
Qed.

(** A burst of requests of one client that opens a window at [t0] and
    stays within it. *)
Lemma stability_serve_burst ip t0 rest store :
  Aux.opens_window (Limiter.s_windowMs options) t0 ip store ->
  req_ip req0 = ip ->
  Limiter.stabilitySkip req0 = false ->
  Forall (in_burst ip t0) rest ->
  0 <= limit ->
  fst (Limiter.serve limiter ((t0, req0) :: rest) (store, memoryMonitor))
  = repeat Next (Nat.min (S (length rest)) (Z.to_nat limit))
    ++ repeat rejected (S (length rest) - Z.to_nat limit).
Proof.
  intros Hopen Hip Hskip Hrest Hmax.
  rewrite <- (Z.sub_0_r limit).
  rewrite <- (outcomes_from_counts limit rejected (S (length rest)) 0) by lia.
  cbn [Limiter.serve Aux.outcomes_from].
  rewrite stability_rateLimit, Hskip. unfold Aux.counted. subst ip.
  rewrite (increment_opens _ _ _ _ Hopen).
  cbn [fst snd]. change (0 + 1) with 1.
  match goal with
  | |- context [Limiter.serve _ rest ?st] =>
      destruct (Limiter.serve limiter rest st) as [outs st2] eqn:E
  end.
  cbn [fst]. f_equal.
  change outs with (fst (outs, st2)). rewrite <- E.
  apply (stability_serve_in_window (req_ip req0) t0);
    [apply lookup_insert_eq | exact Hrest].
Qed.
End StabilityWindow.

(** C2 (as amended).  Of [N] requests of one client within one fixed
    window of one route class, with [N] over the effective limit, exactly
    [effectiveLimit] are admitted and the remaining [N - effectiveLimit]
    are rejected with HTTP 429 and a body carrying the configured message
    and a retry-after equal to the whole window length in seconds,
    whatever part of the window has elapsed.

    For a limiter of [createAnalyticsLimiter] the effective limit is the
    configured limit, the seconds are rounded to the nearest, and the
    body also carries the configured limit and the window length.

    For a limiter of [createStabilityRateLimit] the effective limit is
    what its [max] callback returns, the same for every request of the
    burst (the pressure flag does not change, and the requests are all on
    admin or analytics paths or all on other paths), none of them a
    health check; the seconds are rounded up, and the body carries the
    system status and neither the limit nor the window length. *)
Theorem C2_window_burst :
  (forall (options : Limiter.AnalyticsOptions) (ip : string)
          (t0 : Z) (r0 : Request) (rest : list (Z * Request))
          (store : gmap string Limiter.Window) (analytics : Analytics.Store),
      Aux.opens_window (Limiter.a_windowMs options) t0 ip store ->
      req_ip r0 = ip ->
      Forall (fun tr => req_ip (snd tr) = ip
                        /\ fst tr - t0 < Limiter.a_windowMs options) rest ->
      0 <= Limiter.a_max options < Z.of_nat (S (length rest)) ->
      let limit := Z.to_nat (Limiter.a_max options) in
      let body := Limiter.analyticsBody options in
      fst (Limiter.serve (Limiter.createAnalyticsLimiter options)
             ((t0, r0) :: rest) (store, analytics))
      = repeat Next limit ++ repeat (Respond 429 body) (S (length rest) - limit)
      /\ field "retryAfter" body
         = Some (JNum (Js.round_div_1000 (Limiter.a_windowMs options)))
      /\ field "message" body
         = Some (JStr (Js.or_default_str (Limiter.a_message options)
                         "Too many requests, please try again later."))
      /\ field "limit" body = Some (JNum (Limiter.a_max options))
      /\ field "windowMs" body = Some (JNum (Limiter.a_windowMs options)))
  /\ (forall (options : Limiter.StabilityOptions)
             (memoryMonitor : Limiter.MemoryMonitor) (ip : string)
             (t0 : Z) (r0 : Request) (rest : list (Z * Request))
             (store : gmap string Limiter.Window),
        Aux.opens_window (Limiter.s_windowMs options) t0 ip store ->
        req_ip r0 = ip ->
        Limiter.stabilitySkip r0 = false ->
        Forall (fun tr => req_ip (snd tr) = ip
                          /\ fst tr - t0 < Limiter.s_windowMs options
                          /\ Limiter.stabilitySkip (snd tr) = false
                          /\ Limiter.stabilityMax options (snd tr) memoryMonitor
                             = Limiter.stabilityMax options r0 memoryMonitor)
               rest ->
        0 <= Limiter.stabilityMax options r0 memoryMonitor
          < Z.of_nat (S (length rest)) ->
        let limit := Z.to_nat (Limiter.stabilityMax options r0 memoryMonitor) in
        let body := Limiter.stabilityMessage options r0 memoryMonitor in
        fst (Limiter.serve (Limiter.createStabilityRateLimit options)
               ((t0, r0) :: rest) (store, memoryMonitor))
        = repeat Next limit ++ repeat (Respond 429 body) (S (length rest) - limit)
        /\ field "retryAfter" body
           = Some (JNum (Js.ceil_div_1000 (Limiter.s_windowMs options)))
        /\ field "message" body
           = Some (JStr (Js.or_default_str (Limiter.s_message options)
                           "Too many requests, please try again later."))
        /\ field "systemStatus" body
           = Some (JStr (if Limiter.isUnderPressure memoryMonitor
                         then "under_pressure" else "healthy"))
        /\ field "limit" body = None
        /\ field "windowMs" body = None).
Proof.
  split.
  - intros options ip t0 r0 rest store analytics Hopen Hip Hrest Hmax limit body.
    split; [| repeat split].
    rewrite (serve_burst options ip t0 r0 rest store analytics Hopen Hip Hrest)
      by lia.
    subst limit body. f_equal. f_equal. lia.
  - intros options memoryMonitor ip t0 r0 rest store Hopen Hip Hskip Hrest Hmax
           limit body.
    split; [| repeat split].
    rewrite (stability_serve_burst options memoryMonitor r0 ip t0 rest store
               Hopen Hip Hskip Hrest) by lia.
    subst limit body. f_equal. f_equal. lia.
Qed.

(** C2 witness: six login attempts a minute apart through the [auth]
    limiter of [createAnalyticsLimiter] (limit 5, window 15 minutes), of
    which five are admitted; and eight through the [auth] limiter of
    [createStabilityRateLimit] under memory pressure (base 15, effective
    limit 7), of which seven are admitted. *)
Lemma C2_window_burst_witness :
  (fst (Limiter.serve (Limiter.createAnalyticsLimiter Limiter.limiters_auth)
          Sample.six_logins (∅, Analytics.empty))
   = repeat Next 5
     ++ repeat (Respond 429 (Limiter.analyticsBody Limiter.limiters_auth)) 1
   /\ field "retryAfter" (Limiter.analyticsBody Limiter.limiters_auth)
      = Some (JNum 900))
  /\ (fst (Limiter.serve
             (Limiter.createStabilityRateLimit Limiter.rateLimiters_auth)
             Sample.eight_logins (∅, Sample.pressure))
      = repeat Next 7
        ++ repeat (Respond 429
                     (Limiter.stabilityMessage Limiter.rateLimiters_auth
                        (Sample.anonymous "/api/auth/login") Sample.pressure)) 1
      /\ field "retryAfter"
           (Limiter.stabilityMessage Limiter.rateLimiters_auth
              (Sample.anonymous "/api/auth/login") Sample.pressure)
         = Some (JNum 900)).
Proof.
  destruct C2_window_burst as [Hlogging Hstability].
  pose proof (Hlogging Limiter.limiters_auth "1.2.3.4" 0
                (Sample.anonymous "/api/auth/login")
                (tl Sample.six_logins) ∅ Analytics.empty) as Ha.
  pose proof (Hstability Limiter.rateLimiters_auth Sample.pressure "1.2.3.4" 0
                (Sample.anonymous "/api/auth/login")
                (tl Sample.eight_logins) ∅) as Hs.
  cbv zeta in Ha, Hs. split.
  - destruct Ha as (Houts & Hretry & _).
    + exact I.
    + reflexivity.
    + repeat constructor; vm_compute; reflexivity.
    + vm_compute. split; [discriminate | reflexivity].
    + split; [exact Houts | exact Hretry].
  - destruct Hs as (Houts & Hretry & _).
    + exact I.
    + reflexivity.
    + reflexivity.
    + repeat constructor; vm_compute; reflexivity.
    + vm_compute. split; [discriminate | reflexivity].
    + split; [exact Houts | exact Hretry].
Defined.

(** C2 (as stated) fails on the retry-after, and for the limiters of
    [createStabilityRateLimit] on the limit and the window length too.
    The sixth login attempt through the [auth] limiter of
    [createAnalyticsLimiter] comes five minutes into the window, ten
    minutes (600 s) before it resets, and is told to retry after 900 s.
    Under memory pressure the eighth login attempt through the [auth]
    limiter of [createStabilityRateLimit] comes seven minutes into the
    window, 480 s before it resets, and is told to retry after 900 s, in
    a body that holds neither the limit nor the window length. *)
Lemma C2_retry_after_is_not_the_remaining_time :
  nth 5 (fst (Limiter.serve (Limiter.createAnalyticsLimiter Limiter.limiters_auth)
                Sample.six_logins (∅, Analytics.empty))) Next
  = Respond 429 (Limiter.analyticsBody Limiter.limiters_auth)
  /\ field "retryAfter" (Limiter.analyticsBody Limiter.limiters_auth)
     = Some (JNum 900)
  /\ Spec.secondsUntilReset 900000 0 300000 = 600
  /\ ~ Spec.rejection "Too many authentication attempts. Please try again later."
         5 900000 0 300000
         (nth 5 (fst (Limiter.serve
                        (Limiter.createAnalyticsLimiter Limiter.limiters_auth)
                        Sample.six_logins (∅, Analytics.empty))) Next)
  /\ nth 7 (fst (Limiter.serve
                   (Limiter.createStabilityRateLimit Limiter.rateLimiters_auth)
                   Sample.eight_logins (∅, Sample.pressure))) Next
     = Respond 429
         (Limiter.stabilityMessage Limiter.rateLimiters_auth
            (Sample.anonymous "/api/auth/login") Sample.pressure)
  /\ field "retryAfter"
       (Limiter.stabilityMessage Limiter.rateLimiters_auth
          (Sample.anonymous "/api/auth/login") Sample.pressure)
     = Some (JNum 900)
  /\ field "limit"
       (Limiter.stabilityMessage Limiter.rateLimiters_auth
          (Sample.anonymous "/api/auth/login") Sample.pressure) = None
  /\ field "windowMs"
       (Limiter.stabilityMessage Limiter.rateLimiters_auth
          (Sample.anonymous "/api/auth/login") Sample.pressure) = None
  /\ Spec.secondsUntilReset 900000 0 420000 = 480
  /\ (forall limit,
        ~ Spec.rejection
            "Too many authentication attempts. Please try again later."
            limit 900000 0 420000
            (nth 7 (fst (Limiter.serve
                           (Limiter.createStabilityRateLimit
                              Limiter.rateLimiters_auth)
                           Sample.eight_logins (∅, Sample.pressure))) Next)).
Proof.
  repeat split; try (vm_compute; reflexivity).
  - intros (body & Hout & Hretry & _).
    vm_compute in Hout. inversion Hout; subst body.
    vm_compute in Hretry. discriminate.
  - intros limit (body & Hout & _ & _ & Hlimit & _).
    vm_compute in Hout. inversion Hout; subst body.
    vm_compute in Hlimit. discriminate.
Qed.

(** ** The analytics store *)

Section JsLists.
Context {A : Type}.

Lemma insert_sorted_length (cmp : A -> A -> Z) x l :
  length (Js.insert_sorted cmp x l) = S (length l).
Proof.
  induction l as [| y l IH]; cbn; [reflexivity |].
  destruct (cmp x y <=? 0); cbn; [reflexivity | now rewrite IH].
Qed.

Lemma sort_length (cmp : A -> A -> Z) l : length (Js.sort cmp l) = length l.
Proof.
  induction l as [| x l IH]; cbn; [reflexivity |].
  unfold Js.sort in IH. now rewrite insert_sorted_length, IH.
Qed.

Lemma insert_sorted_Forall (P : A -> Prop) (cmp : A -> A -> Z) x l :
  P x -> Forall P l -> Forall P (Js.insert_sorted cmp x l).
Proof.
  intros Hx Hl. induction Hl as [| y l Hy Hl IH]; cbn.
  - constructor; [exact Hx | constructor].
  - destruct (cmp x y <=? 0); repeat constructor; assumption.
Qed.

Lemma sort_Forall (P : A -> Prop) (cmp : A -> A -> Z) l :
  Forall P l -> Forall P (Js.sort cmp l).
Proof.
  intros Hl. induction Hl as [| x l Hx Hl IH]; cbn; [constructor |].
  apply insert_sorted_Forall; assumption.
Qed.

Lemma filter_Forall (P : A -> Prop) (f : A -> bool) l :
  Forall P l -> Forall P (List.filter f l).
Proof.
  intros Hl. induction Hl as [| x l Hx Hl IH]; cbn; [constructor |].
  destruct (f x); [constructor |]; assumption.
Qed.
End JsLists.

Section JsMaps.
Context {V : Type}.
Implicit Types (m : Js.map V) (k : string) (v : V).

Lemma get_set_eq k v m : Js.get k (Js.set k v m) = Some v.
Proof.
  induction m as [| [k' v'] m IH]; cbn.
  - now rewrite String.eqb_refl.
  - destruct (String.eqb k k') eqn:E; cbn; rewrite ?String.eqb_refl, ?E; auto.
Qed.

Lemma get_set_ne k k' v m :
  k <> k' -> Js.get k' (Js.set k v m) = Js.get k' m.
Proof.
  intros Hne. induction m as [| [k0 v0] m IH]; cbn.
  - apply String.eqb_neq in Hne. rewrite String.eqb_sym in Hne.
    now rewrite Hne.
  - destruct (String.eqb k k0) eqn:E; cbn.
    + apply String.eqb_eq in E. subst k0.
      apply String.eqb_neq in Hne. rewrite String.eqb_sym in Hne.
      now rewrite Hne.
    + now rewrite IH.
Qed.

Lemma set_length_present k v v0 m :
  Js.get k m = Some v0 -> length (Js.set k v m) = length m.
Proof.
  induction m as [| [k' v'] m IH]; cbn; [discriminate |].
  destruct (String.eqb k k'); cbn; [reflexivity |].
  intros H. now rewrite IH.
Qed.

Lemma set_Forall (P : string * V -> Prop) k v m :
  P (k, v) -> Forall P m -> Forall P (Js.set k v m).
Proof.
  intros Hv Hm. induction Hm as [| [k' v'] m Hkv Hm IH]; cbn.
  - constructor; [exact Hv | constructor].
  - destruct (String.eqb k k'); constructor; assumption.
Qed.

Lemma get_Forall (P : V -> Prop) k v m :
  Forall (fun kv => P (snd kv)) m -> Js.get k m = Some v -> P v.
Proof.
  intros Hm. induction Hm as [| [k' v'] m Hkv Hm IH]; cbn; [discriminate |].
  destruct (String.eqb k k'); [| exact IH].
  intros [= <-]. exact Hkv.
Qed.

(** Replacing the value of a present key changes one element of the
    values, in place. *)
Lemma set_values_present k v v0 m :
  Js.get k m = Some v0 ->
  exists l1 l2,
    Js.values m = l1 ++ v0 :: l2 /\ Js.values (Js.set k v m) = l1 ++ v :: l2.
Proof.
  induction m as [| [k' v'] m IH]; cbn; [discriminate |].
  destruct (String.eqb k k').
  - intros [= ->]. exists [], (Js.values m). split; reflexivity.
  - intros H. destruct (IH H) as (l1 & l2 & H1 & H2).
    exists (v' :: l1), l2. cbn. unfold Js.values in *. cbn.
    rewrite H1, H2. split; reflexivity.
Qed.
End JsMaps.

Lemma logRequest_consistent date ms ip0 endpoint0 blocked0 userAgent0 method0 st :
  Aux.consistent st ->
  Aux.consistent
    (Analytics.logRequest date ms ip0 endpoint0 blocked0 userAgent0 method0 st).
Proof.
  intros (Hrt & Hep & Hh). unfold Aux.consistent, Analytics.logRequest.
  cbn [Analytics.realTimeStats Analytics.currentRequests
       Analytics.rt_blockedRequests Analytics.endpoints Analytics.hourlyStats].
  split; [| split].
  - destruct blocked0; lia.
  - set (endpoints1 := if negb (Js.has endpoint0 (Analytics.endpoints st))
                       then _ else _).
    assert (Forall (fun kv => (Analytics.ep_blocked (snd kv)
                               <= Analytics.total (snd kv))%nat) endpoints1)
      as H1.
    { subst endpoints1.
      destruct (negb (Js.has endpoint0 (Analytics.endpoints st))); [| exact Hep].
      apply set_Forall; [cbn; lia | exact Hep]. }
    destruct (Js.get endpoint0 endpoints1) as [stats |] eqn:E; [| exact H1].
    apply set_Forall; [| exact H1].
    pose proof (get_Forall
                  (fun s => (Analytics.ep_blocked s <= Analytics.total s)%nat)
                  _ _ _ H1 E) as Hs.
    cbn in *. destruct blocked0; lia.
  - exact Hh.
Qed.

Lemma updateHourlyStats_consistent now st :
  Aux.consistent st -> Aux.consistent (Analytics.updateHourlyStats now st).
Proof.
  intros (Hrt & Hep & Hh). unfold Aux.consistent, Analytics.updateHourlyStats.
  cbn [Analytics.realTimeStats Analytics.endpoints Analytics.hourlyStats].
  split; [exact Hrt | split; [exact Hep |]].
  apply filter_Forall. apply Forall_app. split; [exact Hh |].
  constructor; [| constructor]. cbn. apply filter_length_le.
Qed.

Lemma cleanupOldData_consistent now st :
  Aux.consistent st -> Aux.consistent (Analytics.cleanupOldData now st).
Proof.
  intros (Hrt & Hep & Hh). unfold Aux.consistent, Analytics.cleanupOldData.
  cbn. split; [lia | split; assumption].
Qed.

Lemma apply_consistent op st :
  Aux.consistent st -> Aux.consistent (Analytics.apply op st).
Proof.
  destruct op; cbn.
  - apply logRequest_consistent.
  - apply updateHourlyStats_consistent.
  - apply cleanupOldData_consistent.
Qed.

Lemma run_consistent ops : forall st,
  Aux.consistent st -> Aux.consistent (Analytics.run ops st).
Proof.
  induction ops as [| op ops IH]; intros st Hst; [exact Hst |].
  cbn. apply IH. apply apply_consistent. exact Hst.
Qed.

Lemma empty_consistent : Aux.consistent Analytics.empty.
Proof. repeat split; cbn; try lia; constructor. Qed.

Lemma getAnalytics_consistent now st :
  Aux.consistent st -> Aux.view_consistent (Analytics.getAnalytics now st).
Proof.
  intros (Hrt & Hep & Hh). unfold Aux.view_consistent, Analytics.getAnalytics.
  cbn. split; [apply filter_length_le | split; [| split; assumption]].
  unfold Js.slice0. apply Forall_take. apply sort_Forall.
  unfold Js.entries. apply Forall_map.
  eapply Forall_impl; [exact Hep |]. intros [k v] H. exact H.
Qed.

Lemma getIPAnalytics_consistent ip0 st :
  (Analytics.ipa_blockedRequests (Analytics.getIPAnalytics ip0 st)
   <= Analytics.ipa_totalRequests (Analytics.getIPAnalytics ip0 st))%nat.
Proof. cbn. apply filter_length_le. Qed.

(** C8.  In every state the analytics store reaches from the empty store,
    and in every aggregate it produces (real-time counters, per-endpoint
    stats, hourly buckets, the [getAnalytics()] summary and endpoint rows,
    per-IP analytics), the blocked count is at most the total count; each
    operation of the store keeps it so. *)
Theorem C8_blocked_within_total :
  forall (ops : list Analytics.Op) (now : Z) (ip0 : string),
    Aux.consistent (Analytics.run ops Analytics.empty)
    /\ Aux.view_consistent
         (Analytics.getAnalytics now (Analytics.run ops Analytics.empty))
    /\ (Analytics.ipa_blockedRequests
          (Analytics.getIPAnalytics ip0 (Analytics.run ops Analytics.empty))
        <= Analytics.ipa_totalRequests
             (Analytics.getIPAnalytics ip0 (Analytics.run ops Analytics.empty)))%nat
    /\ (forall op st,
          Aux.consistent st -> Aux.consistent (Analytics.apply op st)).
Proof.
  intros ops now ip0.
  pose proof (run_consistent ops _ empty_consistent) as Hst.
  split; [exact Hst | split; [| split]].
  - apply getAnalytics_consistent. exact Hst.
  - apply getIPAnalytics_consistent.
  - intros op st. apply apply_consistent.
Qed.

(** C8 witness: a blocked request logged into the empty store. *)
Lemma C8_blocked_within_total_witness :
  Aux.consistent
    (Analytics.apply
       (Analytics.LogRequest 1 1 "1.2.3.4" "/api/auth/login" true "curl/8.0" "POST")
       Analytics.empty).
Proof.
  apply (C8_blocked_within_total [] 0 "1.2.3.4").
  repeat split; cbn; try lia; constructor.
Defined.

Lemma getAnalytics_totalRequests now st :
  Analytics.totalRequests (Analytics.summary (Analytics.getAnalytics now st))
  = Nat.min 100 (length (Analytics.since (now - Analytics.hour_ms) st)).
Proof.
  cbn [Analytics.getAnalytics Analytics.summary Analytics.totalRequests].
  unfold Js.slice0. rewrite length_firstn, sort_length. reflexivity.
Qed.

(** C9: the code at the failing input.  The summary's [totalRequests] is
    the number of records of the trailing hour cut off at 100, because the
    metrics are computed after [slice(0, 100)]; with 101 records logged in
    the trailing hour it reports 100. *)
Theorem C9_total_capped_at_100 :
  (forall now st,
      Analytics.totalRequests (Analytics.summary (Analytics.getAnalytics now st))
      = Nat.min 100 (length (Analytics.since (now - Analytics.hour_ms) st)))
  /\ length (Analytics.since (200 - Analytics.hour_ms)
               (Analytics.run (Sample.burst 101) Analytics.empty)) = 101%nat
  /\ Analytics.totalRequests
       (Analytics.summary
          (Analytics.getAnalytics 200
             (Analytics.run (Sample.burst 101) Analytics.empty))) = 100%nat
  /\ Analytics.hb_requests
       (List.last
          (Analytics.hourlyStats
             (Analytics.updateHourlyStats 200
                (Analytics.run (Sample.burst 101) Analytics.empty)))
          {| Analytics.hb_timestamp := 0; Analytics.hb_requests := 0;
             Analytics.hb_blocked := 0; Analytics.hb_activeIPs := 0 |})
     = 101%nat.
Proof.
  split; [exact getAnalytics_totalRequests |].
  repeat split; vm_compute; reflexivity.
Qed.

(** ** Records that share a key *)

Lemma filter_length_replace {A : Type} (f : A -> bool) l1 l2 x y :
  f x = f y ->
  length (List.filter f (l1 ++ x :: l2)) = length (List.filter f (l1 ++ y :: l2)).
Proof.
  intros Hxy. rewrite !List.filter_app, !List.length_app. cbn.
  rewrite Hxy. destruct (f y); reflexivity.
Qed.

Lemma logRequest_requests date ms ip0 endpoint0 blocked0 userAgent0 method0 st :
  Analytics.requests
    (Analytics.logRequest date ms ip0 endpoint0 blocked0 userAgent0 method0 st)
  = Js.set (Analytics.record_key ip0 ms)
      {| Analytics.ip := ip0; Analytics.endpoint := endpoint0;
         Analytics.blocked := blocked0; Analytics.userAgent := userAgent0;
         Analytics.method := method0; Analytics.timestamp := date |}
      (Analytics.requests st).
Proof. reflexivity. Qed.

Lemma logRequest_endpoint_total date ms ip0 endpoint0 blocked0 userAgent0 method0 st :
  Aux.endpoint_total endpoint0
    (Analytics.logRequest date ms ip0 endpoint0 blocked0 userAgent0 method0 st)
  = S (Aux.endpoint_total endpoint0 st).
Proof.
  unfold Aux.endpoint_total, Analytics.logRequest.
  cbn [Analytics.endpoints]. unfold Js.has.
  destruct (Js.get endpoint0 (Analytics.endpoints st)) as [stats |] eqn:E;
    cbn [negb].
  - rewrite E, get_set_eq. reflexivity.
  - rewrite get_set_eq, get_set_eq. reflexivity.
Qed.

Lemma getIPAnalytics_total ip0 st :
  Analytics.ipa_totalRequests (Analytics.getIPAnalytics ip0 st)
  = length (List.filter (fun r => String.eqb (Analytics.ip r) ip0)
                        (Js.values (Analytics.requests st))).
Proof. cbn. apply sort_length. Qed.

(** C10.  Two [logRequest] calls for one client within one millisecond
    share the key of the raw record: the second call replaces the record
    of the first (the map does not grow and holds the second record under
    the key), while the real-time counter, the client's entry in the top-IP
    table and the endpoint counter count both calls; [getIPAnalytics]
    reports as many requests for the client after the second call as after
    the first, and after two such calls on the empty store it reports one
    request for two calls. *)
Theorem C10_same_millisecond_overwrites :
  forall (st : Analytics.Store) (date1 date2 ms : Z)
         (ip0 endpoint0 userAgent1 userAgent2 method1 method2 : string)
         (blocked1 blocked2 : bool),
    let st1 := Analytics.logRequest date1 ms ip0 endpoint0 blocked1
                 userAgent1 method1 st in
    let st2 := Analytics.logRequest date2 ms ip0 endpoint0 blocked2
                 userAgent2 method2 st1 in
    Js.get (Analytics.record_key ip0 ms) (Analytics.requests st2)
    = Some {| Analytics.ip := ip0; Analytics.endpoint := endpoint0;
              Analytics.blocked := blocked2; Analytics.userAgent := userAgent2;
              Analytics.method := method2; Analytics.timestamp := date2 |}
    /\ Js.size (Analytics.requests st2) = Js.size (Analytics.requests st1)
    /\ Analytics.currentRequests (Analytics.realTimeStats st2)
       = (Analytics.currentRequests (Analytics.realTimeStats st) + 2)%nat
    /\ Analytics.count_of ip0 (Analytics.topIPs (Analytics.realTimeStats st2))
       = (Analytics.count_of ip0 (Analytics.topIPs (Analytics.realTimeStats st)) + 2)%nat
    /\ Aux.endpoint_total endpoint0 st2
       = (Aux.endpoint_total endpoint0 st + 2)%nat
    /\ Analytics.ipa_totalRequests (Analytics.getIPAnalytics ip0 st2)
       = Analytics.ipa_totalRequests (Analytics.getIPAnalytics ip0 st1)
    /\ (Analytics.ipa_totalRequests
          (Analytics.getIPAnalytics "1.2.3.4"
             (Analytics.run Sample.same_millisecond Analytics.empty))
        < length Sample.same_millisecond)%nat.
Proof.
  intros st date1 date2 ms ip0 endpoint0 userAgent1 userAgent2 method1 method2
         blocked1 blocked2 st1 st2.
  assert (Js.get (Analytics.record_key ip0 ms) (Analytics.requests st1)
          = Some {| Analytics.ip := ip0; Analytics.endpoint := endpoint0;
                    Analytics.blocked := blocked1;
                    Analytics.userAgent := userAgent1;
                    Analytics.method := method1;
                    Analytics.timestamp := date1 |}) as Hfirst.
  { subst st1. rewrite logRequest_requests. apply get_set_eq. }
  split; [| split; [| split; [| split; [| split; [| split]]]]].
  - subst st2. rewrite logRequest_requests. apply get_set_eq.
  - subst st2. rewrite logRequest_requests. unfold Js.size.
    eapply set_length_present. exact Hfirst.
  - subst st2 st1. cbn. lia.
  - subst st2 st1. cbn [Analytics.logRequest Analytics.realTimeStats Analytics.topIPs].
    unfold Analytics.count_of at 1. rewrite get_set_eq.
    unfold Analytics.count_of at 1. rewrite get_set_eq. lia.
  - subst st2 st1. rewrite !logRequest_endpoint_total. lia.
  - rewrite !getIPAnalytics_total. subst st2. rewrite logRequest_requests.
    destruct (set_values_present (Analytics.record_key ip0 ms)
                {| Analytics.ip := ip0; Analytics.endpoint := endpoint0;
                   Analytics.blocked := blocked2;
                   Analytics.userAgent := userAgent2;
                   Analytics.method := method2;
                   Analytics.timestamp := date2 |} _ _ Hfirst)
      as (l1 & l2 & H1 & H2).
    rewrite H1, H2. apply filter_length_replace. reflexivity.
  - vm_compute. lia.
Qed.

(** ** The admission queue *)

Section QueueLists.
Implicit Types (q : list Queue.RequestItem) (it : Queue.RequestItem).

Lemma ids_app q1 q2 : Queue.ids (q1 ++ q2) = Queue.ids q1 ++ Queue.ids q2.
Proof. apply List.map_app. Qed.

Lemma in_ids it q : In it q -> In (Queue.item_id it) (Queue.ids q).
Proof. apply List.in_map. Qed.

Lemma splice_ids_incl id x q :
  In x (Queue.ids (Queue.splice_item id q)) -> In x (Queue.ids q).
Proof.
  induction q as [| it q IH]; cbn; [tauto |].
  destruct (Queue.item_id it =? id)%nat; cbn; tauto.
Qed.

Lemma splice_incl id it q : In it (Queue.splice_item id q) -> In it q.
Proof.
  induction q as [| it0 q IH]; cbn; [tauto |].
  destruct (Queue.item_id it0 =? id)%nat; cbn; tauto.
Qed.

Lemma splice_keeps id it q :
  In it q -> Queue.item_id it <> id -> In it (Queue.splice_item id q).
Proof.
  intros Hin Hne. induction q as [| it0 q IH]; cbn in *; [tauto |].
  destruct (Nat.eqb_spec (Queue.item_id it0) id) as [E | E].
  - destruct Hin as [-> | Hin]; [contradiction | exact Hin].
  - destruct Hin as [-> | Hin]; [left; reflexivity | right; auto].
Qed.

Lemma splice_removes id q :
  List.NoDup (Queue.ids q) -> ~ In id (Queue.ids (Queue.splice_item id q)).
Proof.
  induction q as [| it q IH]; cbn; [tauto |].
  intros Hnd. apply List.NoDup_cons_iff in Hnd as [Hnotin Hnd].
  destruct (Nat.eqb_spec (Queue.item_id it) id) as [E | E].
  - subst id. exact Hnotin.
  - cbn. intros [H | H]; [contradiction | exact (IH Hnd H)].
Qed.

Lemma splice_nodup id q :
  List.NoDup (Queue.ids q) -> List.NoDup (Queue.ids (Queue.splice_item id q)).
Proof.
  induction q as [| it q IH]; cbn; [tauto |].
  intros Hnd. apply List.NoDup_cons_iff in Hnd as [Hnotin Hnd].
  destruct (Queue.item_id it =? id)%nat; [exact Hnd |].
  cbn. apply List.NoDup_cons_iff. split; [| exact (IH Hnd)].
  intros H. apply Hnotin. eapply splice_ids_incl. exact H.
Qed.

Lemma splice_sorted id q :
  StronglySorted Queue.ahead q ->
  StronglySorted Queue.ahead (Queue.splice_item id q).
Proof.
  induction 1 as [| it q Hq IH Hall]; cbn; [constructor |].
  destruct (Queue.item_id it =? id)%nat; [exact Hq |].
  constructor; [exact IH |].
  rewrite List.Forall_forall in *. intros x Hx.
  apply Hall. eapply splice_incl. exact Hx.
Qed.

Lemma sorted_snoc q it :
  StronglySorted Queue.ahead q ->
  (forall x, In x q -> Queue.ahead x it) ->
  StronglySorted Queue.ahead (q ++ [it]).
Proof.
  induction 1 as [| it0 q Hq IH Hall]; cbn; intros Hit.
  - constructor; constructor.
  - constructor.
    + apply IH. intros x Hx. apply Hit. right. exact Hx.
    + apply Forall_app. split; [exact Hall |].
      constructor; [| constructor]. apply Hit. left. reflexivity.
Qed.

Lemma ahead_asym a b : Queue.ahead a b -> Queue.ahead b a -> False.
Proof.
  unfold Queue.ahead.
  destruct (Queue.isAdmin a), (Queue.isAdmin b); lia.
Qed.

Lemma ahead_total a b :
  Queue.item_id a <> Queue.item_id b -> Queue.ahead a b \/ Queue.ahead b a.
Proof.
  unfold Queue.ahead.
  destruct (Queue.isAdmin a), (Queue.isAdmin b); lia.
Qed.

Lemma existsb_ids id (l : list nat) :
  existsb (Nat.eqb id) l = true <-> In id l.
Proof.
  rewrite List.existsb_exists. split.
  - intros (x & Hx & E). apply Nat.eqb_eq in E. now subst.
  - intros H. exists id. split; [exact H | apply Nat.eqb_refl].
Qed.

Lemma deadline_of_disarm id id' d ts :
  Queue.deadline_of id' (Aux.disarm id ts) = Some d ->
  id' <> id /\ Queue.deadline_of id' ts = Some d.
Proof.
  induction ts as [| [i d0] ts IH]; cbn; [discriminate |].
  destruct (Nat.eqb_spec i id) as [E | E]; cbn.
  - intros H. destruct (IH H) as [Hne Hd]. split; [exact Hne |].
    destruct (Nat.eqb_spec id' i); [congruence | exact Hd].
  - destruct (Nat.eqb_spec id' i) as [E' | E'].
    + intros H. split; [congruence | exact H].
    + exact IH.
Qed.

Lemma deadline_of_snoc id i d d0 ts :
  Queue.deadline_of id (ts ++ [(i, d0)]) = Some d ->
  (exists d', Queue.deadline_of id ts = Some d') \/ id = i.
Proof.
  induction ts as [| [j dj] ts IH]; cbn.
  - destruct (Nat.eqb_spec id i); [right; assumption | discriminate].
  - destruct (Nat.eqb_spec id j); [left; eauto | exact IH].
Qed.
End QueueLists.

Section QueueSteps.
Implicit Types (s : Queue.State).

Lemma processQueue_blocked s :
  Queue.maxConcurrent s <= Queue.activeRequests s
  \/ Queue.underPressure s = true ->
  Queue.processQueue s = s.
Proof.
  intros H. unfold Queue.processQueue.
  destruct (Queue.isProcessing s || (length (Queue.queue s) =? 0)%nat);
    [reflexivity |].
  destruct (Z.leb_spec (Queue.maxConcurrent s) (Queue.activeRequests s));
    [reflexivity |].
  destruct H as [H | H]; [lia |]. rewrite H. reflexivity.
Qed.

Lemma processQueue_change s : Aux.change s (Queue.processQueue s).
Proof.
  unfold Queue.processQueue.
  destruct (Queue.isProcessing s || (length (Queue.queue s) =? 0)%nat);
    [now apply Aux.Unchanged |].
  destruct ((Queue.maxConcurrent s <=? Queue.activeRequests s)
            || Queue.underPressure s); [now apply Aux.Unchanged |].
  destruct (Queue.queue s) as [| it rest] eqn:E; [now apply Aux.Unchanged |].
  apply (Aux.Drained _ _ it); cbn; try reflexivity. exact E.
Qed.

(** A change seen from a state that differs only in fields the change
    does not speak of. *)
Lemma change_from s0 s s' :
  Queue.queue s0 = Queue.queue s ->
  Queue.timers s0 = Queue.timers s ->
  Queue.nextId s0 = Queue.nextId s ->
  Queue.effects s0 = Queue.effects s ->
  Queue.clock s0 = Queue.clock s ->
  Aux.change s0 s' -> Aux.change s s'.
Proof.
  intros Hq Ht Hn He Hc H.
  destruct H as [? ? ? ? | ? ? ? ? | it ? ? ? ? ? | it ? ? ? ? | id ? ? ? ? ?
                 | id ? ? ? ? ?];
    rewrite ?Hq, ?Ht, ?Hn, ?He, ?Hc in *.
  - now apply Aux.Unchanged.
  - now apply Aux.Passed.
  - now apply (Aux.Enqueued _ _ it).
  - now apply (Aux.Drained _ _ it).
  - now apply (Aux.TimedOut _ _ id).
  - now apply (Aux.Lapsed _ _ id).
Qed.

Lemma middleware_change req s : Aux.change s (Queue.middleware req s).
Proof.
  unfold Queue.middleware.
  destruct (Queue.bypasses (req_path req)); [now apply Aux.Passed |].
  destruct (Z.ltb_spec (Queue.activeRequests s) (Queue.maxConcurrent s))
    as [Hlt | Hge]; cbn [andb].
  - destruct (Queue.underPressure s) eqn:Hp; cbn [negb].
    + rewrite processQueue_blocked by (right; reflexivity).
      apply (Aux.Enqueued _ _
               {| Queue.item_id := Queue.nextId s; Queue.item_req := req;
                  Queue.isAdmin := Queue.isAdminRequest (req_path req) |});
        reflexivity.
    + now apply Aux.Passed.
  - rewrite processQueue_blocked by (left; cbn; lia).
    apply (Aux.Enqueued _ _
               {| Queue.item_id := Queue.nextId s; Queue.item_req := req;
                  Queue.isAdmin := Queue.isAdminRequest (req_path req) |});
        reflexivity.
Qed.

Lemma onTimeout_change id s0 s :
  Queue.queue s0 = Queue.queue s ->
  Queue.timers s0 = Aux.disarm id (Queue.timers s) ->
  Queue.nextId s0 = Queue.nextId s ->
  Queue.effects s0 = Queue.effects s ->
  Aux.change s (Queue.onTimeout id s0).
Proof.
  intros Hq Ht Hn He. unfold Queue.onTimeout.
  destruct (existsb (Nat.eqb id) (Queue.ids (Queue.queue s0))) eqn:E.
  - apply existsb_ids in E. rewrite Hq in E.
    apply (Aux.TimedOut _ _ id); cbn; congruence.
  - assert (~ In id (Queue.ids (Queue.queue s))) as Hnot.
    { rewrite <- Hq. intros H. apply existsb_ids in H. congruence. }
    now apply (Aux.Lapsed _ _ id).
Qed.

Lemma step_change e s s' : Queue.step e s = Some s' -> Aux.change s s'.
Proof.
  destruct e as [req | id | id ev | | dt | pressure]; cbn.
  - intros [= <-]. apply middleware_change.
  - destruct (Queue.deadline_of id (Queue.timers s)) as [d |];
      [| discriminate].
    destruct (d <=? Queue.clock s); [| discriminate].
    intros [= <-]. now apply onTimeout_change.
  - destruct (Queue.listener_of id (Queue.listeners s)) as [[|] |];
      intros [= <-].
    + eapply change_from; [.. | apply processQueue_change]; reflexivity.
    + now apply Aux.Unchanged.
    + now apply Aux.Unchanged.
  - destruct (Queue.immediates s) as [| n]; [discriminate |].
    intros [= <-].
    eapply change_from; [.. | apply processQueue_change]; reflexivity.
  - destruct (0 <=? dt); [| discriminate].
    intros [= <-]. now apply Aux.Unchanged.
  - intros [= <-]. now apply Aux.Unchanged.
Qed.
End QueueSteps.

Section QueueInvariant.
Implicit Types (s : Queue.State).

Lemma new_inv m : Aux.inv (Queue.new m).
Proof.
  constructor; cbn; try tauto; try discriminate; constructor.
Qed.

Lemma change_inv s s' : Aux.change s s' -> Aux.inv s -> Aux.inv s'.
Proof.
  intros Hch [Hsorted Hnodup Hfresh Hwait Hadm Harmed].
  destruct Hch as [Hq Ht Hn He | Hq Ht Hn He | it Hid Hq Ht Hn He
                   | it Hq Ht Hn He | id Hin Hq Ht Hn He | id Hnot Hq Ht Hn He].
  - (* nothing of the queue changes *)
    constructor; rewrite ?Hq, ?Ht, ?Hn, ?He; assumption.
  - (* a request passes at once *)
    constructor; rewrite ?Hq, ?Ht, ?Hn, ?He; try assumption.
    + intros id Hin. specialize (Hfresh id Hin). lia.
    + intros id Hin [E | H]; [| exact (Hwait id Hin H)].
      injection E as E. specialize (Hfresh id Hin). lia.
    + intros id [E | H]; [injection E as E; lia |].
      specialize (Hadm id H). lia.
  - (* a request joins the queue *)
    assert (~ In (Queue.item_id it) (Queue.ids (Queue.queue s))) as Hnew.
    { intros H. specialize (Hfresh _ H). lia. }
    constructor; rewrite ?Hq, ?Ht, ?Hn, ?He.
    + destruct (Queue.isAdmin it) eqn:Eadm.
      * constructor; [exact Hsorted |].
        apply List.Forall_forall. intros x Hx.
        pose proof (Hfresh _ (in_ids _ _ Hx)) as Hlt.
        unfold Queue.ahead. rewrite Eadm.
        destruct (Queue.isAdmin x); [lia | exact I].
      * apply sorted_snoc; [exact Hsorted |]. intros x Hx.
        pose proof (Hfresh _ (in_ids _ _ Hx)) as Hlt.
        unfold Queue.ahead. rewrite Eadm.
        destruct (Queue.isAdmin x); [exact I | lia].
    + destruct (Queue.isAdmin it).
      * cbn. apply List.NoDup_cons_iff. split; assumption.
      * rewrite ids_app. cbn.
        apply List.NoDup_app; [exact Hnodup | |].
        -- constructor; [cbn; tauto | constructor].
        -- intros x Hx [<- | []]. exact (Hnew Hx).
    + intros id Hin.
      assert (id = Queue.item_id it \/ In id (Queue.ids (Queue.queue s)))
        as [-> | H].
      { destruct (Queue.isAdmin it); [cbn in Hin; intuition |].
        rewrite ids_app in Hin. apply List.in_app_iff in Hin.
        cbn in Hin. intuition. }
      * lia.
      * specialize (Hfresh id H). lia.
    + intros id Hin.
      assert (id = Queue.item_id it \/ In id (Queue.ids (Queue.queue s)))
        as [-> | H].
      { destruct (Queue.isAdmin it); [cbn in Hin; intuition |].
        rewrite ids_app in Hin. apply List.in_app_iff in Hin.
        cbn in Hin. intuition. }
      * intros H. specialize (Hadm _ H). lia.
      * exact (Hwait id H).
    + intros id H. specialize (Hadm id H). lia.
    + intros id d H.
      assert (In id (Queue.ids (Queue.queue s)) \/ id = Queue.item_id it)
        as Hcase.
      { apply deadline_of_snoc in H as [[d' H] | H];
          [left; exact (Harmed id d' H) | right; congruence]. }
      destruct (Queue.isAdmin it);
        [cbn | rewrite ids_app; apply List.in_app_iff; cbn]; intuition.
  - (* the head of the queue is admitted *)
    rewrite Hq in *. cbn in Hnodup, Hfresh, Hwait, Harmed.
    apply List.NoDup_cons_iff in Hnodup as [Hhead Hnodup].
    constructor; rewrite ?Ht, ?Hn, ?He.
    + inversion Hsorted; assumption.
    + exact Hnodup.
    + intros id Hin. apply Hfresh. right. exact Hin.
    + intros id Hin [E | H].
      * injection E as E. subst id. exact (Hhead Hin).
      * exact (Hwait id (or_intror Hin) H).
    + intros id [E | H]; [injection E as E; subst id | exact (Hadm id H)].
      apply Hfresh. left. reflexivity.
    + intros id d H. apply deadline_of_disarm in H as [Hne H].
      destruct (Harmed id d H) as [E | Hin]; [congruence | exact Hin].
  - (* a queued request times out *)
    constructor; rewrite ?Hq, ?Ht, ?Hn, ?He.
    + apply splice_sorted. exact Hsorted.
    + apply splice_nodup. exact Hnodup.
    + intros x Hx. apply Hfresh. eapply splice_ids_incl. exact Hx.
    + intros x Hx [E | H]; [discriminate |].
      exact (Hwait x (splice_ids_incl _ _ _ Hx) H).
    + intros x [E | H]; [discriminate | exact (Hadm x H)].
    + intros x d H. apply deadline_of_disarm in H as [Hne H].
      pose proof (Harmed x d H) as Hx.
      apply List.in_map_iff in Hx as (it & <- & Hit).
      apply in_ids. apply splice_keeps; assumption.
  - (* a timeout finds its request gone *)
    constructor; rewrite ?Hq, ?Ht, ?Hn, ?He; try assumption.
    intros x d H. apply deadline_of_disarm in H as [Hne H].
    exact (Harmed x d H).
Qed.

Lemma run_inv es : forall s s',
  Aux.inv s -> Queue.run es s = Some s' -> Aux.inv s'.
Proof.
  induction es as [| e es IH]; cbn; intros s s' Hinv.
  - intros [= <-]. exact Hinv.
  - destruct (Queue.step e s) as [s1 |] eqn:E; [| discriminate].
    apply IH. eapply change_inv; [eapply step_change; exact E | exact Hinv].
Qed.

(** A request that has left the queue does not come back. *)
Lemma change_gone id s s' : Aux.change s s' -> Aux.gone id s -> Aux.gone id s'.
Proof.
  intros Hch [Hlt Hq0]. unfold Aux.gone.
  destruct Hch as [Hq Ht Hn He | Hq Ht Hn He | it Hid Hq Ht Hn He
                   | it Hq Ht Hn He | id' Hin Hq Ht Hn He | id' Hnot Hq Ht Hn He];
    rewrite ?Hn.
  - rewrite Hq. split; [lia | exact Hq0].
  - rewrite Hq. split; [lia | exact Hq0].
  - split; [lia |]. rewrite Hq. intros H. apply Hq0.
    destruct (Queue.isAdmin it).
    + cbn in H. destruct H as [H | H]; [lia | exact H].
    + rewrite ids_app in H. apply List.in_app_iff in H.
      cbn in H. destruct H as [H | [H | []]]; [exact H | lia].
  - split; [lia |]. intros H. apply Hq0. rewrite Hq. right. exact H.
  - split; [lia |]. rewrite Hq. intros H. apply Hq0.
    eapply splice_ids_incl. exact H.
  - rewrite Hq. split; [lia | exact Hq0].
Qed.

(** A request that left the queue without being admitted is never
    admitted. *)
Lemma change_out id s s' : Aux.change s s' -> Aux.out id s -> Aux.out id s'.
Proof.
  intros Hch (Hlt & Hq0 & He0).
  destruct (change_gone id s s' Hch (conj Hlt Hq0)) as [Hlt' Hq'].
  split; [exact Hlt' | split; [exact Hq' |]].
  destruct Hch as [Hq Ht Hn He | Hq Ht Hn He | it Hid Hq Ht Hn He
                   | it Hq Ht Hn He | id' Hin Hq Ht Hn He | id' Hnot Hq Ht Hn He];
    rewrite He; try exact He0.
  - intros [E | H]; [injection E as E; lia | exact (He0 H)].
  - intros [E | H]; [| exact (He0 H)].
    injection E as E. apply Hq0. rewrite Hq. left. exact E.
  - intros [E | H]; [discriminate | exact (He0 H)].
Qed.

Lemma run_gone id es : forall s s',
  Queue.run es s = Some s' -> Aux.gone id s -> Aux.gone id s'.
Proof.
  induction es as [| e es IH]; cbn; intros s s'.
  - intros [= <-]. tauto.
  - destruct (Queue.step e s) as [s1 |] eqn:E; [| discriminate].
    intros Hrun Hg. apply (IH s1 s' Hrun).
    eapply change_gone; [eapply step_change; exact E | exact Hg].
Qed.

Lemma run_out id es : forall s s',
  Queue.run es s = Some s' -> Aux.out id s -> Aux.out id s'.
Proof.
  induction es as [| e es IH]; cbn; intros s s'.
  - intros [= <-]. tauto.
  - destruct (Queue.step e s) as [s1 |] eqn:E; [| discriminate].
    intros Hrun Hg. apply (IH s1 s' Hrun).
    eapply change_out; [eapply step_change; exact E | exact Hg].
Qed.

(** Of two queued items, the one behind does not overtake. *)
Lemma change_pair x y s s' :
  Aux.inv s -> Aux.change s s' ->
  In x (Queue.queue s) -> In y (Queue.queue s) -> Queue.ahead x y ->
  (In x (Queue.queue s') /\ In y (Queue.queue s'))
  \/ Aux.gone (Queue.item_id x) s'
  \/ Aux.out (Queue.item_id y) s'.
Proof.
  intros [Hsorted Hnodup Hfresh Hwait Hadm Harmed] Hch Hx Hy Hxy.
  pose proof (Hfresh _ (in_ids _ _ Hx)) as Hxlt.
  pose proof (Hfresh _ (in_ids _ _ Hy)) as Hylt.
  destruct Hch as [Hq Ht Hn He | Hq Ht Hn He | it Hid Hq Ht Hn He
                   | it Hq Ht Hn He | id Hin Hq Ht Hn He | id Hnot Hq Ht Hn He].
  - left. rewrite Hq. tauto.
  - left. rewrite Hq. tauto.
  - left. rewrite Hq. destruct (Queue.isAdmin it).
    + cbn. tauto.
    + rewrite !List.in_app_iff. tauto.
  - (* the head is admitted: it is not [y], for [x] is ahead of [y] *)
    rewrite Hq in *. cbn in Hnodup.
    apply List.NoDup_cons_iff in Hnodup as [Hhead Hnodup].
    destruct Hx as [-> | Hx].
    + right. left. split; [lia | exact Hhead].
    + destruct Hy as [-> | Hy].
      * exfalso. inversion Hsorted as [| ? ? ? Hall]; subst.
        rewrite List.Forall_forall in Hall.
        exact (ahead_asym _ _ Hxy (Hall x Hx)).
      * left. tauto.
  - (* a timeout *)
    destruct (Nat.eq_dec (Queue.item_id x) id) as [Ex | Ex].
    + right. left. split; [lia |]. rewrite Hq, Ex.
      apply splice_removes. exact Hnodup.
    + destruct (Nat.eq_dec (Queue.item_id y) id) as [Ey | Ey].
      * right. right. split; [lia | split].
        -- rewrite Hq, Ey. apply splice_removes. exact Hnodup.
        -- rewrite He. intros [E | H]; [discriminate |].
           exact (Hwait _ (in_ids _ _ Hy) H).
      * left. rewrite Hq. split; apply splice_keeps; assumption.
  - left. rewrite Hq. tauto.
Qed.

Lemma run_pair x y es : forall s s',
  Aux.inv s -> Queue.run es s = Some s' ->
  In x (Queue.queue s) -> In y (Queue.queue s) -> Queue.ahead x y ->
  In (Queue.Entered (Queue.item_id y)) (Queue.effects s') ->
  ~ In (Queue.item_id x) (Queue.ids (Queue.queue s')).
Proof.
  induction es as [| e es IH]; cbn; intros s s' Hinv.
  - intros [= <-] Hx Hy Hxy Hadm. exfalso.
    exact (Aux.inv_waiting _ Hinv _ (in_ids _ _ Hy) Hadm).
  - destruct (Queue.step e s) as [s1 |] eqn:E; [| discriminate].
    intros Hrun Hx Hy Hxy Hadm.
    pose proof (step_change _ _ _ E) as Hch.
    destruct (change_pair x y s s1 Hinv Hch Hx Hy Hxy)
      as [[Hx1 Hy1] | [Hgone | Hout]].
    + apply (IH s1 s' (change_inv _ _ Hch Hinv) Hrun Hx1 Hy1 Hxy Hadm).
    + exact (proj2 (run_gone _ _ _ _ Hrun Hgone)).
    + exfalso. exact (proj2 (proj2 (run_out _ _ _ _ Hrun Hout)) Hadm).
Qed.
End QueueInvariant.

Lemma same_id_same_item q x y :
  List.NoDup (Queue.ids q) -> In x q -> In y q ->
  Queue.item_id x = Queue.item_id y -> x = y.
Proof.
  induction q as [| it q IH]; cbn; [tauto |].
  intros Hnd Hx Hy E. apply List.NoDup_cons_iff in Hnd as [Hhead Hnd].
  destruct Hx as [-> | Hx], Hy as [-> | Hy]; auto.
  - exfalso. apply Hhead. rewrite E. apply in_ids. exact Hy.
  - exfalso. apply Hhead. rewrite <- E. apply in_ids. exact Hx.
Qed.

(** What the middleware does with an arriving request.  A request for a
    health-check or logout path passes without touching the queue or the
    active count.  Any other request is admitted at once, with the active
    count incremented, when the active count is below the maximum
    concurrency (30 for the deployed queue) and memory is not under
    pressure; otherwise it is enqueued, at the head when its path holds
    [/admin] or [/analytics] and at the tail when not, with a timeout
    armed.  Each event (finish, close, error) an admitted response emits
    runs the cleanup: the active count goes down by one and a drain is
    triggered, at once for a request admitted on arrival, through
    [setImmediate] for one admitted from the queue. *)
Lemma middleware_admission :
  forall (s : Queue.State) (req : Request),
    let id := Queue.nextId s in
    let item := {| Queue.item_id := id; Queue.item_req := req;
                   Queue.isAdmin := Queue.isAdminRequest (req_path req) |} in
    let s' := Queue.middleware req s in
    Queue.maxConcurrent Queue.requestQueue = 30
    /\ (Queue.bypasses (req_path req) = true ->
        Queue.effects s' = Queue.Entered id :: Queue.effects s
        /\ Queue.queue s' = Queue.queue s
        /\ Queue.activeRequests s' = Queue.activeRequests s
        /\ Queue.listeners s' = Queue.listeners s)
    /\ (Queue.bypasses (req_path req) = false ->
        Queue.activeRequests s < Queue.maxConcurrent s ->
        Queue.underPressure s = false ->
        Queue.effects s' = Queue.Entered id :: Queue.effects s
        /\ Queue.activeRequests s' = Queue.activeRequests s + 1
        /\ Queue.queue s' = Queue.queue s
        /\ forall ev,
             Queue.step (Queue.Emit id ev) s'
             = Some (Queue.processQueue (Aux.released s')))
    /\ (Queue.bypasses (req_path req) = false ->
        Queue.maxConcurrent s <= Queue.activeRequests s
        \/ Queue.underPressure s = true ->
        Queue.effects s' = Queue.effects s
        /\ Queue.activeRequests s' = Queue.activeRequests s
        /\ Queue.queue s'
           = (if Queue.isAdminRequest (req_path req)
              then item :: Queue.queue s
              else Queue.queue s ++ [item])
        /\ Queue.timers s'
           = Queue.timers s ++ [(id, Queue.clock s + 10000)])
    /\ (forall id0 ev,
          Queue.listener_of id0 (Queue.listeners s) = Some Queue.CleanupDrained ->
          exists s1,
            Queue.step (Queue.Emit id0 ev) s = Some s1
            /\ Queue.activeRequests s1 = Queue.activeRequests s - 1
            /\ Queue.immediates s1 = S (Queue.immediates s)
            /\ Queue.isProcessing s1 = false
            /\ Queue.queue s1 = Queue.queue s
            /\ exists s2,
                 Queue.step Queue.RunImmediate s1 = Some (Queue.processQueue s2)
                 /\ Queue.activeRequests s2 = Queue.activeRequests s1
                 /\ Queue.isProcessing s2 = false
                 /\ Queue.queue s2 = Queue.queue s1).
Proof.
  intros s req id item s'. split; [reflexivity |].
  subst s'. unfold Queue.middleware. fold id.
  split; [| split; [| split]].
  - intros ->. repeat split.
  - intros -> Hlt Hp.
    destruct (Z.ltb_spec (Queue.activeRequests s) (Queue.maxConcurrent s));
      [| lia].
    rewrite Hp. cbn [andb negb].
    repeat split. intros ev. cbn. rewrite Nat.eqb_refl. reflexivity.
  - intros -> Hfull.
    assert ((Queue.activeRequests s <? Queue.maxConcurrent s)
            && negb (Queue.underPressure s) = false) as ->.
    { destruct Hfull as [Hge | Hp].
      - destruct (Z.ltb_spec (Queue.activeRequests s) (Queue.maxConcurrent s));
          [lia | reflexivity].
      - rewrite Hp. apply andb_false_r. }
    rewrite processQueue_blocked by exact Hfull.
    repeat split.
  - intros id0 ev Hl. cbn. rewrite Hl. eexists. split; [reflexivity |].
    cbn. repeat split. eexists. split; [reflexivity |]. repeat split.
Qed.

(** C4: the code at the failing input.  The cleanup is registered on
    [finish], on [close] and on [error] and runs once per event, so a
    request that is admitted on arrival and then served, its response
    emitting [finish] and then [close], leaves the active count one below
    what it was before the request arrived, where one decrement would
    restore it.  On the deployed queue one served request leaves the count
    at -1, and 31 requests that arrive next are all admitted at once: 31
    requests are in flight under a maximum concurrency of 30. *)
Theorem C4_completion_decrements_twice :
  (forall (s : Queue.State) (req : Request),
      Queue.bypasses (req_path req) = false ->
      Queue.activeRequests s < Queue.maxConcurrent s ->
      Queue.underPressure s = false ->
      Queue.queue s = [] ->
      exists entered served,
        Queue.step (Queue.Arrive req) s = Some entered
        /\ Queue.activeRequests entered = Queue.activeRequests s + 1
        /\ Queue.effects entered = Queue.Entered (Queue.nextId s) :: Queue.effects s
        /\ Queue.run [Queue.Emit (Queue.nextId s) Queue.Finish;
                      Queue.Emit (Queue.nextId s) Queue.Close] entered
           = Some served
        /\ Queue.activeRequests served = Queue.activeRequests s - 1
        /\ Queue.queue served = []
        /\ Queue.effects served = Queue.effects entered)
  /\ Queue.run Sample.one_completed Queue.requestQueue
     = Some (Sample.after Sample.one_completed)
  /\ Queue.activeRequests (Sample.after Sample.one_completed) = -1
  /\ Queue.run Sample.over_cap Queue.requestQueue
     = Some (Sample.after Sample.over_cap)
  /\ Queue.maxConcurrent (Sample.after Sample.over_cap) = 30
  /\ Queue.activeRequests (Sample.after Sample.over_cap) = 30
  /\ Queue.queue (Sample.after Sample.over_cap) = []
  /\ Aux.in_flight Sample.over_cap (Sample.after Sample.over_cap)
     = rev (seq 1 31).
Proof.
  split; [| repeat apply conj; vm_compute; reflexivity].
  intros s req Hbypass Hlt Hp Hq.
  pose proof (middleware_admission s req) as (_ & _ & Hadmit & _).
  cbv zeta in Hadmit.
  destruct (Hadmit Hbypass Hlt Hp) as (Heffects & Hactive & Hqueue & _).
  assert (forall s0, Queue.queue s0 = [] -> Queue.processQueue s0 = s0) as Hidle.
  { intros s0 H0. unfold Queue.processQueue. rewrite H0. cbn.
    rewrite orb_true_r. reflexivity. }
  set (entered := Queue.middleware req s) in *.
  assert (Queue.listener_of (Queue.nextId s) (Queue.listeners entered)
          = Some Queue.CleanupDirect) as Hl.
  { subst entered. unfold Queue.middleware. rewrite Hbypass.
    destruct (Z.ltb_spec (Queue.activeRequests s) (Queue.maxConcurrent s));
      [| lia].
    rewrite Hp. cbn. rewrite Nat.eqb_refl. reflexivity. }
  exists entered. eexists.
  split; [reflexivity |].
  split; [exact Hactive |].
  split; [exact Heffects |].
  split.
  - cbn [Queue.run Queue.step]. rewrite Hl. cbn [Queue.cleanup].
    rewrite Hidle by (cbn; congruence).
    cbn [Queue.listeners]. rewrite Hl. cbn [Queue.cleanup].
    rewrite Hidle by (cbn; congruence).
    reflexivity.
  - cbn. repeat split; [lia | congruence].
Qed.

(** C4 witness: a first request to the deployed queue, served. *)
Lemma C4_completion_decrements_twice_witness :
  exists entered served,
    Queue.step (Queue.Arrive (Sample.anonymous "/api/projects")) Queue.requestQueue
    = Some entered
    /\ Queue.activeRequests entered = 1
    /\ Queue.run [Queue.Emit 0 Queue.Finish; Queue.Emit 0 Queue.Close] entered
       = Some served
    /\ Queue.activeRequests served = -1.
Proof.
  destruct C4_completion_decrements_twice as [Hgeneral _].
  destruct (Hgeneral Queue.requestQueue (Sample.anonymous "/api/projects"))
    as (entered & served & Hstep & Hactive & _ & Hrun & Hserved & _).
  - reflexivity.
  - cbn. lia.
  - reflexivity.
  - reflexivity.
  - exists entered, served.
    split; [exact Hstep |]. split; [exact Hactive |].
    split; [exact Hrun |]. exact Hserved.
Defined.

Lemma admitted_from_queue_is_head e s s1 it :
  Aux.inv s -> Queue.step e s = Some s1 ->
  In it (Queue.queue s) ->
  In (Queue.Entered (Queue.item_id it)) (Queue.effects s1) ->
  Queue.queue s = it :: Queue.queue s1.
Proof.
  intros Hinv Hstep Hit Hadm.
  pose proof (Aux.inv_waiting _ Hinv _ (in_ids _ _ Hit)) as Hnot.
  pose proof (Aux.inv_fresh _ Hinv _ (in_ids _ _ Hit)) as Hlt.
  destruct (step_change _ _ _ Hstep)
    as [Hq Ht Hn He | Hq Ht Hn He | it0 Hid Hq Ht Hn He
        | it0 Hq Ht Hn He | id Hin Hq Ht Hn He | id Hno Hq Ht Hn He];
    rewrite He in Hadm; try contradiction.
  - destruct Hadm as [E | H]; [injection E as E; lia | contradiction].
  - destruct Hadm as [E | H]; [| contradiction].
    injection E as E. rewrite Hq. f_equal.
    apply (same_id_same_item (Queue.queue s)); try assumption.
    + exact (Aux.inv_nodup _ Hinv).
    + rewrite Hq. left. reflexivity.
  - destruct Hadm as [E | H]; [discriminate | contradiction].
Qed.

(** C5 (as amended).  In every state the queue reaches, the queued items
    stand in the order [ahead]: admin and analytics items before normal
    ones, normal items in order of arrival, and admin items in reverse
    order of arrival (the latest first).  The order decides every pair of
    queued items, an item is admitted from the queue only as its head, and
    of two queued items the one behind is admitted only after the one
    ahead has left the queue. *)
Theorem C5_queue_order :
  forall (m : Z) (es : list Queue.Event) (s : Queue.State),
    Queue.run es (Queue.new m) = Some s ->
    StronglySorted Queue.ahead (Queue.queue s)
    /\ (forall x y,
          In x (Queue.queue s) -> In y (Queue.queue s) ->
          Queue.item_id x <> Queue.item_id y ->
          Queue.ahead x y \/ Queue.ahead y x)
    /\ (forall e s1 it,
          Queue.step e s = Some s1 ->
          In it (Queue.queue s) ->
          In (Queue.Entered (Queue.item_id it)) (Queue.effects s1) ->
          Queue.queue s = it :: Queue.queue s1)
    /\ (forall x y es' s',
          In x (Queue.queue s) -> In y (Queue.queue s) -> Queue.ahead x y ->
          Queue.run es' s = Some s' ->
          In (Queue.Entered (Queue.item_id y)) (Queue.effects s') ->
          ~ In (Queue.item_id x) (Queue.ids (Queue.queue s'))).
Proof.
  intros m es s Hrun.
  pose proof (run_inv es _ _ (new_inv m) Hrun) as Hinv.
  split; [exact (Aux.inv_sorted _ Hinv) | split; [| split]].
  - intros x y _ _ Hne. apply ahead_total. exact Hne.
  - intros e s1 it. apply admitted_from_queue_is_head. exact Hinv.
  - intros x y es' s' Hx Hy Hxy Hrun' Hadm.
    exact (run_pair x y es' s s' Hinv Hrun' Hx Hy Hxy Hadm).
Qed.

(** C5 witness: two admin requests queued under memory pressure. *)
Lemma C5_queue_order_witness :
  StronglySorted Queue.ahead
    (Queue.queue (Sample.after Sample.two_admins_queued)).
Proof.
  apply (C5_queue_order 30 Sample.two_admins_queued
           (Sample.after Sample.two_admins_queued)).
  vm_compute. reflexivity.
Defined.

(** C5 (as stated) fails among admin items: of two queued admin requests
    the second to arrive is admitted while the first still waits. *)
Lemma C5_admin_items_leave_in_reverse :
  Queue.queue (Sample.after Sample.two_admins_queued)
  = [Sample.second_admin; Sample.first_admin]
  /\ Spec.servedFirst Sample.first_admin Sample.second_admin
  /\ Queue.run [Queue.Emit 0 Queue.Finish] (Sample.after Sample.two_admins_queued)
     = Some (Sample.after Sample.two_admins_drained)
  /\ In (Queue.Entered (Queue.item_id Sample.second_admin))
        (Queue.effects (Sample.after Sample.two_admins_drained))
  /\ In (Queue.item_id Sample.first_admin)
        (Queue.ids (Queue.queue (Sample.after Sample.two_admins_drained))).
Proof.
  split; [vm_compute; reflexivity |].
  split; [cbn; lia |].
  split; [vm_compute; reflexivity |].
  split; vm_compute; tauto.
Qed.

(** C6.  When the timeout of a queued request fires (its deadline, ten
    seconds after it was queued, has passed and it was not admitted in
    between), the request is in the queue and has not been admitted; the
    callback removes it and answers 503 with the code [SERVER_BUSY]; and
    whatever happens afterwards, the request is never admitted. *)
Theorem C6_timeout :
  forall (m : Z) (es : list Queue.Event) (s s' : Queue.State) (id : nat),
    Queue.run es (Queue.new m) = Some s ->
    Queue.step (Queue.Fire id) s = Some s' ->
    (exists d, Queue.deadline_of id (Queue.timers s) = Some d
               /\ d <= Queue.clock s)
    /\ Queue.queue_timeout_ms = 10000
    /\ In id (Queue.ids (Queue.queue s))
    /\ ~ In (Queue.Entered id) (Queue.effects s)
    /\ ~ In id (Queue.ids (Queue.queue s'))
    /\ Queue.effects s' = Queue.Answered id 503 Queue.busyBody :: Queue.effects s
    /\ field "code" Queue.busyBody = Some (JStr "SERVER_BUSY")
    /\ (forall es' s'',
          Queue.run es' s' = Some s'' ->
          ~ In (Queue.Entered id) (Queue.effects s'')).
Proof.
  intros m es s s' id Hrun Hfire.
  pose proof (run_inv es _ _ (new_inv m) Hrun) as Hinv.
  pose proof (step_change _ _ _ Hfire) as Hch.
  cbn in Hfire.
  destruct (Queue.deadline_of id (Queue.timers s)) as [d |] eqn:Hd;
    [| discriminate].
  destruct (Z.leb_spec d (Queue.clock s)) as [Hle | Hgt]; [| discriminate].
  injection Hfire as Hs'.
  pose proof (Aux.inv_armed _ Hinv id d Hd) as Hin.
  pose proof (Aux.inv_waiting _ Hinv id Hin) as Hwait.
  assert (Queue.queue s' = Queue.splice_item id (Queue.queue s)
          /\ Queue.effects s'
             = Queue.Answered id 503 Queue.busyBody :: Queue.effects s)
    as [Hq He].
  { pose proof (proj2 (existsb_ids id _) Hin) as Hex.
    subst s'. unfold Queue.onTimeout. cbn [Queue.queue].
    rewrite Hex. split; reflexivity. }
  assert (~ In id (Queue.ids (Queue.queue s'))) as Hgone.
  { rewrite Hq. apply splice_removes. exact (Aux.inv_nodup _ Hinv). }
  split; [exists d; split; [reflexivity | exact Hle] |].
  split; [reflexivity |].
  split; [exact Hin |].
  split; [exact Hwait |].
  split; [exact Hgone |].
  split; [exact He |].
  split; [reflexivity |].
  intros es' s'' Hrun'.
  assert (Aux.out id s') as Hout.
  { split; [| split; [exact Hgone |]].
    - assert (Queue.nextId s' = Queue.nextId s) as ->.
      { subst s'. unfold Queue.onTimeout. cbn.
        destruct (existsb _ _); reflexivity. }
      exact (Aux.inv_fresh _ Hinv id Hin).
    - rewrite He. intros [E | H]; [discriminate | exact (Hwait H)]. }
  exact (proj2 (proj2 (run_out id es' s' s'' Hrun' Hout))).
Qed.

(** C6 witness: a request queued under memory pressure whose timeout
    fires after ten seconds. *)
Lemma C6_timeout_witness :
  ~ In 0%nat (Queue.ids (Queue.queue Sample.timed_out))
  /\ Queue.effects Sample.timed_out = [Queue.Answered 0 503 Queue.busyBody].
Proof.
  pose proof (C6_timeout 30 Sample.left_waiting Sample.waiting Sample.timed_out
                0%nat) as H.
  destruct H as (_ & _ & _ & _ & Hgone & Heff & _).
  - vm_compute. reflexivity.
  - vm_compute. reflexivity.
  - split; [exact Hgone | exact Heff].
Defined.

(** * Further properties *)

(** ** Aggregates of the analytics store *)

Arguments JsArray.sum_by : simpl never.

Section Sums.
Context {A : Type}.

Lemma sum_by_acc (f : A -> nat) l : forall n,
  fold_left (fun sum x => (sum + f x)%nat) l n
  = (n + JsArray.sum_by f l)%nat.
Proof.
  unfold JsArray.sum_by.
  induction l as [| x l IH]; intros n; cbn; [lia |].
  rewrite IH, (IH (f x)). lia.
Qed.

Lemma sum_by_cons (f : A -> nat) x l :
  JsArray.sum_by f (x :: l) = (f x + JsArray.sum_by f l)%nat.
Proof. unfold JsArray.sum_by at 1. cbn. apply sum_by_acc. Qed.

Lemma sum_by_app (f : A -> nat) l1 l2 :
  JsArray.sum_by f (l1 ++ l2)
  = (JsArray.sum_by f l1 + JsArray.sum_by f l2)%nat.
Proof.
  induction l1 as [| x l1 IH]; cbn; [reflexivity |].
  rewrite !sum_by_cons, IH. lia.
Qed.
End Sums.

Section MapSums.
Context {V : Type} (g : V -> nat).

(** Writing a key moves the sum of a table by the difference of the old
    and the new value. *)
Lemma set_sum k v (m : Js.map V) :
  (JsArray.sum_by (fun kv => g (snd kv)) (Js.set k v m)
   + match Js.get k m with Some v0 => g v0 | None => O end
   = JsArray.sum_by (fun kv => g (snd kv)) m + g v)%nat.
Proof.
  induction m as [| [k' v'] m IH]; cbn.
  - rewrite sum_by_cons. cbn. lia.
  - destruct (String.eqb k k'); rewrite !sum_by_cons; cbn; lia.
Qed.
End MapSums.

Lemma sum_counts_values (m : Js.map nat) :
  More.sum_counts m = JsArray.sum_by snd m.
Proof.
  unfold More.sum_counts, Js.values.
  rewrite (sum_by_acc (fun c => c) (List.map snd m) O). cbn.
  induction m as [| [k c] m IH]; cbn; [reflexivity |].
  rewrite !sum_by_cons, IH. reflexivity.
Qed.

Lemma count_set_sum k (m : Js.map nat) :
  More.sum_counts (Js.set k (Analytics.count_of k m + 1)%nat m)
  = S (More.sum_counts m).
Proof.
  rewrite !sum_counts_values.
  pose proof (set_sum (fun c : nat => c) k (Analytics.count_of k m + 1)%nat m)
    as H.
  unfold Analytics.count_of in *.
  destruct (Js.get k m) as [n |];
    [change (JsArray.sum_by snd (Js.set k (n + 1)%nat m) + n
             = JsArray.sum_by snd m + (n + 1))%nat in H
    | change (JsArray.sum_by snd (Js.set k (0 + 1)%nat m) + 0
              = JsArray.sum_by snd m + (0 + 1))%nat in H];
    lia.
Qed.

(** What one operation adds to the sums the store keeps. *)
Lemma apply_sums op st :
  JsArray.sum_by (fun kv => Analytics.total (snd kv))
    (Analytics.endpoints (Analytics.apply op st))
  = (JsArray.sum_by (fun kv => Analytics.total (snd kv)) (Analytics.endpoints st)
     + if More.is_log op then 1 else 0)%nat
  /\ JsArray.sum_by (fun kv => Analytics.ep_blocked (snd kv))
       (Analytics.endpoints (Analytics.apply op st))
     = (JsArray.sum_by (fun kv => Analytics.ep_blocked (snd kv))
          (Analytics.endpoints st)
        + if More.is_blocked_log op then 1 else 0)%nat
  /\ More.sum_counts (Analytics.violations (Analytics.apply op st))
     = (More.sum_counts (Analytics.violations st)
        + if More.is_blocked_log op then 1 else 0)%nat.
Proof.
  destruct op as [date ms ip0 endpoint0 blocked0 userAgent0 method0 | now | now];
    cbn [Analytics.apply More.is_log More.is_blocked_log];
    [| repeat split; rewrite Nat.add_0_r; reflexivity
     | repeat split; rewrite Nat.add_0_r; reflexivity].
  unfold Analytics.logRequest.
  cbn [Analytics.endpoints Analytics.violations]. unfold Js.has.
  pose proof (set_sum Analytics.total endpoint0) as Ht.
  pose proof (set_sum Analytics.ep_blocked endpoint0) as Hb.
  split; [| split].
  - destruct (Js.get endpoint0 (Analytics.endpoints st)) as [stats |] eqn:E;
      cbn [negb].
    + rewrite E.
      specialize (Ht {| Analytics.total := S (Analytics.total stats);
                        Analytics.ep_blocked :=
                          if blocked0 then S (Analytics.ep_blocked stats)
                          else Analytics.ep_blocked stats;
                        Analytics.lastAccess := date |} (Analytics.endpoints st)).
      rewrite E in Ht. cbn in Ht. lia.
    + rewrite get_set_eq.
      pose proof (Ht {| Analytics.total := 0; Analytics.ep_blocked := 0;
                        Analytics.lastAccess := date |} (Analytics.endpoints st))
        as H0.
      rewrite E in H0. cbn in H0.
      cbn [Analytics.total Analytics.ep_blocked].
      match goal with
      | |- context [Js.set endpoint0 ?v (Js.set endpoint0 ?z ?m)] =>
          pose proof (Ht v (Js.set endpoint0 z m)) as H1
      end.
      rewrite get_set_eq in H1. cbn in H1. lia.
  - destruct (Js.get endpoint0 (Analytics.endpoints st)) as [stats |] eqn:E;
      cbn [negb].
    + rewrite E.
      specialize (Hb {| Analytics.total := S (Analytics.total stats);
                        Analytics.ep_blocked :=
                          if blocked0 then S (Analytics.ep_blocked stats)
                          else Analytics.ep_blocked stats;
                        Analytics.lastAccess := date |} (Analytics.endpoints st)).
      rewrite E in Hb. cbn in Hb. destruct blocked0; lia.
    + rewrite get_set_eq.
      pose proof (Hb {| Analytics.total := 0; Analytics.ep_blocked := 0;
                        Analytics.lastAccess := date |} (Analytics.endpoints st))
        as H0.
      rewrite E in H0. cbn in H0.
      cbn [Analytics.total Analytics.ep_blocked].
      match goal with
      | |- context [Js.set endpoint0 ?v (Js.set endpoint0 ?z ?m)] =>
          pose proof (Hb v (Js.set endpoint0 z m)) as H1
      end.
      rewrite get_set_eq in H1. cbn in H1. destruct blocked0; lia.
  - destruct blocked0; [| lia]. rewrite count_set_sum. lia.
Qed.

Lemma run_snoc ops op st :
  Analytics.run (ops ++ [op]) st = Analytics.apply op (Analytics.run ops st).
Proof. unfold Analytics.run. rewrite fold_left_app. reflexivity. Qed.

Lemma filter_snoc_length {A : Type} (f : A -> bool) l x :
  length (List.filter f (l ++ [x]))
  = (length (List.filter f l) + if f x then 1 else 0)%nat.
Proof.
  rewrite List.filter_app, List.length_app. cbn. destruct (f x); reflexivity.
Qed.

(** X1.  The per-endpoint counters are never evicted or reset: after any
    history of store operations the totals of all endpoints add up to the
    number of [logRequest] calls made, and the blocked counters of all
    endpoints, the violation counters of all clients and the summary's
    [totalViolations] all add up to the number of blocked calls. *)
Theorem X1_counters_count_every_call :
  forall (ops : list Analytics.Op) (now : Z),
    let st := Analytics.run ops Analytics.empty in
    JsArray.sum_by (fun kv => Analytics.total (snd kv)) (Analytics.endpoints st)
    = length (List.filter More.is_log ops)
    /\ JsArray.sum_by (fun kv => Analytics.ep_blocked (snd kv))
         (Analytics.endpoints st)
       = length (List.filter More.is_blocked_log ops)
    /\ More.sum_counts (Analytics.violations st)
       = length (List.filter More.is_blocked_log ops)
    /\ Analytics.totalViolations
         (Analytics.summary (Analytics.getAnalytics now st))
       = length (List.filter More.is_blocked_log ops).
Proof.
  intros ops now st.
  assert (JsArray.sum_by (fun kv => Analytics.total (snd kv))
            (Analytics.endpoints st)
          = length (List.filter More.is_log ops)
          /\ JsArray.sum_by (fun kv => Analytics.ep_blocked (snd kv))
               (Analytics.endpoints st)
             = length (List.filter More.is_blocked_log ops)
          /\ More.sum_counts (Analytics.violations st)
             = length (List.filter More.is_blocked_log ops)) as H.
  { subst st. induction ops as [| op ops IH] using rev_ind.
    - repeat split.
    - rewrite run_snoc, !filter_snoc_length.
      destruct IH as (IH1 & IH2 & IH3).
      destruct (apply_sums op (Analytics.run ops Analytics.empty))
        as (H1 & H2 & H3).
      rewrite H1, H2, H3, IH1, IH2, IH3. repeat split. }
  destruct H as (H1 & H2 & H3). repeat split; assumption.
Qed.

Lemma apply_violations ip0 op st :
  Analytics.count_of ip0 (Analytics.violations (Analytics.apply op st))
  = (Analytics.count_of ip0 (Analytics.violations st)
     + if More.logs_ip ip0 op && More.is_blocked_log op then 1 else 0)%nat.
Proof.
  destruct op as [date ms ip1 endpoint0 blocked0 userAgent0 method0 | now | now];
    cbn [Analytics.apply More.logs_ip More.is_blocked_log andb];
    [| cbn; lia | cbn; lia].
  unfold Analytics.logRequest. cbn [Analytics.violations].
  destruct blocked0; [| rewrite andb_false_r; lia].
  rewrite andb_true_r. unfold Analytics.count_of at 1.
  destruct (String.eqb_spec ip1 ip0) as [-> | Hne].
  - rewrite get_set_eq. reflexivity.
  - rewrite (get_set_ne ip1 ip0) by exact Hne.
    unfold Analytics.count_of. lia.
Qed.

(** X2.  The violation counter of a client is exact and never reset: after
    any history of store operations [getIPAnalytics(ip).violations] is the
    number of blocked [logRequest] calls made for that client, whatever was
    cleaned up in between. *)
Theorem X2_violations_count_blocked_calls :
  forall (ops : list Analytics.Op) (ip0 : string),
    Analytics.ipa_violations
      (Analytics.getIPAnalytics ip0 (Analytics.run ops Analytics.empty))
    = length (List.filter
                (fun op => More.logs_ip ip0 op && More.is_blocked_log op) ops).
Proof.
  intros ops ip0. cbn [Analytics.getIPAnalytics Analytics.ipa_violations].
  induction ops as [| op ops IH] using rev_ind; [reflexivity |].
  rewrite run_snoc, apply_violations, IH, filter_snoc_length. reflexivity.
Qed.

Lemma apply_realtime op st :
  Analytics.currentRequests (Analytics.realTimeStats st)
  = More.sum_counts (Analytics.topIPs (Analytics.realTimeStats st)) ->
  Analytics.currentRequests (Analytics.realTimeStats st)
  = More.sum_counts (Analytics.topEndpoints (Analytics.realTimeStats st)) ->
  Analytics.currentRequests (Analytics.realTimeStats (Analytics.apply op st))
  = More.sum_counts
      (Analytics.topIPs (Analytics.realTimeStats (Analytics.apply op st)))
  /\ Analytics.currentRequests (Analytics.realTimeStats (Analytics.apply op st))
     = More.sum_counts
         (Analytics.topEndpoints
            (Analytics.realTimeStats (Analytics.apply op st))).
Proof.
  intros H1 H2.
  destruct op as [date ms ip1 endpoint0 blocked0 userAgent0 method0 | now | now];
    cbn [Analytics.apply].
  - unfold Analytics.logRequest.
    cbn [Analytics.realTimeStats Analytics.currentRequests Analytics.topIPs
         Analytics.topEndpoints].
    rewrite !count_set_sum, <- H1, <- H2. split; reflexivity.
  - split; assumption.
  - split; reflexivity.
Qed.

(** X3.  The real-time tables agree with the real-time counter: in every
    state the store reaches, [currentRequests] is the sum of the per-IP
    counts of [topIPs] and also the sum of the per-endpoint counts of
    [topEndpoints] (all three are reset together by [cleanupOldData]). *)
Theorem X3_realtime_tables_add_up :
  forall (ops : list Analytics.Op),
    let rt := Analytics.realTimeStats (Analytics.run ops Analytics.empty) in
    Analytics.currentRequests rt = More.sum_counts (Analytics.topIPs rt)
    /\ Analytics.currentRequests rt
       = More.sum_counts (Analytics.topEndpoints rt).
Proof.
  intros ops. cbv zeta.
  induction ops as [| op ops IH] using rev_ind; [split; reflexivity |].
  rewrite run_snoc. destruct IH as [IH1 IH2].
  apply apply_realtime; assumption.
Qed.

(** ** Eviction *)

Lemma since_cleanup now st :
  Analytics.since (now - Analytics.hour_ms) (Analytics.cleanupOldData now st)
  = Analytics.since (now - Analytics.hour_ms) st.
Proof.
  unfold Analytics.since, Analytics.cleanupOldData, Js.values.
  cbn [Analytics.requests].
  induction (Analytics.requests st) as [| [k r] m IH]; [reflexivity |].
  cbn [List.filter List.map snd].
  destruct (Z.ltb_spec (Analytics.timestamp r) (now - Analytics.hour_ms))
    as [Hlt | Hge]; cbn [negb List.map snd List.filter].
  - destruct (Z.leb_spec (now - Analytics.hour_ms) (Analytics.timestamp r));
      [lia | exact IH].
  - destruct (Z.leb_spec (now - Analytics.hour_ms) (Analytics.timestamp r));
      [| lia].
    f_equal. exact IH.
Qed.

(** X4.  [cleanupOldData] evicts only what the dashboard no longer shows:
    the summary, the recent requests, the top violators, the endpoint rows
    and the hourly series of [getAnalytics()] are the same right after a
    cleanup as right before it (taken at the same instant), every raw
    record left is at most one hour old, and the real-time counters are
    zero. *)
Theorem X4_cleanup_keeps_the_trailing_hour :
  forall (now : Z) (st : Analytics.Store),
    let before := Analytics.getAnalytics now st in
    let after := Analytics.getAnalytics now (Analytics.cleanupOldData now st) in
    Analytics.summary after = Analytics.summary before
    /\ Analytics.recentRequests after = Analytics.recentRequests before
    /\ Analytics.topViolators after = Analytics.topViolators before
    /\ Analytics.endpointStats after = Analytics.endpointStats before
    /\ Analytics.view_hourlyStats after = Analytics.view_hourlyStats before
    /\ Analytics.view_currentRequests (Analytics.view_realTimeStats after) = O
    /\ Analytics.view_blockedRequests (Analytics.view_realTimeStats after) = O
    /\ Forall (fun r => now - Analytics.hour_ms <= Analytics.timestamp r)
              (Js.values (Analytics.requests (Analytics.cleanupOldData now st))).
Proof.
  intros now st before after. subst before after.
  unfold Analytics.getAnalytics.
  cbn [Analytics.summary Analytics.recentRequests Analytics.topViolators
       Analytics.endpointStats Analytics.view_hourlyStats
       Analytics.view_realTimeStats Analytics.view_currentRequests
       Analytics.view_blockedRequests].
  rewrite since_cleanup.
  repeat split.
  unfold Analytics.cleanupOldData, Js.values. cbn [Analytics.requests].
  apply List.Forall_forall. intros r Hr.
  apply List.in_map_iff in Hr as ([k r'] & <- & Hin).
  apply List.filter_In in Hin as [_ Hts]. cbn in Hts |- *.
  destruct (Z.ltb_spec (Analytics.timestamp r') (now - Analytics.hour_ms));
    [discriminate | lia].
Qed.

(** ** Distinct clients *)

Lemma uniq_from_length seen l :
  (length (Js.uniq_from seen l) <= length l)%nat.
Proof.
  revert seen. induction l as [| x l IH]; intros seen; cbn; [lia |].
  destruct (existsb (String.eqb x) seen); cbn.
  - specialize (IH seen). lia.
  - specialize (IH (x :: seen)). lia.
Qed.

Lemma uniq_length l : (length (Js.uniq l) <= length l)%nat.
Proof. apply uniq_from_length. Qed.

Lemma uniq_nonempty l : l <> [] -> (0 < length (Js.uniq l))%nat.
Proof.
  destruct l as [| x l]; [congruence |]. intros _. cbn. lia.
Qed.

Lemma apply_active_ips op st :
  Forall (fun b => (Analytics.hb_activeIPs b <= Analytics.hb_requests b)%nat)
         (Analytics.hourlyStats st) ->
  Forall (fun b => (Analytics.hb_activeIPs b <= Analytics.hb_requests b)%nat)
         (Analytics.hourlyStats (Analytics.apply op st)).
Proof.
  intros H.
  destruct op as [date ms ip1 endpoint0 blocked0 userAgent0 method0 | now | now];
    cbn [Analytics.apply]; [exact H | | exact H].
  unfold Analytics.updateHourlyStats. cbn [Analytics.hourlyStats].
  apply filter_Forall. apply Forall_app. split; [exact H |].
  constructor; [| constructor]. cbn.
  etransitivity; [apply uniq_length |]. rewrite List.length_map. lia.
Qed.

(** X5.  Distinct clients never outnumber requests: in the summary of
    [getAnalytics()] [activeIPs] is at most [totalRequests] and is at
    least one as soon as a request is counted, and every hourly bucket a
    history of store operations leaves has [activeIPs] at most
    [requests]. *)
Theorem X5_active_ips_within_requests :
  forall (ops : list Analytics.Op) (now : Z),
    let st := Analytics.run ops Analytics.empty in
    let s := Analytics.summary (Analytics.getAnalytics now st) in
    (Analytics.activeIPs s <= Analytics.totalRequests s)%nat
    /\ (Analytics.totalRequests s = O \/ 0 < Analytics.activeIPs s)%nat
    /\ Forall (fun b => (Analytics.hb_activeIPs b <= Analytics.hb_requests b)%nat)
              (Analytics.hourlyStats st).
Proof.
  intros ops now st s. subst s.
  cbn [Analytics.getAnalytics Analytics.summary Analytics.activeIPs
       Analytics.totalRequests].
  split; [| split].
  - etransitivity; [apply uniq_length |]. rewrite List.length_map. lia.
  - match goal with
    | |- context [length (Js.slice0 100 ?l)] => destruct (Js.slice0 100 l) as [| r rs]
    end; [left; reflexivity | right; cbn; lia].
  - subst st. induction ops as [| op ops IH] using rev_ind; [constructor |].
    rewrite run_snoc. apply apply_active_ips. exact IH.
Qed.

(** ** Clients never seen *)

Lemma set_values_Forall {V : Type} (P : V -> Prop) k v (m : Js.map V) :
  P v -> Forall P (Js.values m) -> Forall P (Js.values (Js.set k v m)).
Proof.
  unfold Js.values. intros Hv Hm.
  induction m as [| [k' v'] m IH]; cbn.
  - constructor; [exact Hv | constructor].
  - inversion Hm; subst.
    destruct (String.eqb k k'); cbn; constructor; auto.
Qed.

Lemma apply_unseen ip0 op st :
  More.logs_ip ip0 op = false ->
  Forall (fun r => Analytics.ip r <> ip0) (Js.values (Analytics.requests st)) ->
  Js.get ip0 (Analytics.violations st) = None ->
  Forall (fun r => Analytics.ip r <> ip0)
         (Js.values (Analytics.requests (Analytics.apply op st)))
  /\ Js.get ip0 (Analytics.violations (Analytics.apply op st)) = None.
Proof.
  intros Hop Hreq Hviol.
  destruct op as [date ms ip1 endpoint0 blocked0 userAgent0 method0 | now | now];
    cbn [Analytics.apply More.logs_ip] in *.
  - apply String.eqb_neq in Hop.
    unfold Analytics.logRequest. cbn [Analytics.requests Analytics.violations].
    split.
    + apply set_values_Forall; [exact Hop | exact Hreq].
    + destruct blocked0; [| exact Hviol].
      rewrite (get_set_ne ip1 ip0) by exact Hop. exact Hviol.
  - split; assumption.
  - split; [| exact Hviol].
    unfold Analytics.cleanupOldData, Js.values in *. cbn [Analytics.requests].
    rewrite List.Forall_forall in *. intros r Hr.
    apply List.in_map_iff in Hr as (kv & <- & Hin).
    apply List.filter_In in Hin as [Hin _].
    apply Hreq. apply List.in_map. exact Hin.
Qed.

Lemma filter_none {A : Type} (f : A -> bool) l :
  Forall (fun x => f x = false) l -> List.filter f l = [].
Proof.
  induction 1 as [| x l Hx Hl IH]; cbn; [reflexivity |].
  rewrite Hx. exact IH.
Qed.

(** X6.  A client the store has never logged gets zeroed aggregates: after
    any history of store operations none of which logs a request for
    [ip], [getIPAnalytics(ip)] reports no requests, no blocked requests,
    no violations, no endpoints and no recent activity. *)
Theorem X6_unseen_client_is_zero :
  forall (ops : list Analytics.Op) (ip0 : string),
    forallb (fun op => negb (More.logs_ip ip0 op)) ops = true ->
    Analytics.getIPAnalytics ip0 (Analytics.run ops Analytics.empty)
    = {| Analytics.ipa_ip := ip0;
         Analytics.ipa_totalRequests := 0;
         Analytics.ipa_blockedRequests := 0;
         Analytics.ipa_violations := 0;
         Analytics.ipa_endpoints := [];
         Analytics.ipa_recentActivity := [] |}.
Proof.
  intros ops ip0 Hops.
  assert (Forall (fun r => Analytics.ip r <> ip0)
                 (Js.values (Analytics.requests (Analytics.run ops Analytics.empty)))
          /\ Js.get ip0 (Analytics.violations (Analytics.run ops Analytics.empty))
             = None) as [Hreq Hviol].
  { induction ops as [| op ops IH] using rev_ind; [split; [constructor | reflexivity] |].
    rewrite forallb_app in Hops. apply andb_true_iff in Hops as [Hops Hop].
    cbn in Hop. rewrite andb_true_r in Hop. apply negb_true_iff in Hop.
    rewrite run_snoc. destruct (IH Hops) as [IH1 IH2].
    apply apply_unseen; assumption. }
  unfold Analytics.getIPAnalytics, Analytics.count_of.
  rewrite Hviol, filter_none; [reflexivity |].
  eapply Forall_impl; [exact Hreq |].
  intros r Hr. apply String.eqb_neq. exact Hr.
Qed.

(** X6 witness: a client that is not the one logged. *)
Lemma X6_unseen_client_is_zero_witness :
  Analytics.ipa_totalRequests
    (Analytics.getIPAnalytics "9.9.9.9"
       (Analytics.run Sample.same_millisecond Analytics.empty)) = O.
Proof.
  rewrite (X6_unseen_client_is_zero Sample.same_millisecond "9.9.9.9");
    reflexivity.
Defined.

(** ** Newest first *)

Section NewestFirst.
Local Abbreviation newest_first :=
  (fun a b : Analytics.RequestRecord => Analytics.timestamp b - Analytics.timestamp a).

Lemma insert_sorted_In (x y : Analytics.RequestRecord) l :
  In y (Js.insert_sorted newest_first x l) -> y = x \/ In y l.
Proof.
  induction l as [| z l IH]; cbn; [intuition congruence |].
  destruct (_ <=? 0); cbn; intuition congruence.
Qed.

Lemma sort_In (y : Analytics.RequestRecord) l :
  In y (Js.sort newest_first l) -> In y l.
Proof.
  induction l as [| x l IH]; cbn; [tauto |].
  intros H. apply insert_sorted_In in H as [-> | H]; [left; reflexivity |].
  right. apply IH. exact H.
Qed.

(** The one record that is newer than all others sorts to the front. *)
Lemma sort_newest (x : Analytics.RequestRecord) l1 l2 :
  Forall (fun y => Analytics.timestamp y < Analytics.timestamp x) (l1 ++ l2) ->
  exists rest, Js.sort newest_first (l1 ++ x :: l2) = x :: rest.
Proof.
  induction l1 as [| y l1 IH]; cbn [app]; intros Hall.
  - change (Js.sort newest_first (x :: l2))
      with (Js.insert_sorted newest_first x (Js.sort newest_first l2)).
    pose proof (sort_Forall _ newest_first _ Hall) as Hs.
    destruct (Js.sort newest_first l2) as [| h t]; cbn; [eauto |].
    inversion Hs; subst.
    destruct (Z.leb_spec (Analytics.timestamp h - Analytics.timestamp x) 0);
      [eauto | lia].
  - inversion Hall as [| ? ? Hy Hrest]; subst.
    change (Js.sort newest_first (y :: l1 ++ x :: l2))
      with (Js.insert_sorted newest_first y
              (Js.sort newest_first (l1 ++ x :: l2))).
    destruct (IH Hrest) as [rest ->]. cbn.
    destruct (Z.leb_spec (Analytics.timestamp x - Analytics.timestamp y) 0);
      [lia | eauto].
Qed.
End NewestFirst.

(** Writing a key puts the value somewhere among the values, the others
    staying as they were, in order, except the one it replaces. *)
Lemma set_values_split {V : Type} k v (m : Js.map V) :
  exists l1 l2,
    Js.values (Js.set k v m) = l1 ++ v :: l2
    /\ (Js.values m = l1 ++ l2 \/ exists v0, Js.values m = l1 ++ v0 :: l2).
Proof.
  unfold Js.values.
  induction m as [| [k' v'] m IH]; cbn.
  - exists [], []. split; [reflexivity | left; reflexivity].
  - destruct (String.eqb k k'); cbn.
    + exists [], (List.map snd m). split; [reflexivity |].
      right. exists v'. reflexivity.
    + destruct IH as (l1 & l2 & H1 & H2).
      exists (v' :: l1), l2. cbn. rewrite H1. split; [reflexivity |].
      destruct H2 as [-> | [v0 ->]]; [left | right; exists v0]; reflexivity.
Qed.

(** X7.  Logging then querying returns the request first: when the request
    logged for a client is newer than every record the store holds for
    that client, [getIPAnalytics(ip).recentActivity] starts with exactly
    the record just logged. *)
Theorem X7_logged_request_is_most_recent :
  forall (st : Analytics.Store) (date ms : Z)
         (ip0 endpoint0 userAgent0 method0 : string) (blocked0 : bool),
    Forall (fun r => Analytics.timestamp r < date) (More.records_of ip0 st) ->
    exists rest,
      Analytics.ipa_recentActivity
        (Analytics.getIPAnalytics ip0
           (Analytics.logRequest date ms ip0 endpoint0 blocked0
              userAgent0 method0 st))
      = {| Analytics.ip := ip0; Analytics.endpoint := endpoint0;
           Analytics.blocked := blocked0; Analytics.userAgent := userAgent0;
           Analytics.method := method0; Analytics.timestamp := date |} :: rest.
Proof.
  intros st date ms ip0 endpoint0 userAgent0 method0 blocked0 Hold.
  set (record := {| Analytics.ip := ip0; Analytics.endpoint := endpoint0;
                    Analytics.blocked := blocked0;
                    Analytics.userAgent := userAgent0;
                    Analytics.method := method0;
                    Analytics.timestamp := date |}).
  cbn [Analytics.getIPAnalytics Analytics.ipa_recentActivity].
  rewrite logRequest_requests. fold record.
  destruct (set_values_split (Analytics.record_key ip0 ms) record
              (Analytics.requests st)) as (l1 & l2 & Hnew & Hwas).
  rewrite Hnew, List.filter_app. cbn [List.filter].
  replace (String.eqb (Analytics.ip record) ip0) with true
    by (symmetry; apply String.eqb_refl).
  assert (Forall (fun y => Analytics.timestamp y < Analytics.timestamp record)
            (List.filter (fun r => String.eqb (Analytics.ip r) ip0) l1
             ++ List.filter (fun r => String.eqb (Analytics.ip r) ip0) l2))
    as Hall.
  { unfold More.records_of in Hold. rewrite List.Forall_forall in *.
    intros y Hy. apply Hold. rewrite <- List.filter_app in Hy.
    apply List.filter_In in Hy as [Hy Hip]. apply List.filter_In.
    split; [| exact Hip].
    destruct Hwas as [-> | [v0 ->]]; [exact Hy |].
    apply List.in_app_iff in Hy. apply List.in_app_iff.
    destruct Hy as [Hy | Hy]; [left; exact Hy | right; right; exact Hy]. }
  destruct (sort_newest record _ _ Hall) as [rest ->].
  exists (Js.slice0 49 rest). reflexivity.
Qed.

(** X7 witness: a fourth request logged for a client that has two
    records, the newer of them from millisecond 3, in a store that also
    holds a record of another client. *)
Lemma X7_logged_request_is_most_recent_witness :
  length (More.records_of "1.2.3.4"
            (Analytics.run More.three_logged Analytics.empty)) = 2%nat
  /\ exists rest,
       Analytics.ipa_recentActivity
         (Analytics.getIPAnalytics "1.2.3.4"
            (Analytics.logRequest 9 9 "1.2.3.4" "/api/projects" false
               "curl/8.0" "GET"
               (Analytics.run More.three_logged Analytics.empty)))
       = {| Analytics.ip := "1.2.3.4"; Analytics.endpoint := "/api/projects";
            Analytics.blocked := false; Analytics.userAgent := "curl/8.0";
            Analytics.method := "GET"; Analytics.timestamp := 9 |} :: rest.
Proof.
  split; [reflexivity |].
  apply (X7_logged_request_is_most_recent
           (Analytics.run More.three_logged Analytics.empty) 9 9 "1.2.3.4"
           "/api/projects" "curl/8.0" "GET" false).
  repeat constructor.
Defined.

(** ** Blocked records and violations *)

Lemma set_filter_length {V : Type} (f : V -> bool) k v (m : Js.map V) :
  (length (List.filter f (Js.values (Js.set k v m)))
   <= length (List.filter f (Js.values m)) + if f v then 1 else 0)%nat.
Proof.
  destruct (set_values_split k v m) as (l1 & l2 & -> & [-> | [v0 ->]]);
    rewrite !List.filter_app, !List.length_app; cbn [List.filter];
    destruct (f v); try destruct (f v0); cbn [length]; lia.
Qed.

Lemma insert_sorted_filter_length {A : Type} (cmp : A -> A -> Z)
    (f : A -> bool) x l :
  length (List.filter f (Js.insert_sorted cmp x l))
  = length (List.filter f (x :: l)).
Proof.
  induction l as [| y l IH]; [reflexivity |].
  cbn [Js.insert_sorted]. destruct (cmp x y <=? 0); [reflexivity |].
  cbn [List.filter] in *. destruct (f y), (f x); cbn [length] in *; lia.
Qed.

Lemma sort_filter_length {A : Type} (cmp : A -> A -> Z) (f : A -> bool) l :
  length (List.filter f (Js.sort cmp l)) = length (List.filter f l).
Proof.
  induction l as [| x l IH]; [reflexivity |].
  change (Js.sort cmp (x :: l)) with (Js.insert_sorted cmp x (Js.sort cmp l)).
  rewrite insert_sorted_filter_length. cbn [List.filter].
  destruct (f x); cbn [length]; rewrite IH; reflexivity.
Qed.

Lemma filter_twice {A : Type} (f g : A -> bool) l :
  List.filter f (List.filter g l) = List.filter (fun x => g x && f x) l.
Proof.
  induction l as [| x l IH]; [reflexivity |].
  cbn. destruct (g x); cbn; [destruct (f x) |]; rewrite IH; reflexivity.
Qed.

Lemma apply_blocked_records ip0 op st :
  (length (List.filter Analytics.blocked (More.records_of ip0 st))
   <= Analytics.count_of ip0 (Analytics.violations st))%nat ->
  (length (List.filter Analytics.blocked
             (More.records_of ip0 (Analytics.apply op st)))
   <= Analytics.count_of ip0 (Analytics.violations (Analytics.apply op st)))%nat.
Proof.
  intros H. rewrite apply_violations.
  unfold More.records_of in *. rewrite !filter_twice in *.
  destruct op as [date ms ip1 endpoint0 blocked0 userAgent0 method0 | now | now];
    cbn [Analytics.apply More.logs_ip More.is_blocked_log andb].
  - rewrite logRequest_requests.
    etransitivity; [apply set_filter_length |].
    cbn [Analytics.ip Analytics.blocked].
    apply Nat.add_le_mono_r. exact H.
  - rewrite Nat.add_0_r. exact H.
  - unfold Analytics.cleanupOldData, Js.values in *. cbn [Analytics.requests].
    rewrite Nat.add_0_r. etransitivity; [| exact H].
    clear H. induction (Analytics.requests st) as [| [k r] m IH]; cbn; [lia |].
    destruct (negb _); cbn;
      destruct (_ && _); cbn; lia.
Qed.

Lemma apply_records_of ip0 op st :
  (length (More.records_of ip0 (Analytics.apply op st))
   <= length (More.records_of ip0 st)
      + if More.logs_ip ip0 op then 1 else 0)%nat.
Proof.
  unfold More.records_of.
  destruct op as [date ms ip1 endpoint0 blocked0 userAgent0 method0 | now | now];
    cbn [Analytics.apply More.logs_ip].
  - rewrite logRequest_requests.
    etransitivity; [apply set_filter_length |].
    cbn [Analytics.ip]. apply Nat.le_refl.
  - rewrite Nat.add_0_r. apply Nat.le_refl.
  - rewrite Nat.add_0_r.
    unfold Analytics.cleanupOldData, Js.values. cbn [Analytics.requests].
    induction (Analytics.requests st) as [| [k r] m IH]; cbn; [lia |].
    destruct (negb _); cbn; destruct (String.eqb _ _); cbn; lia.
Qed.

Lemma run_records_of ops ip0 :
  (length (More.records_of ip0 (Analytics.run ops Analytics.empty))
   <= length (List.filter (More.logs_ip ip0) ops))%nat.
Proof.
  induction ops as [| op ops IH] using rev_ind; [cbn; lia |].
  rewrite run_snoc, filter_snoc_length.
  etransitivity; [apply apply_records_of |].
  apply Nat.add_le_mono_r. exact IH.
Qed.

Lemma run_blocked_records ops ip0 :
  (length (List.filter Analytics.blocked
             (More.records_of ip0 (Analytics.run ops Analytics.empty)))
   <= Analytics.count_of ip0
        (Analytics.violations (Analytics.run ops Analytics.empty)))%nat.
Proof.
  induction ops as [| op ops IH] using rev_ind; [cbn; lia |].
  rewrite run_snoc. apply apply_blocked_records. exact IH.
Qed.

(** X8.  The per-client report never overstates: after any history of
    store operations, [getIPAnalytics(ip).totalRequests] is at most the
    number of [logRequest] calls made for the client, and
    [getIPAnalytics(ip).blockedRequests] is at most
    [getIPAnalytics(ip).violations]. *)
Theorem X8_client_report_never_overstates :
  forall (ops : list Analytics.Op) (ip0 : string),
    let report :=
      Analytics.getIPAnalytics ip0 (Analytics.run ops Analytics.empty) in
    (Analytics.ipa_totalRequests report
     <= length (List.filter (More.logs_ip ip0) ops))%nat
    /\ (Analytics.ipa_blockedRequests report
        <= Analytics.ipa_violations report)%nat.
Proof.
  intros ops ip0 report. subst report.
  cbn [Analytics.getIPAnalytics Analytics.ipa_totalRequests
       Analytics.ipa_blockedRequests Analytics.ipa_violations].
  rewrite sort_length, sort_filter_length.
  split; [apply run_records_of | apply run_blocked_records].
Qed.

(** ** Rankings *)

Lemma in_firstn {A : Type} (x : A) n l : In x (firstn n l) -> In x l.
Proof.
  revert n. induction l as [| y l IH]; intros [| n]; cbn; try tauto.
  intros [H | H]; [left; exact H | right; exact (IH n H)].
Qed.

Lemma in_skipn {A : Type} (x : A) n l : In x (skipn n l) -> In x l.
Proof.
  revert n. induction l as [| y l IH]; intros [| n]; cbn; try tauto.
  intros H. right. exact (IH n H).
Qed.

Section Descending.
Context {A : Type} (key : A -> Z).

Local Abbreviation descending := (fun a b : A => key b - key a).
Local Abbreviation not_below := (fun a b : A => key b <= key a).

Lemma insert_sorted_descending x l :
  StronglySorted not_below l ->
  StronglySorted not_below (Js.insert_sorted descending x l).
Proof.
  induction 1 as [| y l Hl IH Hall]; cbn.
  - constructor; [constructor | constructor].
  - destruct (Z.leb_spec (key y - key x) 0) as [Hle | Hgt].
    + constructor; [constructor; assumption |].
      constructor; [lia |].
      eapply Forall_impl; [exact Hall |]. cbn. intros z Hz. lia.
    + constructor; [exact IH |].
      apply insert_sorted_Forall; [lia | exact Hall].
Qed.

Lemma sort_descending l : StronglySorted not_below (Js.sort descending l).
Proof.
  induction l as [| x l IH]; [constructor |].
  change (Js.sort descending (x :: l))
    with (Js.insert_sorted descending x (Js.sort descending l)).
  apply insert_sorted_descending. exact IH.
Qed.

Lemma insert_sorted_perm (cmp : A -> A -> Z) x l :
  Permutation (Js.insert_sorted cmp x l) (x :: l).
Proof.
  induction l as [| y l IH]; cbn; [reflexivity |].
  destruct (cmp x y <=? 0); [reflexivity |].
  rewrite IH. apply perm_swap.
Qed.

Lemma sort_perm (cmp : A -> A -> Z) l : Permutation (Js.sort cmp l) l.
Proof.
  induction l as [| x l IH]; [reflexivity |].
  change (Js.sort cmp (x :: l)) with (Js.insert_sorted cmp x (Js.sort cmp l)).
  rewrite insert_sorted_perm, IH. reflexivity.
Qed.

(** The first [n] of a descending list, and what is left. *)
Lemma top_of_descending n l :
  StronglySorted not_below l ->
  forall x y, In x (firstn n l) -> In y (skipn n l) -> key y <= key x.
Proof.
  intros Hl. revert n.
  induction Hl as [| z l Hl IH Hall]; intros n x y; destruct n; cbn;
    try tauto.
  intros [<- | Hx] Hy.
  - rewrite List.Forall_forall in Hall. apply Hall.
    eapply in_skipn. exact Hy.
  - eapply IH; eassumption.
Qed.
End Descending.

(** X9.  [topViolators] is a true top ten: the list holds at most ten
    clients, each with its count from the violations table, in descending
    order of violations, and every client of the table is either listed or
    has no more violations than any listed client. *)
Theorem X9_top_violators_are_the_top :
  forall (now : Z) (st : Analytics.Store),
    let top := Analytics.topViolators (Analytics.getAnalytics now st) in
    (length top <= 10)%nat
    /\ StronglySorted (fun a b => (snd b <= snd a)%nat) top
    /\ (forall entry, In entry top -> In entry (Analytics.violations st))
    /\ (forall entry,
          In entry (Analytics.violations st) ->
          In entry top
          \/ forall listed, In listed top -> (snd entry <= snd listed)%nat).
Proof.
  intros now st top. subst top.
  cbn [Analytics.getAnalytics Analytics.topViolators]. unfold Js.slice0, Js.entries.
  assert (StronglySorted
            (fun a b : string * nat => Z.of_nat (snd b) <= Z.of_nat (snd a))
            (Js.sort Analytics.by_count_desc (Analytics.violations st)))
    as Hsorted
    by exact (sort_descending (fun e : string * nat => Z.of_nat (snd e))
                (Analytics.violations st)).
  set (sorted := Js.sort Analytics.by_count_desc (Analytics.violations st)) in *.
  pose proof (sort_perm Analytics.by_count_desc (Analytics.violations st))
    as Hperm. fold sorted in Hperm. clearbody sorted.
  split; [apply List.firstn_le_length |].
  split; [| split].
  - assert (StronglySorted (fun a b : string * nat => (snd b <= snd a)%nat) sorted)
      as Hnat.
    { clear Hperm. induction Hsorted as [| z l Hl IH Hall]; constructor; auto.
      eapply Forall_impl; [exact Hall |]. cbn. intros. lia. }
    clear Hsorted Hperm. revert Hnat. generalize 10%nat as n.
    intros n Hnat. revert n.
    induction Hnat as [| z l Hl IH Hall]; intros [| n]; cbn; constructor; auto.
    rewrite List.Forall_forall in *. intros x Hx. apply Hall.
    eapply in_firstn. exact Hx.
  - intros entry Hin. apply (Permutation_in _ Hperm).
    eapply in_firstn. exact Hin.
  - intros entry Hin.
    apply (Permutation_in _ (Permutation_sym Hperm)) in Hin.
    rewrite <- (List.firstn_skipn 10 sorted) in Hin.
    apply List.in_app_iff in Hin as [Hin | Hin]; [left; exact Hin | right].
    intros listed Hlisted.
    pose proof (top_of_descending _ 10 sorted Hsorted listed entry Hlisted Hin).
    cbn in *. lia.
Qed.

(** ** The blocked-IP list *)

Lemma slice_window {A : Type} (start finish : Z) (l : list A) :
  0 <= start <= finish ->
  JsArray.slice start finish l
  = firstn (Z.to_nat (finish - start)) (skipn (Z.to_nat start) l).
Proof.
  intros [H0 Hle]. unfold JsArray.slice, JsArray.relative.
  destruct (Z.ltb_spec start 0); [lia |].
  destruct (Z.ltb_spec finish 0); [lia |].
  destruct (Z_le_gt_dec (Z.of_nat (length l)) start) as [Hout | Hin].
  - rewrite (List.skipn_all2 l (n := Z.to_nat start)) by lia.
    rewrite (List.skipn_all2 l (n := Z.to_nat (Z.min start (Z.of_nat (length l)))))
      by lia.
    rewrite !List.firstn_nil. reflexivity.
  - rewrite (Z.min_l start) by lia.
    destruct (Z_le_gt_dec finish (Z.of_nat (length l))) as [Hf | Hf].
    + rewrite (Z.min_l finish) by lia. reflexivity.
    + rewrite (Z.min_r finish) by lia.
      rewrite !List.firstn_all2; [reflexivity | |];
        rewrite List.length_skipn; lia.
Qed.

Lemma percent2_bounds blocked0 total0 :
  (blocked0 <= total0)%nat -> 0 <= Analytics.percent2 blocked0 total0 <= 10000.
Proof.
  intros Hle. unfold Analytics.percent2.
  destruct (Z.ltb_spec 0 (Z.of_nat total0)) as [Hpos | Hzero]; [| lia].
  split.
  - apply Z.div_pos; lia.
  - enough ((2 * Z.of_nat blocked0 * 10000 + Z.of_nat total0)
            / (2 * Z.of_nat total0) < 10001) by lia.
    apply Z.div_lt_upper_bound; lia.
Qed.

Lemma in_get {V : Type} (P : V -> Prop) k (v : V) (m : Js.map V) :
  Forall (fun kv => P (snd kv)) m -> In (k, v) m ->
  exists v', Js.get k m = Some v' /\ P v'.
Proof.
  intros Hall Hin. induction Hall as [| [k' v'] m Hkv Hm IH]; cbn in *;
    [tauto |].
  destruct (String.eqb_spec k k') as [-> | Hne]; [eauto |].
  destruct Hin as [H | H]; [congruence | exact (IH H)].
Qed.

Lemma apply_violations_positive op st :
  Forall (fun kv => (1 <= snd kv)%nat) (Analytics.violations st) ->
  Forall (fun kv => (1 <= snd kv)%nat)
         (Analytics.violations (Analytics.apply op st)).
Proof.
  intros H.
  destruct op as [date ms ip1 endpoint0 blocked0 userAgent0 method0 | now | now];
    cbn [Analytics.apply]; [| exact H | exact H].
  unfold Analytics.logRequest. cbn [Analytics.violations].
  destruct blocked0; [| exact H].
  apply set_Forall; [cbn; lia | exact H].
Qed.

Lemma run_violations_positive ops :
  Forall (fun kv => (1 <= snd kv)%nat)
         (Analytics.violations (Analytics.run ops Analytics.empty)).
Proof.
  induction ops as [| op ops IH] using rev_ind; [constructor |].
  rewrite run_snoc. apply apply_violations_positive. exact IH.
Qed.

(** X10.  Every row of the blocked-IP list is consistent: after any
    history of store operations, each client listed by [getBlockedIPs]
    has at least one violation, no more blocked requests than violations
    and than requests, a block rate between 0 and 100 percent, and a last
    activity exactly when it has a request on record; the list never holds
    more than ten clients. *)
Theorem X10_blocked_rows_are_consistent :
  forall (ops : list Analytics.Op) (nowA : Z) (row : Controller.BlockedIP),
    let rows := Controller.blockedRows nowA (Analytics.run ops Analytics.empty) in
    In row rows ->
    (length rows <= 10)%nat
    /\ (1 <= Controller.b_violations row)%nat
    /\ (Controller.b_blockedRequests row <= Controller.b_violations row)%nat
    /\ (Controller.b_blockedRequests row <= Controller.b_totalRequests row)%nat
    /\ 0 <= Controller.b_blockRate row <= 10000
    /\ (Controller.b_lastActivity row = None
        <-> Controller.b_totalRequests row = O).
Proof.
  intros ops nowA row rows Hin. subst rows. unfold Controller.blockedRows in *.
  set (st := Analytics.run ops Analytics.empty) in *.
  split.
  - rewrite List.length_map. cbn [Analytics.getAnalytics Analytics.topViolators].
    apply List.firstn_le_length.
  - apply List.in_map_iff in Hin as ([ip0 n] & <- & Hin).
    cbn [fst Controller.b_violations Controller.b_blockedRequests
         Controller.b_totalRequests Controller.b_blockRate
         Controller.b_lastActivity].
    pose proof (run_blocked_records ops ip0) as Hbv. fold st in Hbv.
    pose proof (getIPAnalytics_consistent ip0 st) as Hbt.
    split; [| split; [| split; [exact Hbt | split]]].
    + apply in_firstn in Hin.
      apply (Permutation_in _ (sort_perm Analytics.by_count_desc _)) in Hin.
      destruct (in_get (fun c => (1 <= c)%nat) ip0 n _
                  (run_violations_positive ops) Hin) as (c & Hget & Hc).
      cbn [Analytics.getIPAnalytics Analytics.ipa_violations].
      unfold Analytics.count_of. fold st in Hget. rewrite Hget. exact Hc.
    + cbn [Analytics.getIPAnalytics Analytics.ipa_blockedRequests
           Analytics.ipa_violations].
      rewrite sort_filter_length. exact Hbv.
    + apply percent2_bounds. exact Hbt.
    + cbn [Analytics.getIPAnalytics Analytics.ipa_recentActivity
           Analytics.ipa_totalRequests].
      destruct (Js.sort _ _) as [| r rs]; cbn; split; congruence.
Qed.

(** X10 witness: the row of a client with one blocked login attempt. *)
Lemma X10_blocked_rows_are_consistent_witness :
  (1 <= Controller.b_violations More.blocked_row)%nat.
Proof.
  apply (X10_blocked_rows_are_consistent More.one_blocked 2 More.blocked_row).
  vm_compute. left. reflexivity.
Defined.

Lemma ceil_div_bounds a b :
  0 < b -> (JsArray.ceil_div a b - 1) * b < a <= JsArray.ceil_div a b * b.
Proof.
  intros Hb. unfold JsArray.ceil_div.
  pose proof (Z.div_mod (- a) b ltac:(lia)) as Hdm.
  pose proof (Z.mod_pos_bound (- a) b Hb) as Hm.
  nia.
Qed.

(** X11.  The pages of the blocked-IP list tile the list: for a page
    number and a page size of at least one, [getBlockedIPs] returns the
    rows from index [(page - 1) * limit] on, at most [limit] of them;
    the row at index [k] of the list is on page [k / limit + 1] at offset
    [k mod limit]; [pages] is the least number of pages that holds all
    rows, and every page after it is empty. *)
Theorem X11_pages_tile_the_list :
  forall (analytics : Analytics.Store) (nowA page limit : Z),
    1 <= page -> 1 <= limit ->
    let rows := Controller.blockedRows nowA analytics in
    let data := Controller.getBlockedIPs page limit nowA analytics in
    Controller.blockedIPs data
    = firstn (Z.to_nat limit) (skipn (Z.to_nat ((page - 1) * limit)) rows)
    /\ (length (Controller.blockedIPs data) <= Z.to_nat limit)%nat
    /\ (forall (k : nat) (row : Controller.BlockedIP),
          rows !! k = Some row ->
          page = Z.of_nat k / limit + 1 ->
          Controller.blockedIPs data !! Z.to_nat (Z.of_nat k mod limit)
          = Some row)
    /\ exists pages,
         Controller.pg_pages data = Some pages
         /\ (pages - 1) * limit < Z.of_nat (length rows) <= pages * limit
         /\ (pages < page -> Controller.blockedIPs data = []).
Proof.
  intros analytics nowA page limit Hpage Hlimit rows data.
  assert (Controller.blockedIPs data
          = firstn (Z.to_nat limit) (skipn (Z.to_nat ((page - 1) * limit)) rows))
    as Hslice.
  { subst data. cbn [Controller.getBlockedIPs Controller.blockedIPs].
    fold rows. rewrite slice_window by nia.
    f_equal. f_equal. lia. }
  split; [exact Hslice |].
  split; [rewrite Hslice; apply List.firstn_le_length |].
  split.
  - intros k row Hk Hon. rewrite Hslice.
    pose proof (Z.div_mod (Z.of_nat k) limit ltac:(lia)) as Hdm.
    pose proof (Z.mod_pos_bound (Z.of_nat k) limit ltac:(lia)) as Hm.
    rewrite lookup_take_lt by lia. rewrite lookup_drop.
    replace (Z.to_nat ((page - 1) * limit) + Z.to_nat (Z.of_nat k mod limit))%nat
      with k by nia.
    exact Hk.
  - exists (JsArray.ceil_div (Z.of_nat (length rows)) limit).
    pose proof (ceil_div_bounds (Z.of_nat (length rows)) limit ltac:(lia))
      as Hceil.
    split; [| split; [exact Hceil |]].
    + subst data. cbn [Controller.getBlockedIPs Controller.pg_pages].
      fold rows. destruct (Z.eqb_spec limit 0); [lia | reflexivity].
    + intros Hpast. rewrite Hslice.
      rewrite List.skipn_all2 by nia. apply List.firstn_nil.
Qed.

(** X11 witness: the first page of fifty of the list for one blocked
    client. *)
Lemma X11_pages_tile_the_list_witness :
  Controller.blockedIPs
    (Controller.getBlockedIPs 1 50 2
       (Analytics.run More.one_blocked Analytics.empty))
  = firstn 50
      (skipn 0 (Controller.blockedRows 2
                  (Analytics.run More.one_blocked Analytics.empty))).
Proof.
  apply (X11_pages_tile_the_list
           (Analytics.run More.one_blocked Analytics.empty) 2 1 50); lia.
Defined.

(** ** The traffic summary *)

Section SumBounds.
Context {A : Type}.

Lemma sum_by_le (f g : A -> nat) l :
  Forall (fun x => (f x <= g x)%nat) l ->
  (JsArray.sum_by f l <= JsArray.sum_by g l)%nat.
Proof.
  induction 1 as [| x l Hx Hl IH]; [apply Nat.le_refl |].
  rewrite !sum_by_cons. lia.
Qed.

Lemma sum_by_in (f : A -> nat) x l :
  In x l -> (f x <= JsArray.sum_by f l)%nat.
Proof.
  induction l as [| y l IH]; cbn; [tauto |].
  rewrite sum_by_cons. intros [-> | H]; [lia |]. specialize (IH H). lia.
Qed.

Lemma sum_by_bound (f : A -> nat) (bound : nat) l :
  Forall (fun x => (f x <= bound)%nat) l ->
  (JsArray.sum_by f l <= length l * bound)%nat.
Proof.
  induction 1 as [| x l Hx Hl IH]; [cbn; apply Nat.le_refl |].
  rewrite sum_by_cons. cbn [length]. lia.
Qed.
End SumBounds.

(** The running maximum of the [reduce] that finds the peak. *)
Lemma peak_fold l : forall init,
  let peak :=
    fold_left
      (fun max stat =>
         if (Controller.peak_requests max <? Analytics.hb_requests stat)%nat
         then {| Controller.peak_requests := Analytics.hb_requests stat;
                 Controller.peak_timestamp := Analytics.hb_timestamp stat |}
         else max) l init in
  (Controller.peak_requests init <= Controller.peak_requests peak)%nat
  /\ Forall (fun stat => (Analytics.hb_requests stat
                          <= Controller.peak_requests peak)%nat) l
  /\ (peak = init
      \/ exists stat,
           In stat l
           /\ peak = {| Controller.peak_requests := Analytics.hb_requests stat;
                        Controller.peak_timestamp := Analytics.hb_timestamp stat |}).
Proof.
  induction l as [| stat l IH]; intros init; cbn zeta; cbn [fold_left].
  - split; [lia | split; [constructor | left; reflexivity]].
  - destruct (Nat.ltb_spec (Controller.peak_requests init)
                           (Analytics.hb_requests stat)) as [Hlt | Hge].
    + destruct (IH {| Controller.peak_requests := Analytics.hb_requests stat;
                      Controller.peak_timestamp := Analytics.hb_timestamp stat |})
        as (H1 & H2 & H3). cbn [Controller.peak_requests] in H1.
      split; [lia | split].
      * constructor; [exact H1 | exact H2].
      * right. destruct H3 as [-> | (s & Hs & ->)].
        -- exists stat. split; [left; reflexivity | reflexivity].
        -- exists s. split; [right; exact Hs | reflexivity].
    + destruct (IH init) as (H1 & H2 & H3).
      split; [exact H1 | split].
      * constructor; [lia | exact H2].
      * destruct H3 as [-> | (s & Hs & ->)]; [left; reflexivity |].
        right. exists s. split; [right; exact Hs | reflexivity].
Qed.

(** X12.  The figures of the traffic summary are consistent: after any
    history of store operations and for any timeframe, blocked requests
    do not exceed requests, the block rate lies between 0 and 100
    percent, the peak is the largest bucket of the window (zero when the
    window is empty), no bucket of the window exceeds the peak, and the
    average per bucket lies between zero and the peak, which lies within
    the total. *)
Theorem X12_traffic_figures_are_consistent :
  forall (ops : list Analytics.Op) (query : option string) (now nowA : Z),
    let data := Controller.getTrafficSummary query now nowA
                  (Analytics.run ops Analytics.empty) in
    let totals := Controller.t_summary data in
    let peak := Controller.peak_requests (Controller.peakTraffic totals) in
    (Controller.t_totalBlocked totals <= Controller.t_totalRequests totals)%nat
    /\ 0 <= Controller.t_blockRate totals <= 10000
    /\ Forall (fun stat => (Analytics.hb_requests stat <= peak)%nat)
              (Controller.t_hourlyStats data)
    /\ (peak = O
        \/ exists stat, In stat (Controller.t_hourlyStats data)
                        /\ peak = Analytics.hb_requests stat)
    /\ (peak <= Controller.t_totalRequests totals)%nat
    /\ 0 <= Controller.averageRequestsPerHour totals <= Z.of_nat peak.
Proof.
  intros ops query now nowA data totals peak. subst peak totals data.
  unfold Controller.getTrafficSummary.
  cbn [Controller.t_summary Controller.t_totalBlocked Controller.t_totalRequests
       Controller.t_blockRate Controller.t_hourlyStats Controller.peakTraffic
       Controller.averageRequestsPerHour Analytics.getAnalytics
       Analytics.view_hourlyStats].
  set (window := List.filter _ _).
  assert (Forall (fun b => (Analytics.hb_blocked b <= Analytics.hb_requests b)%nat)
                 window) as Hcons.
  { subst window. apply filter_Forall.
    exact (proj2 (proj2 (run_consistent ops _ empty_consistent))). }
  pose proof (sum_by_le _ _ _ Hcons) as Hle.
  destruct (peak_fold window {| Controller.peak_requests := 0;
                                Controller.peak_timestamp := now |})
    as (_ & Hpeak & Hwhich).
  cbv zeta in Hpeak, Hwhich.
  set (peak := fold_left _ window _) in *.
  assert (Controller.peak_requests peak <= JsArray.sum_by Analytics.hb_requests window)%nat
    as Hpt.
  { destruct Hwhich as [-> | (stat & Hin & ->)]; [cbn; lia |].
    cbn. apply sum_by_in. exact Hin. }
  split; [exact Hle |].
  split; [apply percent2_bounds; exact Hle |].
  split; [exact Hpeak |].
  split.
  { destruct Hwhich as [-> | (stat & Hin & ->)]; [left; reflexivity |].
    right. exists stat. split; [exact Hin | reflexivity]. }
  split; [exact Hpt |].
  destruct (Nat.ltb_spec 0 (length window)) as [Hpos | Hzero]; [| lia].
  pose proof (sum_by_bound Analytics.hb_requests _ _ Hpeak) as Hbound.
  unfold JsArray.round_div. split.
  - apply Z.div_pos; lia.
  - enough ((2 * Z.of_nat (JsArray.sum_by Analytics.hb_requests window)
             + Z.of_nat (length window)) / (2 * Z.of_nat (length window))
            < Z.of_nat (Controller.peak_requests peak) + 1) by lia.
    apply Z.div_lt_upper_bound; [lia | nia].
Qed.

Lemma sum_by_filter {A : Type} (f : A -> nat) (p : A -> bool) l :
  (JsArray.sum_by f (List.filter p l) <= JsArray.sum_by f l)%nat.
Proof.
  induction l as [| x l IH]; [apply Nat.le_refl |].
  cbn [List.filter]. destruct (p x); rewrite !sum_by_cons; lia.
Qed.

(** X13.  A longer timeframe shows at least as much: when the window of
    one timeframe starts no later than that of another, the buckets
    [getTrafficSummary] shows for the shorter one are those of the longer
    one that fall into the shorter window, so the totals of requests and
    of blocked requests and the peak of the shorter timeframe do not
    exceed those of the longer one, while the current stats are the same.
    The timeframes the route lets through nest in the order [1h], [6h],
    [24h], [7d]. *)
Theorem X13_longer_timeframes_show_more :
  forall (analytics : Analytics.Store) (shorter longer : string) (now nowA : Z),
    Controller.startTime longer now <= Controller.startTime shorter now ->
    let narrow := Controller.getTrafficSummary (Some shorter) now nowA analytics in
    let wide := Controller.getTrafficSummary (Some longer) now nowA analytics in
    Controller.t_hourlyStats narrow
    = List.filter
        (fun stat => Controller.startTime shorter now <=? Analytics.hb_timestamp stat)
        (Controller.t_hourlyStats wide)
    /\ (Controller.t_totalRequests (Controller.t_summary narrow)
        <= Controller.t_totalRequests (Controller.t_summary wide))%nat
    /\ (Controller.t_totalBlocked (Controller.t_summary narrow)
        <= Controller.t_totalBlocked (Controller.t_summary wide))%nat
    /\ (Controller.peak_requests
          (Controller.peakTraffic (Controller.t_summary narrow))
        <= Controller.peak_requests
             (Controller.peakTraffic (Controller.t_summary wide)))%nat
    /\ Controller.currentStats narrow = Controller.currentStats wide
    /\ Controller.startTime "7d" now <= Controller.startTime "24h" now
       <= Controller.startTime "6h" now
    /\ Controller.startTime "6h" now <= Controller.startTime "1h" now.
Proof.
  intros analytics shorter longer now nowA Hstart narrow wide.
  assert (Controller.t_hourlyStats narrow
          = List.filter
              (fun stat => Controller.startTime shorter now
                           <=? Analytics.hb_timestamp stat)
              (Controller.t_hourlyStats wide)) as Hnarrow.
  { subst narrow wide. cbn [Controller.getTrafficSummary Controller.t_hourlyStats].
    rewrite filter_twice. apply List.filter_ext. intros stat.
    destruct (Z.leb_spec (Controller.startTime shorter now)
                         (Analytics.hb_timestamp stat));
      destruct (Z.leb_spec (Controller.startTime longer now)
                           (Analytics.hb_timestamp stat));
      try reflexivity; lia. }
  split; [exact Hnarrow |].
  assert (forall f : Analytics.HourlyBucket -> nat,
            (JsArray.sum_by f (Controller.t_hourlyStats narrow)
             <= JsArray.sum_by f (Controller.t_hourlyStats wide))%nat) as Hsum.
  { intros f. rewrite Hnarrow. apply sum_by_filter. }
  split; [exact (Hsum Analytics.hb_requests) |].
  split; [exact (Hsum Analytics.hb_blocked) |].
  split; [| split; [reflexivity | unfold Controller.startTime; cbn; lia]].
  subst narrow wide.
  cbn [Controller.getTrafficSummary Controller.t_hourlyStats Controller.t_summary
       Controller.peakTraffic] in Hnarrow |- *.
  set (init := {| Controller.peak_requests := 0;
                  Controller.peak_timestamp := now |}).
  match goal with
  | |- (Controller.peak_requests (fold_left _ ?a _)
        <= Controller.peak_requests (fold_left _ ?b _))%nat =>
      destruct (peak_fold a init) as (_ & _ & Hwhich);
      destruct (peak_fold b init) as (_ & Hall & _);
      cbv zeta in Hwhich, Hall;
      destruct Hwhich as [-> | (stat & Hin & ->)]; [cbn; lia |];
      rewrite Hnarrow in Hin; apply List.filter_In in Hin as [Hin _];
      rewrite List.Forall_forall in Hall; exact (Hall stat Hin)
  end.
Qed.

(** X13 witness: two hours of traffic seen a little after the second
    roll-up: the last hour shows one request, the last week three. *)
Lemma X13_longer_timeframes_show_more_witness :
  Controller.t_totalRequests
    (Controller.t_summary
       (Controller.getTrafficSummary (Some "1h") 7300000 7300000
          (Analytics.run More.two_hours Analytics.empty))) = 1%nat
  /\ Controller.t_totalRequests
       (Controller.t_summary
          (Controller.getTrafficSummary (Some "7d") 7300000 7300000
             (Analytics.run More.two_hours Analytics.empty))) = 3%nat
  /\ (Controller.t_totalRequests
        (Controller.t_summary
           (Controller.getTrafficSummary (Some "1h") 7300000 7300000
              (Analytics.run More.two_hours Analytics.empty)))
      <= Controller.t_totalRequests
           (Controller.t_summary
              (Controller.getTrafficSummary (Some "7d") 7300000 7300000
                 (Analytics.run More.two_hours Analytics.empty))))%nat.
Proof.
  split; [reflexivity | split; [reflexivity |]].
  apply (X13_longer_timeframes_show_more
           (Analytics.run More.two_hours Analytics.empty) "1h" "7d"
           7300000 7300000).
  vm_compute. discriminate.
Defined.

Lemma filter_all {A : Type} (f : A -> bool) l :
  Forall (fun x => f x = true) l -> List.filter f l = l.
Proof.
  induction 1 as [| x l Hx Hl IH]; cbn; [reflexivity |].
  rewrite Hx, IH. reflexivity.
Qed.

Lemma updateHourlyStats_recent now st :
  Forall (fun stat => now - Analytics.day_ms <= Analytics.hb_timestamp stat)
         (Analytics.hourlyStats (Analytics.updateHourlyStats now st)).
Proof.
  unfold Analytics.updateHourlyStats. cbn [Analytics.hourlyStats].
  apply List.Forall_forall. intros stat Hin.
  apply List.filter_In in Hin as [_ H]. lia.
Qed.

(** X14.  The hourly series holds one day at most: right after a roll-up
    every bucket kept, the new one included, is at most 24 hours old, so
    at that instant the [7d] timeframe of [getTrafficSummary] shows the
    same buckets and figures as the [24h] timeframe. *)
Theorem X14_series_holds_one_day :
  forall (now nowA : Z) (st : Analytics.Store),
    let rolled := Analytics.updateHourlyStats now st in
    let week := Controller.getTrafficSummary (Some "7d") now nowA rolled in
    let day := Controller.getTrafficSummary (Some "24h") now nowA rolled in
    Forall (fun stat => now - Analytics.day_ms <= Analytics.hb_timestamp stat)
           (Analytics.hourlyStats rolled)
    /\ (exists older,
          Analytics.hourlyStats rolled
          = older ++ [{| Analytics.hb_timestamp := now;
                         Analytics.hb_requests :=
                           length (Analytics.since (now - Analytics.hour_ms) st);
                         Analytics.hb_blocked :=
                           length (List.filter Analytics.blocked
                                     (Analytics.since (now - Analytics.hour_ms) st));
                         Analytics.hb_activeIPs :=
                           length (Js.uniq
                                     (List.map Analytics.ip
                                        (Analytics.since (now - Analytics.hour_ms) st)))
                      |}])
    /\ Controller.t_hourlyStats week = Analytics.hourlyStats rolled
    /\ Controller.t_hourlyStats week = Controller.t_hourlyStats day
    /\ Controller.t_summary week = Controller.t_summary day.
Proof.
  intros now nowA st rolled week day.
  pose proof (updateHourlyStats_recent now st) as Hrecent. fold rolled in Hrecent.
  assert (Controller.t_hourlyStats week = Analytics.hourlyStats rolled) as Hweek.
  { subst week. cbn. apply filter_all.
    eapply Forall_impl; [exact Hrecent |]. cbn. intros stat H.
    apply Z.leb_le. unfold Analytics.day_ms in H. lia. }
  assert (Controller.t_hourlyStats day = Analytics.hourlyStats rolled) as Hday.
  { subst day. cbn. apply filter_all.
    eapply Forall_impl; [exact Hrecent |]. cbn. intros stat H.
    apply Z.leb_le. unfold Analytics.day_ms in H. lia. }
  split; [exact Hrecent |].
  split.
  { subst rolled. unfold Analytics.updateHourlyStats. cbn [Analytics.hourlyStats].
    rewrite List.filter_app. cbn [List.filter Analytics.hb_timestamp].
    destruct (Z.leb_spec (now - Analytics.day_ms) now) as [_ | Hbad];
      [eexists; reflexivity | unfold Analytics.day_ms in Hbad; lia]. }
  split; [exact Hweek |].
  split; [congruence |].
  subst week day. unfold Controller.getTrafficSummary in *.
  cbn [Controller.t_hourlyStats Controller.t_summary] in *.
  rewrite Hweek, Hday. reflexivity.
Qed.

(** ** Limits, paths and credentials *)

(** X15.  For a base limit that is not negative, memory pressure never
    raises the effective maximum of [createStabilityRateLimit], an admin
    or analytics path never gets less than any other path and never less
    than 200, and the maximum is never negative. *)
Theorem X15_effective_max_is_ordered :
  forall (options : Limiter.StabilityOptions) (req admin : Request),
    0 <= Js.or_default (Limiter.s_max options) 100 ->
    Limiter.isAdminPath (req_path admin) = true ->
    Limiter.stabilityMax options req Sample.pressure
    <= Limiter.stabilityMax options req Sample.healthy
    /\ Limiter.stabilityMax options req Sample.healthy
       <= Limiter.stabilityMax options admin Sample.healthy
    /\ Limiter.stabilityMax options req Sample.pressure
       <= Limiter.stabilityMax options admin Sample.pressure
    /\ 200 <= Limiter.stabilityMax options admin Sample.pressure
    /\ 0 <= Limiter.stabilityMax options req Sample.pressure.
Proof.
  intros options req admin Hbase Hadmin. unfold Limiter.stabilityMax.
  rewrite Hadmin. cbn [Limiter.isUnderPressure Sample.pressure Sample.healthy].
  pose proof (floor_half_bounds (Js.or_default (Limiter.s_max options) 100))
    as Hhalf.
  destruct (Limiter.isAdminPath (req_path req)); lia.
Qed.

(** X15 witness: the deployed [api] limiter. *)
Lemma X15_effective_max_is_ordered_witness :
  Limiter.stabilityMax Limiter.rateLimiters_api
    (Sample.anonymous "/api/projects") Sample.pressure
  <= Limiter.stabilityMax Limiter.rateLimiters_api
       (Sample.anonymous "/api/projects") Sample.healthy.
Proof.
  apply (X15_effective_max_is_ordered Limiter.rateLimiters_api
           (Sample.anonymous "/api/projects")
           (Sample.anonymous "/api/admin/users"));
    [cbn; lia | reflexivity].
Defined.

Lemma prefix_app p s :
  String.prefix p s = true <-> exists rest, s = p +:+ rest.
Proof.
  revert s. induction p as [| c p IH]; intros s; cbn.
  - split; [intros _; exists s; reflexivity | intros _; destruct s; reflexivity].
  - destruct s as [| d s]; cbn.
    + split; [discriminate | intros [rest H]; discriminate].
    + destruct (Ascii.ascii_dec c d) as [-> | Hne].
      * rewrite IH. split; intros [rest H]; exists rest.
        -- cbn. rewrite H. reflexivity.
        -- cbn in H. injection H as H. exact H.
      * split; [discriminate | intros [rest H]; injection H as Hc _; congruence].
Qed.

Lemma includes_contains s sub :
  Js.includes s sub = true <-> More.contains s sub.
Proof.
  unfold More.contains. induction s as [| c s IH]; cbn [Js.includes].
  - rewrite orb_false_r, prefix_app. split.
    + intros [rest H]. exists "", rest. exact H.
    + intros (before & after & H).
      destruct before; cbn in H; [exists after; exact H | discriminate].
  - rewrite orb_true_iff, prefix_app, IH. split.
    + intros [[rest H] | (before & after & H)].
      * exists "", rest. exact H.
      * exists (String c before), after. cbn. rewrite H. reflexivity.
    + intros (before & after & H). destruct before as [| d before]; cbn in H.
      * left. exists after. exact H.
      * right. injection H as -> H. exists before, after. exact H.
Qed.

(** X16.  A path is an admin path exactly when [/admin] or [/analytics]
    occurs somewhere in it, at any position: this is what quadruples the
    limit in [createStabilityRateLimit] and what puts a request at the
    head of the admission queue; and the queue is bypassed exactly by
    [/health], [/api/health] and every path in which [/auth/logout]
    occurs. *)
Theorem X16_admin_paths_are_substring_matches :
  forall (path : string),
    (Limiter.isAdminPath path = true
     <-> More.contains path "/admin" \/ More.contains path "/analytics")
    /\ Queue.isAdminRequest path = Limiter.isAdminPath path
    /\ (Queue.bypasses path = true
        <-> path = "/health" \/ path = "/api/health"
            \/ More.contains path "/auth/logout").
Proof.
  intros path. split; [| split].
  - unfold Limiter.isAdminPath.
    rewrite orb_true_iff, !includes_contains. reflexivity.
  - reflexivity.
  - unfold Queue.bypasses.
    rewrite !orb_true_iff, !String.eqb_eq, includes_contains. tauto.
Qed.

Lemma skip_privileged jwt_verify req :
  Limiter.smartSkip jwt_verify req = true -> Aux.privileged jwt_verify req.
Proof.
  unfold Limiter.smartSkip, Limiter.smartSkipBody, Aux.privileged.
  destruct (req_authorization req) as [authHeader |]; [| discriminate].
  destruct (String.eqb authHeader ""); [discriminate |]. cbn [orb].
  destruct (Js.startsWith authHeader "Bearer ") eqn:Hpre; [| discriminate].
  cbn [negb]. apply prefix_app in Hpre as [token ->].
  rewrite bearer_token.
  destruct (String.eqb_spec token "") as [-> | Htok]; [discriminate |].
  destruct (jwt_verify token) as [decoded |] eqn:Hver; [| discriminate].
  cbn [Limiter.bind Limiter.try_catch].
  destruct (Limiter.role decoded) as [r |] eqn:Hrole; [| discriminate].
  destruct (String.eqb_spec r "admin") as [-> | Hadmin];
    [intros _; exists token, decoded; auto |].
  destruct (String.eqb_spec r "moderator") as [-> | Hmod];
    [intros _; exists token, decoded; auto | discriminate].
Qed.

(** X17.  Nobody else is exempt: the [skip] callback of
    [createSmartLimiter] returns true exactly for a request whose
    [Authorization] header is [Bearer ] followed by a non-empty token
    that verifies with the role admin or moderator; every other request,
    a verified user of another role included, is counted. *)
Theorem X17_only_privileged_requests_skip :
  forall (jwt_verify : string -> Limiter.Throws Limiter.Decoded)
         (options : Limiter.SmartOptions) (now : Z) (req : Request)
         (store : gmap string Limiter.Window),
    (Limiter.smartSkip jwt_verify req = true
     <-> Aux.privileged jwt_verify req)
    /\ (Limiter.smartSkip jwt_verify req = false ->
        snd (Limiter.rateLimit (Limiter.createSmartLimiter jwt_verify options)
               now req (store, tt))
        = (snd (Limiter.increment (Limiter.m_windowMs options) now
                  (req_ip req) store), tt)).
Proof.
  intros jwt_verify options now req store. split.
  - split; [apply skip_privileged | apply privileged_skip].
  - intros Hskip. rewrite smart_rateLimit, Hskip. reflexivity.
Qed.

(** X17 witness: a verified token of the role user. *)
Lemma X17_only_privileged_requests_skip_witness :
  snd (Limiter.rateLimit
         (Limiter.createSmartLimiter Sample.verify
            {| Limiter.m_windowMs := Limiter.minutes15; Limiter.m_max := 300 |})
         0 (Sample.request "1.2.3.4" "/api/projects" (Some "Bearer user-token"))
         (∅, tt))
  = (snd (Limiter.increment Limiter.minutes15 0 "1.2.3.4" ∅), tt).
Proof.
  apply (X17_only_privileged_requests_skip Sample.verify
           {| Limiter.m_windowMs := Limiter.minutes15; Limiter.m_max := 300 |}
           0 (Sample.request "1.2.3.4" "/api/projects" (Some "Bearer user-token"))
           ∅).
  reflexivity.
Defined.

(** ** Health and errors *)

Lemma round_div_bounds a b :
  0 < b -> 2 * b * JsArray.round_div a b <= 2 * a + b < 2 * b * (JsArray.round_div a b + 1).
Proof.
  intros Hb. unfold JsArray.round_div.
  pose proof (Z.div_mod (2 * a + b) (2 * b) ltac:(lia)) as Hdm.
  pose proof (Z.mod_pos_bound (2 * a + b) (2 * b) ltac:(lia)) as Hm.
  lia.
Qed.

(** X18.  What the health endpoint answers: the status code is 503
    exactly when more than 20 requests wait in the queue or the heap is
    more than 90 percent full, and 200 in every other case; the status is
    healthy exactly when the memory monitor reports no pressure, at most
    10 requests wait and the heap is at most 90 percent full.  For a
    sample of the same reading, a heap more than 90 percent full implies
    the pressure flag, and the pressure flag implies a heap at least 85
    percent full. *)
Theorem X18_health_status :
  forall (memUsage : Stability.MemoryUsage)
         (memoryMonitor : Limiter.MemoryMonitor) (s : Queue.State),
    0 < Stability.heapTotal memUsage ->
    let health := Stability.healthCheck memUsage memoryMonitor s in
    let percent := Stability.percentage (Stability.memory health) in
    (Stability.statusCode health = 503
     <-> (20 < length (Queue.queue s))%nat \/ 90 < percent)
    /\ (Stability.statusCode health = 200 \/ Stability.statusCode health = 503)
    /\ (Stability.status health = Stability.Healthy
        <-> Limiter.isUnderPressure memoryMonitor = false
            /\ (length (Queue.queue s) <= 10)%nat /\ percent <= 90)
    /\ (90 < percent ->
        Limiter.isUnderPressure (Stability.sample memUsage) = true)
    /\ (Limiter.isUnderPressure (Stability.sample memUsage) = true ->
        85 <= percent).
Proof.
  intros memUsage memoryMonitor s Htotal health percent.
  subst percent health. unfold Stability.healthCheck.
  cbn [Stability.statusCode Stability.status Stability.memory
       Stability.memoryStatus Stability.percentage Stability.ms_underPressure
       Stability.queueStatus Stability.queueLength].
  pose proof (round_div_bounds (Stability.heapUsed memUsage * 100)
                (Stability.heapTotal memUsage) Htotal) as Hround.
  set (percent := JsArray.round_div _ _) in *.
  destruct (Nat.ltb_spec 20 (length (Queue.queue s))) as [Hq20 | Hq20];
    destruct (Z.ltb_spec 90 percent) as [Hp | Hp];
    destruct (Limiter.isUnderPressure memoryMonitor);
    destruct (Nat.ltb_spec 10 (length (Queue.queue s))) as [Hq10 | Hq10];
    cbn [orb];
    (split; [split; [intros H; try discriminate; tauto | intros [H | H]; (reflexivity || lia)] |]);
    (split; [tauto |]);
    (split; [split; [intros H; try discriminate; repeat split; lia
                    | intros (H1 & H2 & H3); (reflexivity || discriminate || lia)] |]);
    unfold Stability.sample, Stability.maxMemoryPercent;
    cbn [Limiter.isUnderPressure];
    (split; [intros H; apply Z.ltb_lt; nia | intros H; apply Z.ltb_lt in H; nia]).
Qed.

(** X18 witness: a heap of 100 MB half full, no pressure, an empty
    queue. *)
Lemma X18_health_status_witness :
  Stability.statusCode
    (Stability.healthCheck
       {| Stability.heapUsed := 50 * 1024 * 1024;
          Stability.heapTotal := 100 * 1024 * 1024 |}
       Sample.healthy Queue.requestQueue) = 200
  \/ Stability.statusCode
       (Stability.healthCheck
          {| Stability.heapUsed := 50 * 1024 * 1024;
             Stability.heapTotal := 100 * 1024 * 1024 |}
          Sample.healthy Queue.requestQueue) = 503.
Proof.
  apply (X18_health_status
           {| Stability.heapUsed := 50 * 1024 * 1024;
              Stability.heapTotal := 100 * 1024 * 1024 |}
           Sample.healthy Queue.requestQueue).
  reflexivity.
Defined.

(** X19.  [enhancedErrorHandler] writes at most once and leaks nothing in
    production: when the headers were already sent it hands the error on
    and writes no response; otherwise it always answers, with
    [success: false], the timestamp, a message and a code, and outside
    development mode the body has these four fields only, so neither the
    stack nor the error object is sent. *)
Theorem X19_error_answers_leak_nothing :
  forall (development : bool) (iso : string) (err : Stability.Err),
    Stability.enhancedErrorHandler development iso err true = Stability.PassOn
    /\ exists statusCode body,
         Stability.enhancedErrorHandler development iso err false
         = Stability.Reply statusCode body
         /\ field "success" body = Some (JBool false)
         /\ field "timestamp" body = Some (JStr iso)
         /\ (exists message code,
               field "message" body = Some (JStr message)
               /\ field "code" body = Some (JStr code))
         /\ (development = false ->
             length body = 4%nat
             /\ field "stack" body = None /\ field "details" body = None).
Proof.
  intros development iso err. split; [reflexivity |].
  unfold Stability.enhancedErrorHandler.
  destruct (if String.eqb (Stability.err_name err) "ValidationError" then _ else _)
    as [[statusCode message] code].
  eexists; eexists. split; [reflexivity |].
  split; [reflexivity | split; [reflexivity | split]].
  - exists message, code. split; reflexivity.
  - intros ->. repeat split.
Qed.

(** X19 witness: a plain error in production. *)
Lemma X19_error_answers_leak_nothing_witness :
  Stability.enhancedErrorHandler false "2026-01-01T00:00:00.000Z"
    {| Stability.err_name := "Error"; Stability.err_status := None;
       Stability.err_message := Some "boom";
       Stability.err_stack := Some "Error: boom at app.js:1";
       Stability.rendering := "{}" |} true
  = Stability.PassOn.
Proof.
  apply (X19_error_answers_leak_nothing false "2026-01-01T00:00:00.000Z").
Defined.

(** X20.  How an error maps to the answer: a [ValidationError] is
    answered 400 and an [UnauthorizedError] 401 whatever status they
    carry; for any other error with a non-zero status the answer carries
    that status, and its code is [UNAUTHORIZED], [FORBIDDEN], [NOT_FOUND]
    or [RATE_LIMITED] for 401, 403, 404 and 429 and [SERVER_ERROR] for
    every other status, with the error's own message when it has one; an
    error without a status, or with status 0, is answered 500. *)
Theorem X20_error_status_mapping :
  forall (development : bool) (iso : string) (err : Stability.Err),
    exists statusCode body,
      Stability.enhancedErrorHandler development iso err false
      = Stability.Reply statusCode body
      /\ (Stability.err_name err = "ValidationError" ->
          statusCode = 400
          /\ field "code" body = Some (JStr "VALIDATION_ERROR"))
      /\ (Stability.err_name err <> "ValidationError" ->
          Stability.err_name err = "UnauthorizedError" ->
          statusCode = 401 /\ field "code" body = Some (JStr "UNAUTHORIZED"))
      /\ (Stability.err_name err <> "ValidationError" ->
          Stability.err_name err <> "UnauthorizedError" ->
          match Stability.err_status err with
          | Some n =>
              if n =? 0 then statusCode = 500
              else
                statusCode = n
                /\ field "code" body
                   = Some (JStr (if n =? 401 then "UNAUTHORIZED"
                                 else if n =? 403 then "FORBIDDEN"
                                 else if n =? 404 then "NOT_FOUND"
                                 else if n =? 429 then "RATE_LIMITED"
                                 else "SERVER_ERROR"))
                /\ (n <> 401 -> n <> 403 -> n <> 404 -> n <> 429 ->
                    field "message" body
                    = Some (JStr (Js.or_default_str (Stability.err_message err)
                                    "Internal server error")))
          | None =>
              statusCode = 500
              /\ field "code" body = Some (JStr "SERVER_ERROR")
              /\ field "message" body = Some (JStr "Internal server error")
          end).
Proof.
  intros development iso err.
  unfold Stability.enhancedErrorHandler, Stability.status_is.
  destruct (String.eqb_spec (Stability.err_name err) "ValidationError")
    as [Hv | Hv].
  { eexists; eexists. split; [reflexivity |].
    split; [intros _; split; reflexivity |]. split; intros; contradiction. }
  destruct (String.eqb_spec (Stability.err_name err) "UnauthorizedError")
    as [Hu | Hu].
  { eexists; eexists. split; [reflexivity |].
    split; [intros; contradiction |].
    split; [intros _ _; split; reflexivity | intros; contradiction]. }
  cbn [orb].
  destruct (Stability.err_status err) as [n |].
  - destruct (Z.eqb_spec n 401) as [-> | H401].
    { eexists; eexists. split; [reflexivity |].
      split; [intros; contradiction |]. split; [intros; contradiction |].
      intros _ _. cbn. split; [reflexivity | split; [reflexivity | lia]]. }
    destruct (Z.eqb_spec n 403) as [-> | H403].
    { eexists; eexists. split; [reflexivity |].
      split; [intros; contradiction |]. split; [intros; contradiction |].
      intros _ _. cbn. split; [reflexivity | split; [reflexivity | lia]]. }
    destruct (Z.eqb_spec n 404) as [-> | H404].
    { eexists; eexists. split; [reflexivity |].
      split; [intros; contradiction |]. split; [intros; contradiction |].
      intros _ _. cbn. split; [reflexivity | split; [reflexivity | lia]]. }
    destruct (Z.eqb_spec n 429) as [-> | H429].
    { eexists; eexists. split; [reflexivity |].
      split; [intros; contradiction |]. split; [intros; contradiction |].
      intros _ _. cbn. split; [reflexivity | split; [reflexivity | lia]]. }
    destruct (Z.eqb_spec n 0) as [-> | H0].
    { eexists; eexists. split; [reflexivity |].
      split; [intros; contradiction |]. split; [intros; contradiction |].
      intros _ _. reflexivity. }
    eexists; eexists. split; [reflexivity |].
    split; [intros; contradiction |]. split; [intros; contradiction |].
    intros _ _. split; [reflexivity | split; [reflexivity |]].
    intros _ _ _ _. reflexivity.
  - eexists; eexists. split; [reflexivity |].
    split; [intros; contradiction |]. split; [intros; contradiction |].
    intros _ _. repeat split.
Qed.

(** X20 witness: an error with status 422 and no special name. *)
Lemma X20_error_status_mapping_witness :
  exists statusCode body,
    Stability.enhancedErrorHandler false "2026-01-01T00:00:00.000Z"
      {| Stability.err_name := "Error"; Stability.err_status := Some 422;
         Stability.err_message := Some "Unprocessable";
         Stability.err_stack := None; Stability.rendering := "{}" |} false
    = Stability.Reply statusCode body
    /\ statusCode = 422.
Proof.
  destruct (X20_error_status_mapping false "2026-01-01T00:00:00.000Z"
              {| Stability.err_name := "Error"; Stability.err_status := Some 422;
                 Stability.err_message := Some "Unprocessable";
                 Stability.err_stack := None; Stability.rendering := "{}" |})
    as (statusCode & body & Hreply & _ & _ & Hother).
  exists statusCode, body. split; [exact Hreply |].
  apply Hother; discriminate.
Defined.

(** ** The ledger of the admission queue *)

Lemma splice_perm id q :
  In id (Queue.ids q) ->
  Permutation (Queue.ids q) (id :: Queue.ids (Queue.splice_item id q)).
Proof.
  induction q as [| it q IH]; cbn; [tauto |].
  destruct (Nat.eqb_spec (Queue.item_id it) id) as [-> | Hne].
  - intros _. reflexivity.
  - intros [H | H]; [contradiction |].
    cbn. rewrite (IH H) at 1. apply perm_swap.
Qed.

Lemma change_ledger s s' :
  Aux.change s s' ->
  Permutation (Queue.ids (Queue.queue s)
               ++ List.map More.effect_id (Queue.effects s))
              (seq 0 (Queue.nextId s)) ->
  Permutation (Queue.ids (Queue.queue s')
               ++ List.map More.effect_id (Queue.effects s'))
              (seq 0 (Queue.nextId s')).
Proof.
  intros Hch H.
  destruct Hch as [Hq Ht Hn He | Hq Ht Hn He | it Hid Hq Ht Hn He
                   | it Hq Ht Hn He | id Hin Hq Ht Hn He | id Hnot Hq Ht Hn He];
    rewrite ?Hn, ?He; cbn [List.map More.effect_id].
  - rewrite Hq. exact H.
  - rewrite Hq, List.seq_S. cbn [Nat.add].
    rewrite <- Permutation_middle, H. apply Permutation_cons_append.
  - rewrite Hq, List.seq_S. cbn [Nat.add].
    destruct (Queue.isAdmin it).
    + cbn. rewrite Hid, H. apply Permutation_cons_append.
    + rewrite ids_app. cbn. rewrite Hid, <- List.app_assoc. cbn.
      rewrite <- Permutation_middle, H. apply Permutation_cons_append.
  - rewrite Hq in H. cbn in H. rewrite <- Permutation_middle. exact H.
  - rewrite Hq, <- Permutation_middle.
    rewrite (splice_perm id _ Hin) in H. exact H.
  - rewrite Hq. exact H.
Qed.

Lemma change_busy s s' :
  Aux.change s s' ->
  Forall (fun e => match e with
                   | Queue.Entered _ => True
                   | Queue.Answered _ status body =>
                       status = 503 /\ body = Queue.busyBody
                   end) (Queue.effects s) ->
  Forall (fun e => match e with
                   | Queue.Entered _ => True
                   | Queue.Answered _ status body =>
                       status = 503 /\ body = Queue.busyBody
                   end) (Queue.effects s').
Proof.
  intros Hch H.
  destruct Hch as [Hq Ht Hn He | Hq Ht Hn He | it Hid Hq Ht Hn He
                   | it Hq Ht Hn He | id Hin Hq Ht Hn He | id Hnot Hq Ht Hn He];
    rewrite He; try exact H; constructor; auto.
Qed.

Lemma run_ledger es : forall s0 s,
  Queue.run es s0 = Some s ->
  Permutation (Queue.ids (Queue.queue s0)
               ++ List.map More.effect_id (Queue.effects s0))
              (seq 0 (Queue.nextId s0))
  /\ Forall (fun e => match e with
                      | Queue.Entered _ => True
                      | Queue.Answered _ status body =>
                          status = 503 /\ body = Queue.busyBody
                      end) (Queue.effects s0) ->
  Permutation (Queue.ids (Queue.queue s)
               ++ List.map More.effect_id (Queue.effects s))
              (seq 0 (Queue.nextId s))
  /\ Forall (fun e => match e with
                      | Queue.Entered _ => True
                      | Queue.Answered _ status body =>
                          status = 503 /\ body = Queue.busyBody
                      end) (Queue.effects s).
Proof.
  induction es as [| e es IH]; cbn; intros s0 s.
  - intros [= <-] H0. exact H0.
  - destruct (Queue.step e s0) as [s1 |] eqn:E; [| discriminate].
    intros Hrun [H1 H2]. apply (IH s1 s Hrun).
    pose proof (step_change _ _ _ E) as Hch.
    split; [exact (change_ledger _ _ Hch H1) | exact (change_busy _ _ Hch H2)].
Qed.

(** X21.  No request is lost and none is served twice: in every state the
    queue reaches, each request that has arrived is accounted for exactly
    once, as waiting in the queue, as passed to the handlers with
    [next()], or as answered; and every answer the queue writes is the
    503 with the code [SERVER_BUSY]. *)
Theorem X21_every_request_is_accounted_for_once :
  forall (m : Z) (es : list Queue.Event) (s : Queue.State),
    Queue.run es (Queue.new m) = Some s ->
    let ledger :=
      Queue.ids (Queue.queue s) ++ List.map More.effect_id (Queue.effects s) in
    Permutation ledger (seq 0 (Queue.nextId s))
    /\ List.NoDup ledger
    /\ (forall id, (id < Queue.nextId s)%nat <-> In id ledger)
    /\ Forall (fun e => match e with
                        | Queue.Entered _ => True
                        | Queue.Answered _ status body =>
                            status = 503 /\ body = Queue.busyBody
                        end) (Queue.effects s).
Proof.
  intros m es s Hrun ledger. subst ledger.
  destruct (run_ledger es (Queue.new m) s Hrun) as [Hperm Hbusy];
    [split; [reflexivity | constructor] |].
  split; [exact Hperm |].
  split; [| split; [| exact Hbusy]].
  - apply (Permutation_NoDup (Permutation_sym Hperm)). apply List.seq_NoDup.
  - intros id. split.
    + intros Hlt. apply (Permutation_in _ (Permutation_sym Hperm)).
      apply List.in_seq. lia.
    + intros Hin. apply (Permutation_in _ Hperm) in Hin.
      apply List.in_seq in Hin. lia.
Qed.

(** X21 witness: two admin requests queued behind a request in flight,
    one of them drained. *)
Lemma X21_every_request_is_accounted_for_once_witness :
  List.NoDup
    (Queue.ids (Queue.queue (Sample.after Sample.two_admins_drained))
     ++ List.map More.effect_id
          (Queue.effects (Sample.after Sample.two_admins_drained))).
Proof.
  destruct (X21_every_request_is_accounted_for_once
              30 Sample.two_admins_drained
              (Sample.after Sample.two_admins_drained)) as (_ & Hnodup & _).
  - vm_compute. reflexivity.
  - exact Hnodup.
Defined.

(** ** Timeouts of queued requests *)

Lemma deadline_of_app_l id d ts more :
  Queue.deadline_of id ts = Some d ->
  Queue.deadline_of id (ts ++ more) = Some d.
Proof.
  induction ts as [| [i di] ts IH]; cbn; [discriminate |].
  destruct (id =? i)%nat; [tauto | exact IH].
Qed.

Lemma deadline_of_snoc_new id d ts :
  Queue.deadline_of id ts = None ->
  Queue.deadline_of id (ts ++ [(id, d)]) = Some d.
Proof.
  induction ts as [| [i di] ts IH]; cbn.
  - rewrite Nat.eqb_refl. reflexivity.
  - destruct (id =? i)%nat; [discriminate | exact IH].
Qed.

Lemma deadline_of_disarm_ne id id' ts :
  id' <> id ->
  Queue.deadline_of id' (Aux.disarm id ts) = Queue.deadline_of id' ts.
Proof.
  intros Hne. induction ts as [| [i di] ts IH]; cbn; [reflexivity |].
  destruct (Nat.eqb_spec i id) as [-> | Hi]; cbn.
  - destruct (Nat.eqb_spec id' id); [contradiction | exact IH].
  - destruct (id' =? i)%nat; [reflexivity | exact IH].
Qed.

Lemma step_clock e s s' :
  Queue.step e s = Some s' -> Queue.clock s <= Queue.clock s'.
Proof.
  destruct e as [req | id | id ev | | dt | pressure]; cbn.
  - intros [= <-]. unfold Queue.middleware, Queue.processQueue.
    repeat (match goal with
            | |- context [if ?c then _ else _] => destruct c
            | |- context [match ?q with [] => _ | _ :: _ => _ end] => destruct q
            end; cbn); lia.
  - destruct (Queue.deadline_of id (Queue.timers s)); [| discriminate].
    destruct (_ <=? _); [| discriminate].
    intros [= <-]. unfold Queue.onTimeout.
    destruct (existsb _ _); cbn; lia.
  - destruct (Queue.listener_of id (Queue.listeners s)) as [[|] |];
      intros [= <-]; cbn; try lia.
    unfold Queue.processQueue.
    repeat (match goal with
            | |- context [if ?c then _ else _] => destruct c
            | |- context [match ?q with [] => _ | _ :: _ => _ end] => destruct q
            end; cbn); lia.
  - destruct (Queue.immediates s); [discriminate |].
    intros [= <-]. unfold Queue.processQueue.
    repeat (match goal with
            | |- context [if ?c then _ else _] => destruct c
            | |- context [match ?q with [] => _ | _ :: _ => _ end] => destruct q
            end; cbn); lia.
  - destruct (Z.leb_spec 0 dt); [| discriminate].
    intros [= <-]. cbn. lia.
  - intros [= <-]. cbn. lia.
Qed.

Lemma change_due s s' :
  Aux.inv s -> Aux.change s s' -> Queue.clock s <= Queue.clock s' ->
  (forall id, In id (Queue.ids (Queue.queue s)) ->
              exists d, Queue.deadline_of id (Queue.timers s) = Some d
                        /\ d <= Queue.clock s + Queue.queue_timeout_ms) ->
  forall id, In id (Queue.ids (Queue.queue s')) ->
             exists d, Queue.deadline_of id (Queue.timers s') = Some d
                       /\ d <= Queue.clock s' + Queue.queue_timeout_ms.
Proof.
  intros Hinv Hch Hclock Hdue.
  destruct Hch as [Hq Ht Hn He | Hq Ht Hn He | it Hid Hq Ht Hn He
                   | it Hq Ht Hn He | id0 Hin Hq Ht Hn He | id0 Hnot Hq Ht Hn He];
    rewrite Ht; try rewrite Hq; intros id Hid'.
  - destruct (Hdue id Hid') as (d & Hd & Hle). exists d. split; [exact Hd | lia].
  - destruct (Hdue id Hid') as (d & Hd & Hle). exists d. split; [exact Hd | lia].
  - assert (id = Queue.nextId s \/ In id (Queue.ids (Queue.queue s)))
      as [-> | Hold].
    { destruct (Queue.isAdmin it); [cbn in Hid'; intuition congruence |].
      rewrite ids_app in Hid'. apply List.in_app_iff in Hid'.
      cbn in Hid'. intuition congruence. }
    + exists (Queue.clock s + Queue.queue_timeout_ms). split; [| lia].
      apply deadline_of_snoc_new.
      destruct (Queue.deadline_of (Queue.nextId s) (Queue.timers s)) as [d |] eqn:E;
        [| reflexivity].
      pose proof (Aux.inv_fresh _ Hinv _ (Aux.inv_armed _ Hinv _ _ E)). lia.
    + destruct (Hdue id Hold) as (d & Hd & Hle). exists d.
      split; [apply deadline_of_app_l; exact Hd | lia].
  - pose proof (Aux.inv_nodup _ Hinv) as Hnd. rewrite Hq in Hnd. cbn in Hnd.
    apply List.NoDup_cons_iff in Hnd as [Hhead _].
    destruct (Hdue id) as (d & Hd & Hle); [rewrite Hq; right; exact Hid' |].
    exists d. split; [| lia].
    rewrite deadline_of_disarm_ne; [exact Hd |].
    intros ->. exact (Hhead Hid').
  - destruct (Hdue id (splice_ids_incl _ _ _ Hid')) as (d & Hd & Hle).
    exists d. split; [| lia].
    rewrite deadline_of_disarm_ne; [exact Hd |].
    intros ->. exact (splice_removes _ _ (Aux.inv_nodup _ Hinv) Hid').
  - destruct (Hdue id Hid') as (d & Hd & Hle). exists d. split; [| lia].
    rewrite deadline_of_disarm_ne; [exact Hd | congruence].
Qed.

Lemma run_due es : forall s0 s,
  Aux.inv s0 -> Queue.run es s0 = Some s ->
  (forall id, In id (Queue.ids (Queue.queue s0)) ->
              exists d, Queue.deadline_of id (Queue.timers s0) = Some d
                        /\ d <= Queue.clock s0 + Queue.queue_timeout_ms) ->
  forall id, In id (Queue.ids (Queue.queue s)) ->
             exists d, Queue.deadline_of id (Queue.timers s) = Some d
                       /\ d <= Queue.clock s + Queue.queue_timeout_ms.
Proof.
  induction es as [| e es IH]; cbn; intros s0 s Hinv.
  - intros [= <-] H. exact H.
  - destruct (Queue.step e s0) as [s1 |] eqn:E; [| discriminate].
    intros Hrun H0. pose proof (step_change _ _ _ E) as Hch.
    apply (IH s1 s (change_inv _ _ Hch Hinv) Hrun).
    exact (change_due s0 s1 Hinv Hch (step_clock _ _ _ E) H0).
Qed.

(** X22.  No request waits longer than ten seconds: in every state the
    queue reaches, every queued request has a timeout armed whose deadline
    is at most ten seconds ahead of the clock, so once ten seconds have
    passed the timeout of any request still queued is due. *)
Theorem X22_queued_requests_have_a_timeout :
  forall (m : Z) (es : list Queue.Event) (s : Queue.State) (id : nat),
    Queue.run es (Queue.new m) = Some s ->
    In id (Queue.ids (Queue.queue s)) ->
    (exists d, Queue.deadline_of id (Queue.timers s) = Some d
               /\ d <= Queue.clock s + 10000)
    /\ exists later timedOut,
         Queue.step (Queue.Tick 10000) s = Some later
         /\ Queue.step (Queue.Fire id) later = Some timedOut.
Proof.
  intros m es s id Hrun Hin.
  assert (exists d, Queue.deadline_of id (Queue.timers s) = Some d
                    /\ d <= Queue.clock s + Queue.queue_timeout_ms)
    as (d & Hd & Hle).
  { apply (run_due es (Queue.new m) s (new_inv m) Hrun); [| exact Hin].
    cbn. tauto. }
  unfold Queue.queue_timeout_ms in Hle.
  split; [exists d; split; [exact Hd | exact Hle] |].
  eexists; eexists. split; [reflexivity |].
  cbn. rewrite Hd.
  destruct (Z.leb_spec d (Queue.clock s + 10000)); [reflexivity | lia].
Qed.

(** X22 witness: the request left waiting in the sample history. *)
Lemma X22_queued_requests_have_a_timeout_witness :
  exists d, Queue.deadline_of 0 (Queue.timers Sample.waiting) = Some d
            /\ d <= Queue.clock Sample.waiting + 10000.
Proof.
  apply (X22_queued_requests_have_a_timeout 30 Sample.left_waiting
           Sample.waiting 0%nat).
  - vm_compute. reflexivity.
  - vm_compute. left. reflexivity.
Defined.

(** ** Completion events and the drain *)

Lemma processQueue_idle s :
  Queue.isProcessing s = true \/ Queue.queue s = [] ->
  Queue.processQueue s = s.
Proof.
  intros [H | H]; unfold Queue.processQueue; rewrite H; cbn.
  - reflexivity.
  - rewrite orb_true_r. reflexivity.
Qed.

(** X23.  The cleanup of an admitted response is not idempotent: each
    finish, close or error event the response emits lowers the active
    count by one, so a response admitted on arrival that emits two of them
    while nothing can be drained lowers the count by two. *)
Theorem X23_each_event_releases_a_slot :
  forall (s : Queue.State) (id : nat) (first second : Queue.ResEvent),
    Queue.listener_of id (Queue.listeners s) = Some Queue.CleanupDirect ->
    Queue.isProcessing s = true \/ Queue.queue s = [] ->
    exists s',
      Queue.run [Queue.Emit id first; Queue.Emit id second] s = Some s'
      /\ Queue.activeRequests s' = Queue.activeRequests s - 2
      /\ Queue.queue s' = Queue.queue s
      /\ Queue.effects s' = Queue.effects s.
Proof.
  intros s id first second Hl Hidle.
  cbn [Queue.run Queue.step]. rewrite Hl. cbn [Queue.cleanup].
  rewrite processQueue_idle by exact Hidle.
  cbn [Queue.listeners]. rewrite Hl. cbn [Queue.cleanup].
  rewrite processQueue_idle by exact Hidle.
  eexists. split; [reflexivity |]. cbn. repeat split. lia.
Qed.

(** X23 witness: the first request to the deployed queue finishes and
    closes. *)
Lemma X23_each_event_releases_a_slot_witness :
  exists s',
    Queue.run [Queue.Emit 0 Queue.Finish; Queue.Emit 0 Queue.Close]
      (Sample.after [Queue.Arrive (Sample.anonymous "/api/projects")])
    = Some s'
    /\ Queue.activeRequests s' = - 1.
Proof.
  destruct (X23_each_event_releases_a_slot
              (Sample.after [Queue.Arrive (Sample.anonymous "/api/projects")])
              0%nat Queue.Finish Queue.Close)
    as (s' & Hrun & Hactive & _).
  - reflexivity.
  - right. reflexivity.
  - exists s'. split; [exact Hrun | rewrite Hactive; reflexivity].
Defined.

(** X24.  The drain is single-flight: while a request admitted from the
    queue is in flight ([isProcessing] is set), no event admits another
    queued request, whatever capacity is free; the only request an event
    can pass on is the one that arrives with it. *)
Theorem X24_drain_is_single_flight :
  forall (s s' : Queue.State) (e : Queue.Event) (id : nat),
    Queue.isProcessing s = true ->
    Queue.step e s = Some s' ->
    In (Queue.Entered id) (Queue.effects s') ->
    In (Queue.Entered id) (Queue.effects s) \/ id = Queue.nextId s.
Proof.
  intros s s' e id Hproc.
  destruct e as [req | id0 | id0 ev | | dt | pressure]; cbn.
  - intros [= <-]. unfold Queue.middleware.
    destruct (Queue.bypasses (req_path req));
      [cbn; intros [[= <-] | H]; auto |].
    destruct ((Queue.activeRequests s <? Queue.maxConcurrent s)
              && negb (Queue.underPressure s));
      [cbn; intros [[= <-] | H]; auto |].
    rewrite processQueue_idle by (left; exact Hproc). cbn. auto.
  - destruct (Queue.deadline_of id0 (Queue.timers s)); [| discriminate].
    destruct (_ <=? _); [| discriminate].
    intros [= <-]. unfold Queue.onTimeout.
    destruct (existsb _ _); cbn; [intros [H | H]; [discriminate | auto] | auto].
  - destruct (Queue.listener_of id0 (Queue.listeners s)) as [[|] |];
      intros [= <-]; cbn; auto.
    rewrite processQueue_idle by (left; exact Hproc). cbn. auto.
  - destruct (Queue.immediates s); [discriminate |].
    intros [= <-]. rewrite processQueue_idle by (left; exact Hproc). cbn. auto.
  - destruct (0 <=? dt); [| discriminate]. intros [= <-]. cbn. auto.
  - intros [= <-]. cbn. auto.
Qed.

(** X24 witness: with the second admin request drained and in flight, the
    close of the first response admits nobody. *)
Lemma X24_drain_is_single_flight_witness :
  In (Queue.Entered 2) (Queue.effects (Sample.after Sample.two_admins_drained))
  \/ 2%nat = Queue.nextId (Sample.after Sample.two_admins_drained).
Proof.
  apply (X24_drain_is_single_flight
           (Sample.after Sample.two_admins_drained)
           (Sample.after (Sample.two_admins_drained ++ [Queue.Emit 0 Queue.Close]))
           (Queue.Emit 0 Queue.Close) 2%nat).
  - reflexivity.
  - vm_compute. reflexivity.
  - vm_compute. tauto.
Defined.

(** ** What the logging limiter records *)

Lemma logged_counts now req isBlocked analytics :
  Analytics.currentRequests (Analytics.realTimeStats (Aux.logged now req isBlocked analytics))
  = S (Analytics.currentRequests (Analytics.realTimeStats analytics))
  /\ Analytics.rt_blockedRequests
       (Analytics.realTimeStats (Aux.logged now req isBlocked analytics))
     = (Analytics.rt_blockedRequests (Analytics.realTimeStats analytics)
        + if isBlocked then 1 else 0)%nat
  /\ Analytics.count_of (req_ip req)
       (Analytics.violations (Aux.logged now req isBlocked analytics))
     = (Analytics.count_of (req_ip req) (Analytics.violations analytics)
        + if isBlocked then 1 else 0)%nat
  /\ Aux.endpoint_total (req_originalUrl req) (Aux.logged now req isBlocked analytics)
     = S (Aux.endpoint_total (req_originalUrl req) analytics).
Proof.
  unfold Aux.logged. split; [reflexivity | split; [| split]].
  - cbn. destruct isBlocked; lia.
  - cbn [Analytics.logRequest Analytics.violations].
    destruct isBlocked; [| lia].
    unfold Analytics.count_of at 1. rewrite get_set_eq. reflexivity.
  - apply logRequest_endpoint_total.
Qed.

Lemma analytics_rateLimit_counts options now req store analytics :
  let result := Limiter.rateLimit (Limiter.createAnalyticsLimiter options)
                  now req (store, analytics) in
  let after := snd (snd result) in
  let calls := match fst result with Next => 1%nat | Respond _ _ => 2%nat end in
  Analytics.currentRequests (Analytics.realTimeStats after)
  = (Analytics.currentRequests (Analytics.realTimeStats analytics) + calls)%nat
  /\ Analytics.rt_blockedRequests (Analytics.realTimeStats after)
     = (Analytics.rt_blockedRequests (Analytics.realTimeStats analytics)
        + (calls - 1))%nat
  /\ Analytics.count_of (req_ip req) (Analytics.violations after)
     = (Analytics.count_of (req_ip req) (Analytics.violations analytics)
        + (calls - 1))%nat
  /\ Aux.endpoint_total (req_originalUrl req) after
     = (Aux.endpoint_total (req_originalUrl req) analytics + calls)%nat.
Proof.
  cbv zeta. rewrite analytics_rateLimit. cbv zeta.
  destruct (Limiter.a_max options <? _); cbn [fst snd].
  - destruct (logged_counts now req false analytics) as (A1 & A2 & A3 & A4).
    destruct (logged_counts now req true (Aux.logged now req false analytics))
      as (B1 & B2 & B3 & B4).
    rewrite B1, B2, B3, B4, A1, A2, A3, A4. repeat split; lia.
  - destruct (logged_counts now req false analytics) as (A1 & A2 & A3 & A4).
    rewrite A1, A2, A3, A4. repeat split; lia.
Qed.

Lemma serve_half options reqs : forall store analytics,
  (2 * Analytics.rt_blockedRequests (Analytics.realTimeStats analytics)
   <= Analytics.currentRequests (Analytics.realTimeStats analytics))%nat ->
  let after := snd (snd (Limiter.serve (Limiter.createAnalyticsLimiter options)
                           reqs (store, analytics))) in
  (2 * Analytics.rt_blockedRequests (Analytics.realTimeStats after)
   <= Analytics.currentRequests (Analytics.realTimeStats after))%nat.
Proof.
  induction reqs as [| [now req] reqs IH]; intros store analytics H; [exact H |].
  cbn [Limiter.serve]. cbv zeta.
  pose proof (analytics_rateLimit_counts options now req store analytics)
    as Hcounts. cbv zeta in Hcounts.
  destruct (Limiter.rateLimit (Limiter.createAnalyticsLimiter options) now req
              (store, analytics)) as [out [store1 analytics1]].
  cbn [fst snd] in Hcounts. destruct Hcounts as (H1 & H2 & _).
  specialize (IH store1 analytics1). cbv zeta in IH.
  destruct (Limiter.serve (Limiter.createAnalyticsLimiter options) reqs
              (store1, analytics1)) as [outs [store2 analytics2]].
  cbn [fst snd] in *. apply IH. destruct out; lia.
Qed.

(** X25.  A limiter of [createAnalyticsLimiter] logs every request as
    allowed before it is counted, and a rejected request once more as
    blocked: an admitted request adds one to [currentRequests] and to its
    endpoint's total, a rejected one adds two to both and one to the
    blocked counter and to the client's violations.  So for traffic
    through these limiters from an empty store the real-time blocked
    count never exceeds half of [currentRequests]. *)
Theorem X25_rejections_are_logged_twice :
  forall (options : Limiter.AnalyticsOptions) (now : Z) (req : Request)
         (reqs : list (Z * Request))
         (store : gmap string Limiter.Window) (analytics : Analytics.Store),
    let result := Limiter.rateLimit (Limiter.createAnalyticsLimiter options)
                    now req (store, analytics) in
    let after := snd (snd result) in
    let calls := match fst result with Next => 1%nat | Respond _ _ => 2%nat end in
    let served := snd (snd (Limiter.serve (Limiter.createAnalyticsLimiter options)
                              reqs (store, Analytics.empty))) in
    Analytics.currentRequests (Analytics.realTimeStats after)
    = (Analytics.currentRequests (Analytics.realTimeStats analytics) + calls)%nat
    /\ Analytics.rt_blockedRequests (Analytics.realTimeStats after)
       = (Analytics.rt_blockedRequests (Analytics.realTimeStats analytics)
          + (calls - 1))%nat
    /\ Analytics.count_of (req_ip req) (Analytics.violations after)
       = (Analytics.count_of (req_ip req) (Analytics.violations analytics)
          + (calls - 1))%nat
    /\ Aux.endpoint_total (req_originalUrl req) after
       = (Aux.endpoint_total (req_originalUrl req) analytics + calls)%nat
    /\ (2 * Analytics.rt_blockedRequests (Analytics.realTimeStats served)
        <= Analytics.currentRequests (Analytics.realTimeStats served))%nat.
Proof.
  intros options now req reqs store analytics. cbv zeta.
  destruct (analytics_rateLimit_counts options now req store analytics)
    as (H1 & H2 & H3 & H4).
  split; [exact H1 | split; [exact H2 | split; [exact H3 | split; [exact H4 |]]]].
  apply serve_half. cbn. lia.
Qed.

(** ** The cap on concurrency *)

Lemma processQueue_cap s :
  Queue.activeRequests s <= Queue.maxConcurrent s ->
  Queue.maxConcurrent (Queue.processQueue s) = Queue.maxConcurrent s
  /\ Queue.activeRequests (Queue.processQueue s) <= Queue.maxConcurrent s.
Proof.
  intros H. unfold Queue.processQueue.
  destruct (Queue.isProcessing s || (length (Queue.queue s) =? 0)%nat);
    [split; [reflexivity | exact H] |].
  destruct (Z.leb_spec (Queue.maxConcurrent s) (Queue.activeRequests s));
    cbn [orb]; [split; [reflexivity | exact H] |].
  destruct (Queue.underPressure s); [split; [reflexivity | exact H] |].
  destruct (Queue.queue s); cbn; [split; [reflexivity | exact H] |].
  split; [reflexivity | lia].
Qed.

Lemma step_cap e s s' :
  Queue.step e s = Some s' ->
  Queue.activeRequests s <= Queue.maxConcurrent s ->
  Queue.maxConcurrent s' = Queue.maxConcurrent s
  /\ Queue.activeRequests s' <= Queue.maxConcurrent s.
Proof.
  destruct e as [req | id | id ev | | dt | pressure]; cbn; intros Hstep Hcap.
  - injection Hstep as <-. unfold Queue.middleware.
    destruct (Queue.bypasses (req_path req)); [cbn; split; [reflexivity | exact Hcap] |].
    destruct (Z.ltb_spec (Queue.activeRequests s) (Queue.maxConcurrent s));
      cbn [andb].
    + destruct (Queue.underPressure s) eqn:Hp; cbn [negb].
      * rewrite processQueue_blocked by (right; reflexivity).
        cbn. split; [reflexivity | exact Hcap].
      * cbn. split; [reflexivity | lia].
    + rewrite processQueue_blocked by (left; cbn; lia).
      cbn. split; [reflexivity | exact Hcap].
  - destruct (Queue.deadline_of id (Queue.timers s)); [| discriminate].
    destruct (_ <=? _); [| discriminate].
    injection Hstep as <-. unfold Queue.onTimeout.
    destruct (existsb _ _); cbn; split; (reflexivity || exact Hcap).
  - destruct (Queue.listener_of id (Queue.listeners s)) as [[|] |];
      injection Hstep as <-; cbn.
    + match goal with
      | |- context [Queue.processQueue ?s0] =>
          destruct (processQueue_cap s0) as [Hm Ha]; [cbn; lia |]
      end.
      cbn in Hm, Ha. split; assumption.
    + split; [reflexivity | lia].
    + split; [reflexivity | exact Hcap].
  - destruct (Queue.immediates s); [discriminate |].
    injection Hstep as <-.
    match goal with
    | |- context [Queue.processQueue ?s0] =>
        destruct (processQueue_cap s0) as [Hm Ha]; [cbn; exact Hcap |]
    end.
    cbn in Hm, Ha. split; assumption.
  - destruct (0 <=? dt); [| discriminate].
    injection Hstep as <-. cbn. split; [reflexivity | exact Hcap].
  - injection Hstep as <-. cbn. split; [reflexivity | exact Hcap].
Qed.

Lemma run_cap es : forall s0 s,
  Queue.run es s0 = Some s ->
  Queue.activeRequests s0 <= Queue.maxConcurrent s0 ->
  Queue.maxConcurrent s = Queue.maxConcurrent s0
  /\ Queue.activeRequests s <= Queue.maxConcurrent s0.
Proof.
  induction es as [| e es IH]; cbn; intros s0 s.
  - intros [= <-] H. split; [reflexivity | exact H].
  - destruct (Queue.step e s0) as [s1 |] eqn:E; [| discriminate].
    intros Hrun H0. destruct (step_cap e s0 s1 E H0) as [Hm Ha].
    destruct (IH s1 s Hrun) as [Hm' Ha']; [lia |].
    split; [congruence | lia].
Qed.

(** X26.  The active count never passes the cap: for a queue built with a
    maximum that is not negative, in every state it reaches
    [activeRequests] is at most [maxConcurrent], which never changes. *)
Theorem X26_active_count_stays_within_the_cap :
  forall (m : Z) (es : list Queue.Event) (s : Queue.State),
    0 <= m ->
    Queue.run es (Queue.new m) = Some s ->
    Queue.maxConcurrent s = m /\ Queue.activeRequests s <= m.
Proof.
  intros m es s Hm Hrun.
  apply (run_cap es (Queue.new m) s Hrun). cbn. exact Hm.
Qed.

(** X26 witness: the deployed queue after the sample history. *)
Lemma X26_active_count_stays_within_the_cap_witness :
  Queue.maxConcurrent (Sample.after Sample.two_admins_drained) = 30
  /\ Queue.activeRequests (Sample.after Sample.two_admins_drained) <= 30.
Proof.
  apply (X26_active_count_stays_within_the_cap 30 Sample.two_admins_drained).
  - lia.
  - vm_compute. reflexivity.
Defined.

(** ** Recent requests *)

(** X27.  The recent lists are what they say: [getAnalytics()] lists at
    most 20 requests, newest first, each a record of the store of the
    trailing hour, and [getIPAnalytics(ip)] lists at most 50 requests,
    newest first, each a record of the store for that client. *)
Theorem X27_recent_lists_are_newest_first :
  forall (now : Z) (ip0 : string) (st : Analytics.Store),
    let recent := Analytics.recentRequests (Analytics.getAnalytics now st) in
    let activity :=
      Analytics.ipa_recentActivity (Analytics.getIPAnalytics ip0 st) in
    (length recent <= 20)%nat
    /\ StronglySorted
         (fun a b => Analytics.timestamp b <= Analytics.timestamp a) recent
    /\ Forall (fun r => In r (Js.values (Analytics.requests st))
                        /\ now - Analytics.hour_ms <= Analytics.timestamp r)
              recent
    /\ (length activity <= 50)%nat
    /\ StronglySorted
         (fun a b => Analytics.timestamp b <= Analytics.timestamp a) activity
    /\ Forall (fun r => In r (Js.values (Analytics.requests st))
                        /\ Analytics.ip r = ip0) activity.
Proof.
  intros now ip0 st recent activity. subst recent activity.
  cbn [Analytics.getAnalytics Analytics.recentRequests
       Analytics.getIPAnalytics Analytics.ipa_recentActivity].
  unfold Js.slice0.
  assert (forall n (l : list Analytics.RequestRecord),
            StronglySorted
              (fun a b => Analytics.timestamp b <= Analytics.timestamp a) l ->
            StronglySorted
              (fun a b => Analytics.timestamp b <= Analytics.timestamp a)
              (firstn n l)) as Hfirst.
  { intros n l Hl. revert n.
    induction Hl as [| z l Hl IH Hall]; intros [| n]; cbn; constructor; auto.
    rewrite List.Forall_forall in *. intros x Hx. apply Hall.
    eapply in_firstn. exact Hx. }
  split; [apply List.firstn_le_length |].
  split; [apply Hfirst, Hfirst; apply (sort_descending Analytics.timestamp) |].
  split.
  { apply List.Forall_forall. intros r Hr.
    apply in_firstn, in_firstn in Hr.
    apply (Permutation_in _ (sort_perm _ _)) in Hr.
    unfold Analytics.since in Hr. apply List.filter_In in Hr as [Hin Hts].
    split; [exact Hin | lia]. }
  split; [apply List.firstn_le_length |].
  split; [apply Hfirst; apply (sort_descending Analytics.timestamp) |].
  apply List.Forall_forall. intros r Hr.
  apply in_firstn in Hr.
  apply (Permutation_in _ (sort_perm _ _)) in Hr.
  apply List.filter_In in Hr as [Hin Hip].
  split; [exact Hin | apply String.eqb_eq; exact Hip].
Qed.

(** X28.  The endpoint ranking is a true top ten by traffic: after any
    history of store operations [getAnalytics()] lists at most ten
    endpoints in descending order of total requests, each with a block
    rate between 0 and 100 percent and no more blocked requests than
    total, and every endpoint of the store is either listed or has no
    more traffic than any listed endpoint. *)
Theorem X28_endpoint_ranking_is_the_top :
  forall (ops : list Analytics.Op) (now : Z),
    let st := Analytics.run ops Analytics.empty in
    let rows := Analytics.endpointStats (Analytics.getAnalytics now st) in
    (length rows <= 10)%nat
    /\ StronglySorted
         (fun a b => (Analytics.row_total b <= Analytics.row_total a)%nat) rows
    /\ Forall (fun row =>
                 (Analytics.row_blocked row <= Analytics.row_total row)%nat
                 /\ 0 <= Analytics.row_blockRate row <= 10000
                 /\ exists stats,
                      In (Analytics.row_endpoint row, stats) (Analytics.endpoints st)
                      /\ Analytics.row_total row = Analytics.total stats
                      /\ Analytics.row_blocked row = Analytics.ep_blocked stats)
              rows
    /\ (forall endpoint0 stats,
          In (endpoint0, stats) (Analytics.endpoints st) ->
          (exists row, In row rows /\ Analytics.row_endpoint row = endpoint0
                       /\ Analytics.row_total row = Analytics.total stats)
          \/ forall row, In row rows ->
                         (Analytics.total stats <= Analytics.row_total row)%nat).
Proof.
  intros ops now st rows. subst rows.
  pose proof (proj1 (proj2 (run_consistent ops _ empty_consistent))) as Hcons.
  fold st in Hcons.
  cbn [Analytics.getAnalytics Analytics.endpointStats].
  unfold Js.slice0, Js.entries.
  set (mk := fun kv : string * Analytics.EndpointStats =>
               {| Analytics.row_endpoint := fst kv;
                  Analytics.row_total := Analytics.total (snd kv);
                  Analytics.row_blocked := Analytics.ep_blocked (snd kv);
                  Analytics.row_lastAccess := Analytics.lastAccess (snd kv);
                  Analytics.row_blockRate :=
                    Analytics.percent2 (Analytics.ep_blocked (snd kv))
                                       (Analytics.total (snd kv)) |}).
  set (all := List.map mk (Analytics.endpoints st)).
  assert (StronglySorted
            (fun a b : Analytics.EndpointRow =>
               Z.of_nat (Analytics.row_total b) <= Z.of_nat (Analytics.row_total a))
            (Js.sort (fun a b => Z.of_nat (Analytics.row_total b)
                                 - Z.of_nat (Analytics.row_total a)) all))
    as Hsorted
    by exact (sort_descending (fun r => Z.of_nat (Analytics.row_total r)) all).
  pose proof (sort_perm (fun a b => Z.of_nat (Analytics.row_total b)
                                    - Z.of_nat (Analytics.row_total a)) all)
    as Hperm.
  set (sorted := Js.sort _ all) in *. clearbody sorted.
  split; [apply List.firstn_le_length |].
  split; [| split].
  - assert (StronglySorted
              (fun a b : Analytics.EndpointRow =>
                 (Analytics.row_total b <= Analytics.row_total a)%nat) sorted)
      as Hnat.
    { clear Hperm. induction Hsorted as [| z l Hl IH Hall]; constructor; auto.
      eapply Forall_impl; [exact Hall |]. cbn. intros. lia. }
    clear Hsorted Hperm. generalize 10%nat as n. intros n. revert n.
    induction Hnat as [| z l Hl IH Hall]; intros [| n]; cbn; constructor; auto.
    rewrite List.Forall_forall in *. intros x Hx. apply Hall.
    eapply in_firstn. exact Hx.
  - apply List.Forall_forall. intros row Hrow.
    apply in_firstn in Hrow. apply (Permutation_in _ Hperm) in Hrow.
    subst all. apply List.in_map_iff in Hrow as ([k stats] & <- & Hin).
    rewrite List.Forall_forall in Hcons. specialize (Hcons _ Hin).
    cbn in Hcons |- *.
    split; [exact Hcons | split; [apply percent2_bounds; exact Hcons |]].
    exists stats. repeat split. exact Hin.
  - intros endpoint0 stats Hin.
    assert (In (mk (endpoint0, stats)) sorted) as Hrow.
    { apply (Permutation_in _ (Permutation_sym Hperm)).
      subst all. apply List.in_map. exact Hin. }
    rewrite <- (List.firstn_skipn 10 sorted) in Hrow.
    apply List.in_app_iff in Hrow as [Hrow | Hrow].
    + left. exists (mk (endpoint0, stats)). repeat split. exact Hrow.
    + right. intros row Hlisted.
      pose proof (top_of_descending _ 10 sorted Hsorted row _ Hlisted Hrow) as H.
      cbn in H. lia.
Qed.
